(** * signalk-weatherflow: wind calculator and weather-API facade

    A shallow embedding of [src/windCalculations.ts] and of the weather
    provider of the plugin entry point (unit converter, observation and
    forecast cache, [getObservations], [getForecasts], [getWarnings],
    [calculateDistance]), then of what feeds them: the source labels, the
    deltas handed to the host, the handlers of the observation messages and
    of the position updates, and the station location of the options.

    Numbers.  A JavaScript [number] is read as a real number: the inputs are
    finite and the arithmetic is exact, so that [Math.sin], [Math.cos],
    [Math.sqrt], [Math.atan2] and [Math.pow] are the functions of analysis.
    In the wind calculator, whose inputs are numbers, [null] is [None].  The
    plugin passes untyped objects around ([data: any]); there a value is a
    [JS.value], with [undefined], [null] and [NaN] as constructors of their
    own and the coercions of the language written out.

    Time.  An instant is a number of milliseconds since the epoch, in [Z];
    the clock ([Date.now ()], [new Date ()]) is an argument [now].  Instants
    are taken inside the range a [Date] can hold. *)

From Stdlib Require Import Reals Lra Lia ZArith List String Ascii Bool.
Import ListNotations.

Local Open Scope R_scope.

(** ** The JavaScript run-time operations the program relies on *)

Module JS.

(** [x ? a : b] on a number: [0] is falsy. *)
Definition truthy (x : R) : bool :=
  if Req_dec_T x 0 then false else true.

(** [x || y] on numbers. *)
Definition or (x y : R) : R := if truthy x then x else y.

(** [Math.atan2 (y, x)], with [Math.atan2 (0, 0) = 0]. *)
Definition atan2 (y x : R) : R :=
  if Rlt_dec 0 x then atan (y / x)
  else if Rlt_dec x 0 then
         if Rle_dec 0 y then atan (y / x) + PI else atan (y / x) - PI
  else if Rlt_dec 0 y then PI / 2
  else if Rlt_dec y 0 then - (PI / 2)
  else 0.

(** Truncation toward zero, as [%] and [Date] use it. *)
Definition trunc (x : R) : Z :=
  if Rle_dec 0 x then Int_part x else (- Int_part (- x))%Z.

(** [x % y]: the remainder takes the sign of the dividend. *)
Definition rem (x y : R) : R := x - y * IZR (trunc (x / y)).

(** [Math.round]: the nearest integer, halves going up. *)
Definition round (x : R) : Z := Int_part (x + / 2).

(** [Math.pow] at a positive base. *)
Definition pow (x y : R) : R := Rpower x y.

(** *** Untyped values *)

(** A number that may be [NaN]. *)
Inductive number := Num (x : R) | NaN.

(** [Iso ms] is the string that [toISOString] gives for the instant [ms],
    which [Date] parses back to [ms]; [Str] is any other string. *)
#[warnings="-register-all"]
Inductive value :=
| Undefined
| Null
| Boolean (b : bool)
| Number (n : number)
| Str (s : string)
| Iso (ms : Z)
| Obj (fields : list (string * value)).

Definition num (x : R) : value := Number (Num x).

(** What the model leaves to the run-time library: parsing of a date
    string other than an [Iso] one ([None] for an invalid date), the
    conversions between strings and numbers, and the text of an ISO
    date. *)
Class Runtime := {
  parseDate : string -> option Z;
  StringToNumber : string -> number;
  NumberToString : R -> string;
  isoText : Z -> string
}.

Section Coercions.
Context {rt : Runtime}.

Definition ToBoolean (v : value) : bool :=
  match v with
  | Undefined | Null => false
  | Boolean b => b
  | Number NaN => false
  | Number (Num x) => truthy x
  | Str s => negb (String.eqb s "")
  | Iso _ => true
  | Obj _ => true
  end.

Definition ToNumber (v : value) : number :=
  match v with
  | Undefined => NaN
  | Null => Num 0
  | Boolean true => Num 1
  | Boolean false => Num 0
  | Number n => n
  | Str s => StringToNumber s
  | Iso _ => NaN
  | Obj _ => NaN
  end.

Definition ToString (v : value) : string :=
  match v with
  | Undefined => "undefined"
  | Null => "null"
  | Boolean true => "true"
  | Boolean false => "false"
  | Number NaN => "NaN"
  | Number (Num x) => NumberToString x
  | Str s => s
  | Iso ms => isoText ms
  | Obj _ => "[object Object]"
  end.

(** Strings, and objects (which become strings), make [+] concatenate. *)
Definition stringy (v : value) : bool :=
  match v with
  | Str _ | Iso _ | Obj _ => true
  | _ => false
  end.

Definition lift2 (f : R -> R -> R) (n m : number) : number :=
  match n, m with
  | Num x, Num y => Num (f x y)
  | _, _ => NaN
  end.

(** [v + w] *)
Definition plus (v w : value) : value :=
  if stringy v || stringy w then Str (ToString v ++ ToString w)
  else Number (lift2 Rplus (ToNumber v) (ToNumber w)).

(** [v - w], [v * w], and [v / w] for a divisor other than zero *)
Definition minus (v w : value) : value :=
  Number (lift2 Rminus (ToNumber v) (ToNumber w)).
Definition times (v w : value) : value :=
  Number (lift2 Rmult (ToNumber v) (ToNumber w)).
Definition divide (v w : value) : value :=
  Number (lift2 Rdiv (ToNumber v) (ToNumber w)).

(** [v > x] for a number [x]: false on [NaN]. *)
Definition gt (v : value) (x : R) : bool :=
  match ToNumber v with
  | Num y => if Rgt_dec y x then true else false
  | NaN => false
  end.

(** [v || w] *)
Definition or_else (v w : value) : value :=
  if ToBoolean v then v else w.

(** [v == null] *)
Definition nullish (v : value) : bool :=
  match v with
  | Undefined | Null => true
  | _ => false
  end.

(** [obj.key]: [undefined] when the key is absent. *)
Fixpoint lookup (fields : list (string * value)) (key : string) : value :=
  match fields with
  | [] => Undefined
  | (k, v) :: rest => if String.eqb k key then v else lookup rest key
  end.

Definition get (obj : value) (key : string) : value :=
  match obj with
  | Obj fields => lookup fields key
  | _ => Undefined
  end.

(** [{...obj, key: v}] *)
Fixpoint assign (fields : list (string * value)) (key : string)
    (v : value) : list (string * value) :=
  match fields with
  | [] => [(key, v)]
  | (k, x) :: rest =>
      if String.eqb k key then (k, v) :: rest
      else (k, x) :: assign rest key v
  end.

(** [Math.atan], [Math.sqrt], [Math.round] on a value, and [Math.pow]
    for the exponent 1.5. *)
Definition Math_atan (v : value) : value :=
  match ToNumber v with
  | Num x => num (atan x)
  | NaN => Number NaN
  end.

Definition Math_sqrt (v : value) : value :=
  match ToNumber v with
  | Num x => if Rlt_dec x 0 then Number NaN else num (sqrt x)
  | NaN => Number NaN
  end.

Definition Math_round (v : value) : value :=
  match ToNumber v with
  | Num x => num (IZR (round x))
  | NaN => Number NaN
  end.

Definition Math_pow_3_2 (v : value) : value :=
  match ToNumber v with
  | Num x => if Rlt_dec 0 x then num (pow x 1.5)
             else if Rlt_dec x 0 then Number NaN
             else num 0
  | NaN => Number NaN
  end.

(** *** Dates: [None] is the invalid date *)

(** [new Date (v)] *)
Definition Date_of (v : value) : option Z :=
  match v with
  | Undefined => None
  | Str s => parseDate s
  | Iso ms => Some ms
  | Obj _ => parseDate "[object Object]"
  | _ => match ToNumber v with
         | Num x => Some (trunc x)
         | NaN => None
         end
  end.

(** [d.toISOString ()]: throws a [RangeError], here [None], on the
    invalid date. *)
Definition toISOString (d : option Z) : option value :=
  option_map Iso d.

(** [a >= b] on the results of [getTime ()]: false when either is
    [NaN]. *)
Definition time_ge (a b : option Z) : bool :=
  match a, b with
  | Some x, Some y => (y <=? x)%Z
  | _, _ => false
  end.

(** [a < b] on two dates. *)
Definition date_lt (a b : option Z) : bool :=
  match a, b with
  | Some x, Some y => (x <? y)%Z
  | _, _ => false
  end.

End Coercions.

(** *** Strings and arrays *)

Definition is_upper (c : ascii) : bool :=
  (65 <=? nat_of_ascii c)%nat && (nat_of_ascii c <=? 90)%nat.
Definition is_lower (c : ascii) : bool :=
  (97 <=? nat_of_ascii c)%nat && (nat_of_ascii c <=? 122)%nat.
Definition is_digit (c : ascii) : bool :=
  (48 <=? nat_of_ascii c)%nat && (nat_of_ascii c <=? 57)%nat.

Definition upper (c : ascii) : ascii :=
  if is_lower c then ascii_of_nat (nat_of_ascii c - 32) else c.
Definition lower (c : ascii) : ascii :=
  if is_upper c then ascii_of_nat (nat_of_ascii c + 32) else c.

Fixpoint toLowerCase (s : string) : string :=
  match s with
  | EmptyString => EmptyString
  | String c rest => String (lower c) (toLowerCase rest)
  end.

(** [arr.slice (0, n)]: a negative [n] counts from the end. *)
Definition slice0 {A : Type} (arr : list A) (n : Z) : list A :=
  if (0 <=? n)%Z then firstn (Z.to_nat n) arr
  else firstn (Z.to_nat (Z.of_nat (List.length arr) + n)) arr.

End JS.

(** ** src/windCalculations.ts *)

Module WindInput.
Record t := mk {
  windSpeed : R;
  windDirection : R;
  airTemperature : option R
}.
End WindInput.

Module ApparentWindData.
Record t := mk {
  windSpeed : R;
  windAngleRelative : R;
  windAngleRelativeRad : R;
  apparentTrueDeg : R;
  apparentMagneticDeg : R;
  apparentTrueRad : R;
  apparentMagneticRad : R;
  airTemperature : R
}.
End ApparentWindData.

Module DerivedWindValues.
Record t := mk {
  speedApparent : R;
  angleApparent : R;
  angleTrueGround : R;
  angleTrueWater : R;
  directionTrue : R;
  directionMagnetic : R;
  speedTrue : R;
  windChill : option R;
  heatIndex : option R;
  feelsLike : R
}.
End DerivedWindValues.

Module WindCalculations.

(** The private fields of the class.  [app] and [vesselName] only feed the
    [source] label of the published deltas and are left out, with the
    [timestamp] and [source] fields of the result. *)
Record t := mk {
  headingTrue : R;
  headingMagnetic : R;
  courseOverGroundMagnetic : option R;
  speedOverGround : R;
  airTemp : R;
  humidity : R;
  anchorSet : bool;
  anchorApparentBearing : R
}.

(** The field initialisers of the class. *)
Definition init : t := mk 0 0 None 0 0 0 false 0.

Definition degToRad (deg : R) : R := (deg * PI) / 180.
Definition radToDeg (rad : R) : R := (rad * 180) / PI.

(** [while (angle > Math.PI) angle -= 2 * Math.PI;] *)
Fixpoint while_above (fuel : nat) (angle : R) : option R :=
  match fuel with
  | O => None
  | S n => if Rgt_dec angle PI then while_above n (angle - 2 * PI)
           else Some angle
  end.

(** [while (angle < -Math.PI) angle += 2 * Math.PI;] *)
Fixpoint while_below (fuel : nat) (angle : R) : option R :=
  match fuel with
  | O => None
  | S n => if Rlt_dec angle (- PI) then while_below n (angle + 2 * PI)
           else Some angle
  end.

(** The two loops in sequence; [None] when the fuel runs out. *)
Definition normalizeAngle (fuel : nat) (angle : R) : option R :=
  match while_above fuel angle with
  | Some a => while_below fuel a
  | None => None
  end.

Definition toCompassBearing (radians : R) : R :=
  if Rlt_dec radians 0 then radians + 2 * PI else radians.

Definition updateNavigationData (w : t) (path : string) (value : R) : t :=
  if String.eqb path "navigation.headingTrue" then
    mk value (headingMagnetic w) (courseOverGroundMagnetic w)
       (speedOverGround w) (airTemp w) (humidity w)
       (anchorSet w) (anchorApparentBearing w)
  else if String.eqb path "navigation.headingMagnetic" then
    mk (headingTrue w) value (courseOverGroundMagnetic w)
       (speedOverGround w) (airTemp w) (humidity w)
       (anchorSet w) (anchorApparentBearing w)
  else if String.eqb path "navigation.courseOverGroundMagnetic" then
    mk (headingTrue w) (headingMagnetic w) (Some value)
       (speedOverGround w) (airTemp w) (humidity w)
       (anchorSet w) (anchorApparentBearing w)
  else if String.eqb path "navigation.speedOverGround" then
    mk (headingTrue w) (headingMagnetic w) (courseOverGroundMagnetic w)
       value (airTemp w) (humidity w)
       (anchorSet w) (anchorApparentBearing w)
  else if String.eqb path
            "environment.outside.tempest.observations.airTemperature" then
    mk (headingTrue w) (headingMagnetic w) (courseOverGroundMagnetic w)
       (speedOverGround w) value (humidity w)
       (anchorSet w) (anchorApparentBearing w)
  else if String.eqb path
            "environment.outside.tempest.observations.relativeHumidity" then
    mk (headingTrue w) (headingMagnetic w) (courseOverGroundMagnetic w)
       (speedOverGround w) (airTemp w) value
       (anchorSet w) (anchorApparentBearing w)
  else w.

(** [windData.airTemperature || this.airTemp]: an absent override and a
    falsy one both fall back to the stored air temperature. *)
Definition airTemperature_or (override : option R) (stored : R) : R :=
  match override with
  | Some v => JS.or v stored
  | None => stored
  end.

Definition calculateApparentWind (w : t) (windData : WindInput.t)
  : ApparentWindData.t :=
  let headingTrueDeg := radToDeg (headingTrue w) in
  let headingMagneticDeg := radToDeg (headingMagnetic w) in
  let windAngleRelative := WindInput.windDirection windData in
  let windAngleRelativeRad := degToRad (WindInput.windDirection windData) in
  let apparentTrueDeg :=
    JS.rem (headingTrueDeg + WindInput.windDirection windData) 360 in
  let apparentMagneticDeg :=
    JS.rem (headingMagneticDeg + WindInput.windDirection windData) 360 in
  ApparentWindData.mk
    (WindInput.windSpeed windData)
    windAngleRelative
    windAngleRelativeRad
    apparentTrueDeg
    apparentMagneticDeg
    (degToRad apparentTrueDeg)
    (degToRad apparentMagneticDeg)
    (airTemperature_or (WindInput.airTemperature windData) (airTemp w)).

(** The wind-chill block: [null] unless both guards hold. *)
Definition windChillK (airTempC windSpeedKmh : R) : option R :=
  if Rle_dec airTempC 10 then
    if Rgt_dec windSpeedKmh 4.8 then
      let windChillC :=
        13.12 + 0.6215 * airTempC
        - 11.37 * JS.pow windSpeedKmh 0.16
        + 0.3965 * airTempC * JS.pow windSpeedKmh 0.16 in
      Some (windChillC + 273.15)
    else None
  else None.

(** The heat-index block. *)
Definition heatIndexK (airTempC hum : R) : option R :=
  let airTempF := (airTempC * 9) / 5 + 32 in
  if Rge_dec airTempF 80 then
    if Rge_dec hum 40 then
      let T := airTempF in
      let R := hum in
      let heatIndexF :=
        - 42.379 + 2.04901523 * T + 10.14333127 * R
        - 0.22475541 * T * R - 0.00683783 * T * T
        - 0.05481717 * R * R + 0.00122874 * T * T * R
        + 0.00085282 * T * R * R - 0.00000199 * T * T * R * R in
      let heatIndexC := ((heatIndexF - 32) * 5) / 9 in
      Some (heatIndexC + 273.15)
    else None
  else None.

(** The feels-like block: starts from [this.airTemp]. *)
Definition feelsLikeK (airTempC : R) (windChill heatIndex : option R) : R :=
  let feelsLike := airTempC in
  let otherwise :=
    match heatIndex with
    | Some hi => if Rge_dec airTempC 27 then hi else feelsLike
    | None => feelsLike
    end in
  match windChill with
  | Some wc => if Rle_dec airTempC 10 then wc else otherwise
  | None => otherwise
  end.

Definition calculateDerivedWindValues (fuel : nat) (w : t)
    (apparentWindData : ApparentWindData.t) : option DerivedWindValues.t :=
  let effectiveHeadingTrueRad :=
    if anchorSet w then anchorApparentBearing w else headingTrue w in
  let effectiveHeadingMagneticRad :=
    if anchorSet w then anchorApparentBearing w else headingMagnetic w in
  match normalizeAngle fuel
          (JS.or (ApparentWindData.windAngleRelativeRad apparentWindData)
                 (ApparentWindData.apparentTrueRad apparentWindData
                  - effectiveHeadingTrueRad)) with
  | None => None
  | Some angleApparent =>
  let effectiveSOG := if anchorSet w then 0 else speedOverGround w in
  let Vx := effectiveSOG * cos effectiveHeadingTrueRad in
  let Vy := effectiveSOG * sin effectiveHeadingTrueRad in
  let Ax := ApparentWindData.windSpeed apparentWindData
            * cos (ApparentWindData.apparentTrueRad apparentWindData) in
  let Ay := ApparentWindData.windSpeed apparentWindData
            * sin (ApparentWindData.apparentTrueRad apparentWindData) in
  let Wx := Ax + Vx in
  let Wy := Ay + Vy in
  let trueWindSpeed := sqrt (Wx * Wx + Wy * Wy) in
  let rawTrueDirection := JS.atan2 Wy Wx in
  let trueWindDirTrueRad := toCompassBearing rawTrueDirection in
  match normalizeAngle fuel
          (trueWindDirTrueRad - effectiveHeadingTrueRad) with
  | None => None
  | Some angleTrueGround =>
  let VxMag := effectiveSOG * cos effectiveHeadingMagneticRad in
  let VyMag := effectiveSOG * sin effectiveHeadingMagneticRad in
  let AxMag := ApparentWindData.windSpeed apparentWindData
               * cos (ApparentWindData.apparentMagneticRad apparentWindData) in
  let AyMag := ApparentWindData.windSpeed apparentWindData
               * sin (ApparentWindData.apparentMagneticRad apparentWindData) in
  let WxMag := AxMag + VxMag in
  let WyMag := AyMag + VyMag in
  let rawMagneticDirection := JS.atan2 WyMag WxMag in
  let trueWindDirMagRad := toCompassBearing rawMagneticDirection in
  match normalizeAngle fuel
          (trueWindDirMagRad - effectiveHeadingMagneticRad) with
  | None => None
  | Some angleTrueWater =>
  let airTempC := airTemp w in
  let windSpeedKmh := trueWindSpeed * 3.6 in
  let windChill := windChillK airTempC windSpeedKmh in
  let heatIndex := heatIndexK airTempC (humidity w) in
  let feelsLike := feelsLikeK (airTemp w) windChill heatIndex in
  Some (DerivedWindValues.mk
          (ApparentWindData.windSpeed apparentWindData)
          angleApparent
          angleTrueGround
          angleTrueWater
          trueWindDirTrueRad
          trueWindDirMagRad
          trueWindSpeed
          windChill
          heatIndex
          feelsLike)
  end end end.

(** The call returns [d]: some amount of fuel is enough for the three
    normalisation loops. *)
Definition returns (w : t) (a : ApparentWindData.t)
    (d : DerivedWindValues.t) : Prop :=
  exists fuel, calculateDerivedWindValues fuel w a = Some d.

End WindCalculations.


(** *** The local constants of [calculateDerivedWindValues], by name *)

Section DerivedParts.
Import WindCalculations.

Variable w : WindCalculations.t.
Variable a : ApparentWindData.t.

Definition effectiveHeadingTrueRad : R :=
  if anchorSet w then anchorApparentBearing w else headingTrue w.
Definition effectiveHeadingMagneticRad : R :=
  if anchorSet w then anchorApparentBearing w else headingMagnetic w.
Definition effectiveSOG : R :=
  if anchorSet w then 0 else speedOverGround w.

Definition Wx : R :=
  ApparentWindData.windSpeed a * cos (ApparentWindData.apparentTrueRad a)
  + effectiveSOG * cos effectiveHeadingTrueRad.
Definition Wy : R :=
  ApparentWindData.windSpeed a * sin (ApparentWindData.apparentTrueRad a)
  + effectiveSOG * sin effectiveHeadingTrueRad.
Definition WxMag : R :=
  ApparentWindData.windSpeed a * cos (ApparentWindData.apparentMagneticRad a)
  + effectiveSOG * cos effectiveHeadingMagneticRad.
Definition WyMag : R :=
  ApparentWindData.windSpeed a * sin (ApparentWindData.apparentMagneticRad a)
  + effectiveSOG * sin effectiveHeadingMagneticRad.

(** What a returned record holds, read off the body of the function. *)
Record fields_of (fuel : nat) (d : DerivedWindValues.t) : Prop := {
  f_speedApparent :
    DerivedWindValues.speedApparent d = ApparentWindData.windSpeed a;
  f_angleApparent :
    normalizeAngle fuel
      (JS.or (ApparentWindData.windAngleRelativeRad a)
             (ApparentWindData.apparentTrueRad a - effectiveHeadingTrueRad))
    = Some (DerivedWindValues.angleApparent d);
  f_angleTrueGround :
    normalizeAngle fuel
      (DerivedWindValues.directionTrue d - effectiveHeadingTrueRad)
    = Some (DerivedWindValues.angleTrueGround d);
  f_angleTrueWater :
    normalizeAngle fuel
      (DerivedWindValues.directionMagnetic d - effectiveHeadingMagneticRad)
    = Some (DerivedWindValues.angleTrueWater d);
  f_directionTrue :
    DerivedWindValues.directionTrue d = toCompassBearing (JS.atan2 Wy Wx);
  f_directionMagnetic :
    DerivedWindValues.directionMagnetic d
    = toCompassBearing (JS.atan2 WyMag WxMag);
  f_speedTrue :
    DerivedWindValues.speedTrue d = sqrt (Wx * Wx + Wy * Wy);
  f_windChill :
    DerivedWindValues.windChill d
    = windChillK (airTemp w) (DerivedWindValues.speedTrue d * 3.6);
  f_heatIndex :
    DerivedWindValues.heatIndex d = heatIndexK (airTemp w) (humidity w);
  f_feelsLike :
    DerivedWindValues.feelsLike d
    = feelsLikeK (airTemp w) (DerivedWindValues.windChill d)
                 (DerivedWindValues.heatIndex d)
}.

End DerivedParts.

(** *** Sample inputs *)

Section WindSamples.
Import WindCalculations.

(** The stored state and apparent wind of a mild day: 20 C, humidity 0,
    vessel at rest, wind of 5 m/s on the bow. *)
Definition mild_day : WindCalculations.t :=
  updateNavigationData init
    "environment.outside.tempest.observations.airTemperature" 20.
Definition bow_wind : ApparentWindData.t :=
  calculateApparentWind mild_day (WindInput.mk 5 0 None).

(** 15 C stored, and a wind sample that carries an override of 0 C. *)
Definition at_15C : WindCalculations.t :=
  updateNavigationData init
    "environment.outside.tempest.observations.airTemperature" 15.
Definition sample_at_0C : WindInput.t := WindInput.mk 5 90 (Some 0).

(** A calm: no wind, vessel at rest heading north, vane at 90 degrees. *)
Definition calm : ApparentWindData.t :=
  calculateApparentWind init (WindInput.mk 0 90 None).

(** The two boundary cases of the wind chill, vessel at rest: 10 C with
    4.8 km/h of wind, and 9.9 C with 5 km/h. *)
Definition at_10C : WindCalculations.t := mk 0 0 None 0 10 0 false 0.
Definition wind_4_8_kmh : ApparentWindData.t :=
  ApparentWindData.mk (4.8 / 3.6) 0 0 0 0 0 0 10.
Definition at_9_9C : WindCalculations.t := mk 0 0 None 0 9.9 0 false 0.
Definition wind_5_kmh : ApparentWindData.t :=
  ApparentWindData.mk (5 / 3.6) 0 0 0 0 0 0 9.9.

End WindSamples.

(** ** The plugin entry point: unit converter, caches, weather provider *)

(** Modelled from the spec: the declarations of [Position],
    [WeatherReqParams], [WeatherForecastType], [WeatherData] and
    [WeatherWarning] belong to a revision of types.ts that is not among the
    sources.  The spec gives a position as (latitude, longitude, timestamp),
    the options as [{maxCount?, startDate?}], the forecast kind as point or
    daily, and the results as records in the external observation, forecast
    and warning shape; the fields below are those the plugin's object
    literals write and its functions read. *)
Module Position.
Record t := mk {
  latitude : R;
  longitude : R;
  timestamp : option Z
}.
End Position.

Module WeatherReqParams.
Record t := mk {
  maxCount : option Z;
  startDate : option JS.value
}.
End WeatherReqParams.

Module WeatherForecastType.
Inductive t := point | daily.

Definition text (ty : t) : string :=
  match ty with
  | point => "point"
  | daily => "daily"
  end.
End WeatherForecastType.

Module WeatherData.
Record t := mk {
  date : JS.value;
  type : string;
  description : JS.value;
  outside : option JS.value;
  wind : option JS.value;
  sun : option JS.value
}.
End WeatherData.

Module WeatherWarning.
Record t := mk {
  startTime : JS.value;
  endTime : JS.value;
  details : string;
  source : string;
  type : string
}.
End WeatherWarning.

Module ConvertedValue.
Record t := mk {
  value : JS.value;
  units : option string
}.
End ConvertedValue.

Module ForecastData.
Record forecast_t := mkForecast {
  hourly : option (list JS.value);
  daily : option (list JS.value)
}.
Record t := mk {
  current_conditions : option JS.value;
  forecast : option forecast_t
}.
End ForecastData.

(** The part of the plugin state the weather provider reads.
    [latestObservations] is a [Map]: keys in insertion order. *)
Module PluginState.
Record t := mk {
  latestObservations : list (string * JS.value);
  latestForecastData : option ForecastData.t;
  stationLocation : option Position.t;
  currentVesselPosition : option Position.t
}.

Definition init : t := mk [] None None None.
End PluginState.

Module Plugin.
Import JS.
Local Open Scope string_scope.

(** [str.replace (/_([a-z0-9])/g, (_, letter) => letter.toUpperCase ())] *)
Fixpoint snakeToCamel (str : string) : string :=
  match str with
  | EmptyString => EmptyString
  | String c rest =>
      if Ascii.eqb c "_" then
        match rest with
        | String letter rest' =>
            if is_lower letter || is_digit letter
            then String (upper letter) (snakeToCamel rest')
            else String c (snakeToCamel rest)
        | EmptyString => String c EmptyString
        end
      else String c (snakeToCamel rest)
  end.

(** The [case] labels of [convertToSignalKUnits], group by group. *)
Definition temperatureKeys : list string :=
  ["airTemperature"; "feelsLike"; "heatIndex"; "windChill"; "dewPoint";
   "wetBulbTemperature"; "wetBulbGlobeTemperature"].
Definition pressureKeys : list string := ["stationPressure"; "pressure"].
Definition directionKeys : list string := ["windDirection"].
Definition distanceKeys : list string :=
  ["lightningStrikeAvgDistance"; "strikeLastDist"].
Definition minuteKeys : list string := ["reportInterval"].
Definition rainKeys : list string :=
  ["rainAccumulated"; "rainAccumulatedFinal"; "localDailyRainAccumulation";
   "localDailyRainAccumulationFinal"; "precipTotal1h";
   "precipAccumLocalYesterday"; "precipAccumLocalYesterdayFinal"].
Definition humidityKeys : list string := ["relativeHumidity"].
Definition speedKeys : list string :=
  ["windLull"; "windAvg"; "windGust"; "windSpeed"].
Definition secondKeys : list string :=
  ["windSampleInterval"; "timeEpoch"; "strikeLastEpoch";
   "precipMinutesLocalDay"; "precipMinutesLocalYesterday"].
Definition illuminanceKeys : list string := ["illuminance"].
Definition radiationKeys : list string := ["solarRadiation"].
Definition batteryKeys : list string := ["battery"].
Definition densityKeys : list string := ["airDensity"].
Definition deltaTKeys : list string := ["deltaT"].

Definition one_of (key : string) (labels : list string) : bool :=
  existsb (String.eqb key) labels.

(** [Map.prototype.get] and [Map.prototype.set] *)
Fixpoint Map_get (m : list (string * value)) (key : string)
  : option value :=
  match m with
  | [] => None
  | (k, v) :: rest => if String.eqb k key then Some v else Map_get rest key
  end.

Fixpoint Map_set (m : list (string * value)) (key : string) (v : value)
  : list (string * value) :=
  match m with
  | [] => [(key, v)]
  | (k, x) :: rest =>
      if String.eqb k key then (k, v) :: rest
      else (k, x) :: Map_set rest key v
  end.

Section WithRuntime.
Context {rt : Runtime}.

Local Infix "[+]" := plus (at level 50, left associativity).
Local Infix "[-]" := minus (at level 50, left associativity).
Local Infix "[*]" := times (at level 40, left associativity).
Local Infix "[/]" := divide (at level 40, left associativity).
Local Notation "o .[ k ]" := (get o k) (at level 1, format "o .[ k ]").

Definition convertToSignalKUnits (key : string) (value : JS.value)
  : ConvertedValue.t :=
  if nullish value then ConvertedValue.mk value None
  else
    let normalizedKey := snakeToCamel key in
    if one_of normalizedKey temperatureKeys then
      ConvertedValue.mk (value [+] num 273.15) (Some "K")
    else if one_of normalizedKey pressureKeys then
      ConvertedValue.mk (value [*] num 100) (Some "Pa")
    else if one_of normalizedKey directionKeys then
      ConvertedValue.mk (value [*] num (PI / 180)) (Some "rad")
    else if one_of normalizedKey distanceKeys then
      ConvertedValue.mk (value [*] num 1000) (Some "m")
    else if one_of normalizedKey minuteKeys then
      ConvertedValue.mk (value [*] num 60) (Some "s")
    else if one_of normalizedKey rainKeys then
      ConvertedValue.mk (value [/] num 1000) (Some "m")
    else if one_of normalizedKey humidityKeys then
      ConvertedValue.mk (value [/] num 100) (Some "ratio")
    else if one_of normalizedKey speedKeys then
      ConvertedValue.mk value (Some "m/s")
    else if one_of normalizedKey secondKeys then
      ConvertedValue.mk value (Some "s")
    else if one_of normalizedKey illuminanceKeys then
      ConvertedValue.mk value (Some "lux")
    else if one_of normalizedKey radiationKeys then
      ConvertedValue.mk value (Some "W/m2")
    else if one_of normalizedKey batteryKeys then
      ConvertedValue.mk value (Some "V")
    else if one_of normalizedKey densityKeys then
      ConvertedValue.mk value (Some "kg/m3")
    else if one_of normalizedKey deltaTKeys then
      ConvertedValue.mk value (Some "K")
    else
      (* counts, indices, strings and the default: no unit *)
      ConvertedValue.mk value None.

(** [{...data}] of something that is not an object has no keys. *)
Definition spread (data : value) : list (string * value) :=
  match data with
  | Obj fields => fields
  | _ => []
  end.

Definition cacheObservationData (st : PluginState.t) (type : string)
    (data : value) (now : Z) : PluginState.t :=
  PluginState.mk
    (Map_set (PluginState.latestObservations st) type
             (Obj (assign (spread data) "timestamp" (Iso now))))
    (PluginState.latestForecastData st)
    (PluginState.stationLocation st)
    (PluginState.currentVesselPosition st).

(** [arr[i]]: [undefined] past the end. *)
Definition element (arr : list R) (i : nat) : value :=
  match nth_error arr i with
  | Some x => num x
  | None => Undefined
  end.

(** The record [processTempestObservation] builds from the first
    observation array; [None] when [toISOString] throws. *)
Definition tempestObservationData (obs : list R)
  : option (list (string * value)) :=
  match toISOString (Date_of (element obs 0 [*] num 1000)) with
  | None => None
  | Some utcDate =>
      Some [("timeEpoch", element obs 0);
            ("windLull", element obs 1);
            ("windAvg", element obs 2);
            ("windGust", element obs 3);
            ("windDirection", element obs 4);
            ("windSampleInterval", element obs 5);
            ("stationPressure", element obs 6);
            ("airTemperature", element obs 7);
            ("relativeHumidity", element obs 8);
            ("illuminance", element obs 9);
            ("uvIndex", element obs 10);
            ("solarRadiation", element obs 11);
            ("rainAccumulated", element obs 12);
            ("precipitationType", element obs 13);
            ("lightningStrikeAvgDistance", element obs 14);
            ("lightningStrikeCount", element obs 15);
            ("battery", element obs 16);
            ("reportInterval", element obs 17);
            ("localDailyRainAccumulation", element obs 18);
            ("rainAccumulatedFinal", element obs 19);
            ("localDailyRainAccumulationFinal", element obs 20);
            ("precipitationAnalysisType", element obs 21);
            ("utcDate", utcDate)]
  end.

(** The copy with the units converted, which goes to the cache. *)
Definition tempestWeatherApiData (obs : list R) : option value :=
  match tempestObservationData obs with
  | None => None
  | Some observationData =>
      let d := observationData in
      let d := assign d "windDirection"
                 (element obs 4 [*] num PI [/] num 180) in
      let d := assign d "stationPressure" (element obs 6 [*] num 100) in
      let d := assign d "airTemperature" (element obs 7 [+] num 273.15) in
      let d := assign d "relativeHumidity" (element obs 8 [/] num 100) in
      let d := assign d "rainAccumulated" (element obs 12 [/] num 1000) in
      let d := assign d "lightningStrikeAvgDistance"
                 (element obs 14 [*] num 1000) in
      let d := assign d "localDailyRainAccumulation"
                 (element obs 18 [/] num 1000) in
      let d := assign d "rainAccumulatedFinal"
                 (element obs 19 [/] num 1000) in
      let d := assign d "localDailyRainAccumulationFinal"
                 (element obs 20 [/] num 1000) in
      Some (Obj d)
  end.

(** What [processTempestObservation] does to the cache, given the first
    observation array of the message; the deltas it sends and the wind
    values it publishes are left out.  [None] when it throws. *)
Definition processTempestObservation (st : PluginState.t) (obs : list R)
    (now : Z) : option PluginState.t :=
  match tempestWeatherApiData obs with
  | None => None
  | Some weatherApiData =>
      Some (cacheObservationData st "tempest" weatherApiData now)
  end.

Definition cacheForecastData (st : PluginState.t) (data : ForecastData.t)
  : PluginState.t :=
  PluginState.mk
    (PluginState.latestObservations st)
    (Some data)
    (PluginState.stationLocation st)
    (PluginState.currentVesselPosition st).

Definition mapPrecipitationType (precipType : value) : string :=
  match precipType with
  | Str s =>
      let l := toLowerCase s in
      if String.eqb l "rain" then "rain"
      else if String.eqb l "snow" then "snow"
      else if String.eqb l "thunderstorm" then "thunderstorm"
      else "not available"
  | Iso _ => "not available"
  | Number (Num x) =>
      if Req_dec_T x 0 then "not available"
      else if Req_dec_T x 1 then "rain"
      else if Req_dec_T x 2 then "snow"
      else if Req_dec_T x 3 then "mixed/ice"
      else "not available"
  | _ => "not available"
  end.

Definition mapPressureTendency (pressureTrend : value) : string :=
  match pressureTrend with
  | Str s =>
      if String.eqb s "falling" then "decreasing"
      else if String.eqb s "rising" then "increasing"
      else if String.eqb s "steady" then "steady"
      else "steady"
  | _ => "steady"
  end.

Definition calculateWetBulbTemperature (tempC relativeHumidity : value)
  : value :=
  if nullish tempC || nullish relativeHumidity then Undefined
  else
    let rh := relativeHumidity [/] num 100 in
    let tw :=
      tempC [*] Math_atan (num 0.151977 [*] Math_sqrt (rh [+] num 8.313659))
      [+] Math_atan (tempC [+] rh)
      [-] Math_atan (rh [-] num 1.676331)
      [+] num 0.00391838 [*] Math_pow_3_2 rh
          [*] Math_atan (num 0.023101 [*] rh)
      [-] num 4.686035 in
    tw [+] num 273.15.

(** [None]: [toISOString] throws on an invalid date. *)
Definition convertObservationToWeatherAPI (observationType : string)
    (data : value) (now : Z) : option WeatherData.t :=
  let date :=
    if ToBoolean data.["utcDate"] then Some data.["utcDate"]
    else toISOString
           (if ToBoolean data.["time"]
            then Date_of (data.["time"] [*] num 1000)
            else Some now) in
  match date with
  | None => None
  | Some date =>
  let description :=
    or_else data.["conditions"]
            (Str ("WeatherFlow " ++ observationType ++ " observation")) in
  let '(outside, wind) :=
    if String.eqb observationType "currentConditions" then
      (Some (Obj [
         ("temperature", data.["air_temperature"] [+] num 273.15);
         ("pressure",
          if ToBoolean data.["sea_level_pressure"]
          then data.["sea_level_pressure"] [*] num 100
          else data.["station_pressure"] [*] num 100);
         ("relativeHumidity", data.["relative_humidity"] [/] num 100);
         ("feelsLikeTemperature", data.["feels_like"] [+] num 273.15);
         ("dewPointTemperature", data.["dew_point"] [+] num 273.15);
         ("uvIndex", data.["uv"]);
         ("precipitationVolume", num 0);
         ("pressureTendency",
          Str (mapPressureTendency data.["pressure_trend"]));
         ("solarRadiation", data.["solar_radiation"]);
         ("airDensity", data.["air_density"]);
         ("wetBulbTemperature",
          if ToBoolean data.["wet_bulb_temperature"]
          then data.["wet_bulb_temperature"] [+] num 273.15
          else Undefined);
         ("wetBulbGlobeTemperature",
          if ToBoolean data.["wet_bulb_globe_temperature"]
          then data.["wet_bulb_globe_temperature"] [+] num 273.15
          else Undefined);
         ("deltaT", data.["delta_t"])]),
       Some (Obj [
         ("speedTrue", data.["wind_avg"]);
         ("directionTrue", data.["wind_direction"] [*] num PI [/] num 180);
         ("gust", data.["wind_gust"]);
         ("averageSpeed", data.["wind_avg"]);
         ("directionCardinal", data.["wind_direction_cardinal"])]))
    else if String.eqb observationType "tempest" then
      (Some (Obj [
         ("temperature", data.["airTemperature"]);
         ("pressure", data.["stationPressure"]);
         ("relativeHumidity", data.["relativeHumidity"]);
         ("uvIndex", data.["uvIndex"]);
         ("precipitationVolume", data.["rainAccumulated"]);
         ("precipitationType",
          Str (mapPrecipitationType data.["precipitationType"]));
         ("solarRadiation", data.["solarRadiation"]);
         ("illuminance", data.["illuminance"])]),
       Some (Obj [
         ("speedTrue", data.["windAvg"]);
         ("directionTrue", data.["windDirection"]);
         ("gust", data.["windGust"]);
         ("averageSpeed", data.["windAvg"])]))
    else (None, None) in
  let '(outside, wind) :=
    if String.eqb observationType "rapidWind" then
      (outside,
       Some (Obj [
         ("speedTrue", data.["windSpeed"]);
         ("directionTrue", data.["windDirection"])]))
    else if String.eqb observationType "air" then
      (Some (Obj [
         ("temperature", data.["airTemperature"]);
         ("pressure", data.["stationPressure"]);
         ("relativeHumidity", data.["relativeHumidity"])]),
       wind)
    else (outside, wind) in
  Some (WeatherData.mk date "observation" description outside wind None)
  end.

(** [None]: the conversion throws, on a [null] entry or on an entry with
    neither [datetime] nor a usable [time]. *)
Definition convertForecastToWeatherAPI (forecast : value)
    (type : WeatherForecastType.t) : option WeatherData.t :=
  if nullish forecast then None
  else
  let date :=
    if ToBoolean forecast.["datetime"] then Some forecast.["datetime"]
    else toISOString (Date_of (forecast.["time"] [*] num 1000)) in
  match date with
  | None => None
  | Some date =>
  let description :=
    or_else forecast.["conditions"]
            (Str ("WeatherFlow " ++ WeatherForecastType.text type
                  ++ " forecast")) in
  let '(outside, wind, sun) :=
    match type with
    | WeatherForecastType.point =>
        (Some (Obj [
           ("temperature",
            if negb (nullish forecast.["air_temperature"])
            then forecast.["air_temperature"] [+] num 273.15
            else Undefined);
           ("feelsLikeTemperature",
            if negb (nullish forecast.["feels_like"])
            then forecast.["feels_like"] [+] num 273.15
            else Undefined);
           ("relativeHumidity",
            if ToBoolean forecast.["relative_humidity"]
            then forecast.["relative_humidity"] [/] num 100
            else Undefined);
           ("precipitationVolume",
            if ToBoolean forecast.["precip"]
            then forecast.["precip"] [/] num 1000
            else Undefined);
           ("pressure",
            if ToBoolean forecast.["sea_level_pressure"]
            then forecast.["sea_level_pressure"] [*] num 100
            else if ToBoolean forecast.["station_pressure"]
            then forecast.["station_pressure"] [*] num 100
            else Undefined);
           ("uvIndex", forecast.["uv"]);
           ("wetBulbTemperature",
            calculateWetBulbTemperature forecast.["air_temperature"]
                                        forecast.["relative_humidity"]);
           ("precipitationProbability",
            if ToBoolean forecast.["precip_probability"]
            then forecast.["precip_probability"] [/] num 100
            else Undefined)]),
         Some (Obj [
           ("speedTrue", forecast.["wind_avg"]);
           ("directionTrue",
            if ToBoolean forecast.["wind_direction"]
            then forecast.["wind_direction"] [*] num (PI / 180)
            else Undefined);
           ("gust", forecast.["wind_gust"]);
           ("averageSpeed", forecast.["wind_avg"])]),
         None)
    | WeatherForecastType.daily =>
        (Some (Obj [
           ("maxTemperature",
            if ToBoolean forecast.["air_temp_high"]
            then forecast.["air_temp_high"] [+] num 273.15
            else Undefined);
           ("minTemperature",
            if ToBoolean forecast.["air_temp_low"]
            then forecast.["air_temp_low"] [+] num 273.15
            else Undefined);
           ("precipitationType",
            Str (mapPrecipitationType forecast.["precip_type"]));
           ("precipitationProbability",
            if ToBoolean forecast.["precip_probability"]
            then forecast.["precip_probability"] [/] num 100
            else Undefined)]),
         Some (Obj [
           ("speedTrue", forecast.["wind_avg"]);
           ("directionTrue",
            if ToBoolean forecast.["wind_direction"]
            then forecast.["wind_direction"] [*] num (PI / 180)
            else Undefined);
           ("averageSpeed", forecast.["wind_avg"])]),
         if ToBoolean forecast.["sunrise_iso"]
            && ToBoolean forecast.["sunset_iso"]
         then Some (Obj [("sunrise", forecast.["sunrise_iso"]);
                         ("sunset", forecast.["sunset_iso"])])
         else None)
    end in
  Some (WeatherData.mk date (WeatherForecastType.text type) description
                       outside wind sun)
  end.

(** The vessel position if known, else the configured location, else
    the origin. *)
Definition getCurrentVesselPosition (st : PluginState.t)
  : option Position.t :=
  PluginState.currentVesselPosition st.

Definition getStationLocation (st : PluginState.t) (now : Z)
  : Position.t :=
  match getCurrentVesselPosition st with
  | Some vesselPosition => vesselPosition
  | None =>
      match PluginState.stationLocation st with
      | Some location => location
      | None => Position.mk 0 0 (Some now)
      end
  end.

(** Haversine, on a sphere of radius 6371000 m. *)
Definition calculateDistance (pos1 pos2 : Position.t) : R :=
  let R := 6371000 in
  let phi1 := (Position.latitude pos1 * PI) / 180 in
  let phi2 := (Position.latitude pos2 * PI) / 180 in
  let dphi :=
    ((Position.latitude pos2 - Position.latitude pos1) * PI) / 180 in
  let dlambda :=
    ((Position.longitude pos2 - Position.longitude pos1) * PI) / 180 in
  let a :=
    sin (dphi / 2) * sin (dphi / 2)
    + cos phi1 * cos phi2 * sin (dlambda / 2) * sin (dlambda / 2) in
  let c := 2 * atan2 (sqrt a) (sqrt (1 - a)) in
  R * c.

(** [options?.maxCount && arr.length > options.maxCount] *)
Definition exceeds_maxCount {A : Type} (options : option WeatherReqParams.t)
    (arr : list A) : option Z :=
  match options with
  | Some o =>
      match WeatherReqParams.maxCount o with
      | Some n =>
          if negb (n =? 0)%Z && (n <? Z.of_nat (List.length arr))%Z
          then Some n else None
      | None => None
      end
  | None => None
  end.

(** [options?.startDate], when truthy *)
Definition given_startDate (options : option WeatherReqParams.t)
  : option value :=
  match options with
  | Some o =>
      match WeatherReqParams.startDate o with
      | Some d => if ToBoolean d then Some d else None
      | None => None
      end
  | None => None
  end.

(** The loop of [getObservations]; [None] when a conversion throws. *)
Fixpoint observations_of (entries : list (string * value)) (now : Z)
  : option (list WeatherData.t) :=
  match entries with
  | [] => Some []
  | (type, data) :: rest =>
      if ToBoolean data && ToBoolean data.["timestamp"] then
        match convertObservationToWeatherAPI type data now with
        | Some weatherData =>
            option_map (cons weatherData) (observations_of rest now)
        | None => None
        end
      else observations_of rest now
  end.

(** [None]: the returned promise is rejected. *)
Definition getObservations (_position : Position.t)
    (options : option WeatherReqParams.t) (st : PluginState.t) (now : Z)
  : option (list WeatherData.t) :=
  match observations_of (PluginState.latestObservations st) now with
  | None => None
  | Some observations =>
      match exceeds_maxCount options observations with
      | Some n => Some (slice0 observations n)
      | None => Some observations
      end
  end.

(** The [for] loops of [getForecasts], inside the [try]: the entries
    converted so far, and whether a conversion threw. *)
Fixpoint forecasts_of (entries : list value)
    (type : WeatherForecastType.t) (forecasts : list WeatherData.t)
  : list WeatherData.t * bool :=
  match entries with
  | [] => (forecasts, false)
  | forecast :: rest =>
      match convertForecastToWeatherAPI forecast type with
      | Some weatherData =>
          forecasts_of rest type (forecasts ++ [weatherData])%list
      | None => (forecasts, true)
      end
  end.

(** The entries the requested kind selects from the cached bundle. *)
Definition selected_entries (data : ForecastData.t)
    (type : WeatherForecastType.t) : list value :=
  match ForecastData.forecast data with
  | None => []
  | Some f =>
      match type with
      | WeatherForecastType.point =>
          match ForecastData.hourly f with
          | Some hourly => firstn 72 hourly
          | None => []
          end
      | WeatherForecastType.daily =>
          match ForecastData.daily f with
          | Some daily => firstn 10 daily
          | None => []
          end
      end
  end.

(** [getForecasts] past the distance gate. *)
Definition forecasts_from_cache (type : WeatherForecastType.t)
    (options : option WeatherReqParams.t) (st : PluginState.t)
  : list WeatherData.t :=
  match PluginState.latestForecastData st with
  | None => []
  | Some data =>
      let '(forecasts, thrown) :=
        forecasts_of (selected_entries data type) type [] in
      if thrown then forecasts
      else
        match given_startDate options with
        | Some startDate =>
            let startTime := Date_of startDate in
            filter (fun f => time_ge (Date_of (WeatherData.date f))
                                     startTime)
                   forecasts
        | None =>
            match exceeds_maxCount options forecasts with
            | Some n => slice0 forecasts n
            | None => forecasts
            end
        end
  end.

Definition getForecasts (position : Position.t)
    (type : WeatherForecastType.t) (options : option WeatherReqParams.t)
    (st : PluginState.t) (now : Z) : list WeatherData.t :=
  let stationPos := getStationLocation st now in
  let distance := calculateDistance position stationPos in
  let maxDistance := 100000 in
  if Rgt_dec distance maxDistance then []
  else forecasts_from_cache type options st.

(** The text of the lightning warning. *)
Definition lightning_details (lightningData : value) : string :=
  "Lightning activity detected. "
  ++ ToString lightningData.["lightningStrikeCount"]
  ++ " strikes recorded. Last strike at average distance of "
  ++ ToString (Math_round lightningData.["lightningStrikeAvgDistance"])
  ++ "m.".

(** [None]: the returned promise is rejected. *)
Definition getWarnings (_position : Position.t) (st : PluginState.t)
    (now : Z) : option (list WeatherWarning.t) :=
  match Map_get (PluginState.latestObservations st) "tempest" with
  | None => Some []
  | Some lightningData =>
      if ToBoolean lightningData
         && gt lightningData.["lightningStrikeCount"] 0 then
        let lastStrikeTime :=
          Date_of (lightningData.["timeEpoch"] [*] num 1000) in
        let warningEndTime :=
          option_map (fun t => (t + 30 * 60 * 1000)%Z) lastStrikeTime in
        if date_lt (Some now) warningEndTime then
          match toISOString lastStrikeTime,
                toISOString warningEndTime with
          | Some startTime, Some endTime =>
              Some [WeatherWarning.mk startTime endTime
                      (lightning_details lightningData)
                      "WeatherFlow Station" "lightning"]
          | _, _ => None
          end
        else Some []
      else Some []
  end.

End WithRuntime.

End Plugin.

(** ** The haversine formula, as the specification names it *)

(** The haversine of an angle, and the great-circle distance it gives on a
    sphere of radius 6371000 m: [2 r asin (sqrt h)], where [h] is the
    haversine of the central angle between the two positions. *)
Definition hav (theta : R) : R := sin (theta / 2) * sin (theta / 2).

Definition haversine_distance (pos1 pos2 : Position.t) : R :=
  let phi1 := Position.latitude pos1 * PI / 180 in
  let phi2 := Position.latitude pos2 * PI / 180 in
  let lambda1 := Position.longitude pos1 * PI / 180 in
  let lambda2 := Position.longitude pos2 * PI / 180 in
  2 * 6371000
  * asin (sqrt (hav (phi2 - phi1)
                + cos phi1 * cos phi2 * hav (lambda2 - lambda1))).

(** ** Sample inputs of the weather provider *)

Module Samples.
Import JS Plugin.
Local Open Scope string_scope.

(** A stand-in for the run-time library, for the samples below: it
    recognises no text.  None of the samples hands it any. *)
Definition bareRuntime : Runtime := {|
  parseDate := fun _ => None;
  StringToNumber := fun _ => NaN;
  NumberToString := fun _ => "";
  isoText := fun _ => ""
|}.

Definition origin : Position.t := Position.mk 0 0 None.

(** The point of the equator [d] metres east of the origin. *)
Definition east_of_origin (d : R) : Position.t :=
  Position.mk 0 (d * 180 / (6371000 * PI)) None.

(** A cached bundle of two hourly entries, at 1000 s and 2000 s. *)
Definition two_hours : ForecastData.t :=
  ForecastData.mk None
    (Some (ForecastData.mkForecast
             (Some [Obj [("time", num 1000)]; Obj [("time", num 2000)]])
             None)).

Definition with_two_hours : PluginState.t :=
  cacheForecastData PluginState.init two_hours.

(** Both options given: everything from the epoch on, one entry at most. *)
Definition from_epoch_max_one : WeatherReqParams.t :=
  WeatherReqParams.mk (Some 1%Z) (Some (Iso 0)).

(** A Tempest observation array at epoch 1700000000 s: three strikes, at
    12 km on average. *)
Definition strikes : list R :=
  [1700000000; 0.5; 2.1; 3.4; 180; 3; 1013.2; 22.5; 55; 1000; 3; 200; 0.5;
   0; 12; 3; 3.8; 1; 0; 0; 0; 0].

(** The cache after that observation was processed, half a second later. *)
Definition after_strikes : PluginState.t :=
  match processTempestObservation (rt := bareRuntime) PluginState.init
                                  strikes 1700000000500 with
  | Some st => st
  | None => PluginState.init
  end.

End Samples.

(** ** Source labels: [formatSourceName] and [getVesselBasedSource]

    The two functions exist twice, in the class and in the plugin; the
    copies differ in the default prefix only.  Strings are strings of ASCII
    characters. *)

Module SourceName.
Import JS.
Local Open Scope string_scope.

(** A character of [[a-z0-9]]. *)
Definition plain (c : ascii) : bool := is_lower c || is_digit c.

Definition is_dash (c : ascii) : bool := Ascii.eqb c "-".

(** [.replace (/[^a-z0-9]/g, '-')] *)
Fixpoint dash_others (s : string) : string :=
  match s with
  | EmptyString => EmptyString
  | String c rest =>
      String (if plain c then c else "-"%char) (dash_others rest)
  end.

(** [.replace (/-+/g, '-')] *)
Fixpoint squeeze (s : string) : string :=
  match s with
  | EmptyString => EmptyString
  | String c rest =>
      if is_dash c then
        match rest with
        | String c' _ =>
            if is_dash c' then squeeze rest else String c (squeeze rest)
        | EmptyString => String c EmptyString
        end
      else String c (squeeze rest)
  end.

(** [.replace (/^-+|-+$/g, '')]: the leading run, then the trailing run. *)
Fixpoint strip_leading (s : string) : string :=
  match s with
  | EmptyString => EmptyString
  | String c rest => if is_dash c then strip_leading rest else s
  end.

Fixpoint strip_trailing (s : string) : string :=
  match s with
  | EmptyString => EmptyString
  | String c rest =>
      match strip_trailing rest with
      | EmptyString => if is_dash c then EmptyString else String c EmptyString
      | r => String c r
      end
  end.

Definition formatSourceName (name : string) : string :=
  strip_trailing (strip_leading (squeeze (dash_others (toLowerCase name)))).

(** White space, as [trim] removes it. *)
Definition is_space (c : ascii) : bool :=
  ((9 <=? nat_of_ascii c)%nat && (nat_of_ascii c <=? 13)%nat)
  || (nat_of_ascii c =? 32)%nat.

(** [name.trim ()] is the empty string. *)
Fixpoint blank (s : string) : bool :=
  match s with
  | EmptyString => true
  | String c rest => is_space c && blank rest
  end.

(** [name && name.trim () ? name : fallback] *)
Definition prefix_or (name : option string) (fallback : string) : string :=
  match name with
  | Some n => if negb (blank n) then n else fallback
  | None => fallback
  end.

(** The method of the class: the default prefix is "zennora". *)
Definition getVesselBasedSource_class (vesselName : option string)
    (suffix : string) : string :=
  let vesselPrefix := prefix_or vesselName "zennora" in
  let formattedName := formatSourceName vesselPrefix in
  formattedName ++ "-weatherflow-" ++ suffix.

(** The function of the plugin: the default prefix is "signalk". *)
Definition getVesselBasedSource (configuredPrefix : option string)
    (suffix : string) : string :=
  let vesselPrefix := prefix_or configuredPrefix "signalk" in
  let formattedName := formatSourceName vesselPrefix in
  formattedName ++ "-weatherflow-" ++ suffix.

(** The properties of a formatted name, as a test: only [[a-z0-9-]], no
    dash at either end, no two dashes in a row. *)
Fixpoint only_plain_or_dash (s : string) : bool :=
  match s with
  | EmptyString => true
  | String c rest => (plain c || is_dash c) && only_plain_or_dash rest
  end.

Fixpoint no_double_dash (s : string) : bool :=
  match s with
  | EmptyString => true
  | String c rest =>
      match rest with
      | String c' _ => negb (is_dash c && is_dash c') && no_double_dash rest
      | EmptyString => true
      end
  end.

Definition no_leading_dash (s : string) : bool :=
  match s with
  | String c _ => negb (is_dash c)
  | EmptyString => true
  end.

Fixpoint no_trailing_dash (s : string) : bool :=
  match s with
  | EmptyString => true
  | String c EmptyString => negb (is_dash c)
  | String _ rest => no_trailing_dash rest
  end.

(** No character of the string is a letter or a digit. *)
Fixpoint no_alnum (s : string) : bool :=
  match s with
  | EmptyString => true
  | String c rest => negb (plain (lower c)) && no_alnum rest
  end.

Definition well_formed (s : string) : bool :=
  only_plain_or_dash s && no_double_dash s
  && no_leading_dash s && no_trailing_dash s.

End SourceName.

(** ** The deltas handed to the host: [SignalKDelta] of types.ts *)

Module SignalKValue.
Record t := mk {
  path : string;
  value : JS.value
}.
End SignalKValue.

Module SignalKMeta.
Record t := mk {
  path : string;
  units : string
}.
End SignalKMeta.

Module SignalKUpdate.
Record t := mk {
  source : option string;
  timestamp : JS.value;
  values : list SignalKValue.t;
  meta : option (list SignalKMeta.t)
}.
End SignalKUpdate.

Module SignalKDelta.
Record t := mk {
  context : string;
  updates : list SignalKUpdate.t
}.

(** A delta with one value and no meta, the shape most of the code builds. *)
Definition single (source : string) (timestamp : JS.value) (path : string)
    (value : JS.value) : t :=
  mk "vessels.self"
     [SignalKUpdate.mk (Some source) timestamp
                       [SignalKValue.mk path value] None].

(** The paths and the values a list of deltas carries, in order. *)
Definition entries (deltas : list t) : list (string * JS.value) :=
  flat_map
    (fun d =>
       flat_map
         (fun u => map (fun v => (SignalKValue.path v, SignalKValue.value v))
                       (SignalKUpdate.values u))
         (updates d))
    deltas.
End SignalKDelta.

(** ** [createWindDeltas] of the class

    The [timestamp] and [source] fields of the derived values, which the
    record above leaves out, are passed beside it. *)

Module WindDeltas.
Local Open Scope string_scope.

Definition windPaths (d : DerivedWindValues.t) : list (string * R) :=
  [("environment.wind.speedApparent", DerivedWindValues.speedApparent d);
   ("environment.wind.angleApparent", DerivedWindValues.angleApparent d);
   ("environment.wind.angleTrueGround", DerivedWindValues.angleTrueGround d);
   ("environment.wind.angleTrueWater", DerivedWindValues.angleTrueWater d);
   ("environment.wind.directionTrue", DerivedWindValues.directionTrue d);
   ("environment.wind.directionMagnetic",
    DerivedWindValues.directionMagnetic d);
   ("environment.wind.speedTrue", DerivedWindValues.speedTrue d)].

Definition tempestPaths (d : DerivedWindValues.t)
  : list (string * option R) :=
  [("environment.outside.tempest.observations.windChill",
    DerivedWindValues.windChill d);
   ("environment.outside.tempest.observations.heatIndex",
    DerivedWindValues.heatIndex d);
   ("environment.outside.tempest.observations.feelsLike",
    Some (DerivedWindValues.feelsLike d))].

Definition createWindDeltas (derivedValues : DerivedWindValues.t)
    (timestamp : JS.value) (source : string) : list SignalKDelta.t :=
  let deltas :=
    map (fun '(path, x) =>
           SignalKDelta.single source timestamp path (JS.num x))
        (windPaths derivedValues) in
  (deltas
   ++ flat_map
        (fun '(path, o) =>
           match o with
           | Some x => [SignalKDelta.single source timestamp path (JS.num x)]
           | None => []
           end)
        (tempestPaths derivedValues))%list.

End WindDeltas.

(** ** More of the plugin: deltas, the other observation caches, positions *)

Module Ingest.
Import JS Plugin.
Local Open Scope string_scope.

(** [str.replace (/_([a-z])/g, (_, letter) => letter.toUpperCase ())]: the
    converter of [processForecastData], which leaves a digit after an
    underscore alone. *)
Fixpoint toCamelCase (str : string) : string :=
  match str with
  | EmptyString => EmptyString
  | String c rest =>
      if Ascii.eqb c "_" then
        match rest with
        | String letter rest' =>
            if is_lower letter
            then String (upper letter) (toCamelCase rest')
            else String c (toCamelCase rest)
        | EmptyString => String c EmptyString
        end
      else String c (toCamelCase rest)
  end.

(** A string has an underscore somewhere; an underscore is followed by a
    digit somewhere. *)
Fixpoint has_underscore (s : string) : bool :=
  match s with
  | EmptyString => false
  | String c rest => Ascii.eqb c "_" || has_underscore rest
  end.

Fixpoint underscore_digit (s : string) : bool :=
  match s with
  | EmptyString => false
  | String c rest =>
      match rest with
      | String c' _ =>
          (Ascii.eqb c "_" && is_digit c') || underscore_digit rest
      | EmptyString => false
      end
  end.

(** The first character is one that [snakeToCamel] takes after an
    underscore. *)
Definition starts_alnum (s : string) : bool :=
  match s with
  | String c _ => is_lower c || is_digit c
  | EmptyString => false
  end.

(** Every label of the converter that has a unit, and those among them
    whose value the converter changes. *)
Definition labelledKeys : list string :=
  (temperatureKeys ++ pressureKeys ++ directionKeys ++ distanceKeys
   ++ minuteKeys ++ rainKeys ++ humidityKeys ++ speedKeys ++ secondKeys
   ++ illuminanceKeys ++ radiationKeys ++ batteryKeys ++ densityKeys
   ++ deltaTKeys)%list.

Definition scaledKeys : list string :=
  (temperatureKeys ++ pressureKeys ++ directionKeys ++ distanceKeys
   ++ minuteKeys ++ rainKeys ++ humidityKeys)%list.

Section WithRuntime.
Context {rt : Runtime}.

Local Infix "[+]" := plus (at level 50, left associativity).
Local Infix "[*]" := times (at level 40, left associativity).
Local Infix "[/]" := divide (at level 40, left associativity).

(** The delta [sendSignalKDelta] hands to the host. *)
Definition sendSignalKDelta (basePath key : string) (value : JS.value)
    (source : string) (timestamp : JS.value) : SignalKDelta.t :=
  let converted := convertToSignalKUnits key value in
  let camelKey := snakeToCamel key in
  let path := basePath ++ "." ++ camelKey in
  SignalKDelta.mk "vessels.self"
    [SignalKUpdate.mk (Some source) timestamp
       [SignalKValue.mk path (ConvertedValue.value converted)]
       (match ConvertedValue.units converted with
        | Some units =>
            if negb (String.eqb units "")
            then Some [SignalKMeta.mk path units]
            else None
        | None => None
        end)].

(** [Object.entries (record).forEach], skipping [utcDate]. *)
Definition publish_fields (basePath : string)
    (fields : list (string * value)) (source : string) (timestamp : value)
  : list SignalKDelta.t :=
  map (fun '(key, v) => sendSignalKDelta basePath key v source timestamp)
      (filter (fun '(key, _) => negb (String.eqb key "utcDate")) fields).

(** The deltas of a Tempest observation: one per field, stamped with the
    observation's own date.  [None] when [toISOString] throws. *)
Definition tempestDeltas (obs : list R) (source : string)
  : option (list SignalKDelta.t) :=
  match tempestObservationData obs with
  | None => None
  | Some observationData =>
      Some (publish_fields "environment.outside.tempest.observations"
                           observationData source
                           (lookup observationData "utcDate"))
  end.

(** The record of [processRapidWind], from [data.ob]; [None] when
    [toISOString] throws. *)
Definition rapidWindData (ob : list R) : option (list (string * value)) :=
  match toISOString (Date_of (element ob 0 [*] num 1000)) with
  | None => None
  | Some utcDate =>
      Some [("timeEpoch", element ob 0);
            ("windSpeed", element ob 1);
            ("windDirection", element ob 2);
            ("utcDate", utcDate)]
  end.

(** What [processRapidWind] does to the cache. *)
Definition processRapidWind (st : PluginState.t) (ob : list R) (now : Z)
  : option PluginState.t :=
  match rapidWindData ob with
  | None => None
  | Some windData =>
      let weatherApiData :=
        Obj (assign windData "windDirection"
                    (element ob 2 [*] num PI [/] num 180)) in
      Some (cacheObservationData st "rapidWind" weatherApiData now)
  end.

Definition rapidWindDeltas (ob : list R) (source : string)
  : option (list SignalKDelta.t) :=
  match rapidWindData ob with
  | None => None
  | Some windData =>
      Some (publish_fields "environment.outside.rapidWind" windData source
                           (lookup windData "utcDate"))
  end.

(** The record of [processAirObservation], from the first array. *)
Definition airObservationData (obs : list R)
  : option (list (string * value)) :=
  match toISOString (Date_of (element obs 0 [*] num 1000)) with
  | None => None
  | Some utcDate =>
      Some [("timeEpoch", element obs 0);
            ("stationPressure", element obs 1);
            ("airTemperature", element obs 2);
            ("relativeHumidity", element obs 3);
            ("lightningStrikeCount", element obs 4);
            ("lightningStrikeAvgDistance", element obs 5);
            ("battery", element obs 6);
            ("reportInterval", element obs 7);
            ("utcDate", utcDate)]
  end.

(** What [processAirObservation] does to the cache. *)
Definition processAirObservation (st : PluginState.t) (obs : list R)
    (now : Z) : option PluginState.t :=
  match airObservationData obs with
  | None => None
  | Some observationData =>
      let d := observationData in
      let d := assign d "stationPressure" (element obs 1 [*] num 100) in
      let d := assign d "airTemperature" (element obs 2 [+] num 273.15) in
      let d := assign d "relativeHumidity" (element obs 3 [/] num 100) in
      Some (cacheObservationData st "air" (Obj d) now)
  end.

End WithRuntime.

(** *** Positions *)

(** The value of a [navigation.position] update: the two coordinates, each
    possibly absent. *)
Module PositionValue.
Record t := mk {
  latitude : option R;
  longitude : option R
}.
End PositionValue.

Module ValueUpdate.
Record t := mk {
  path : string;
  value : option PositionValue.t
}.
End ValueUpdate.

Module Update.
Record t := mk {
  timestamp : JS.value;
  values : option (list ValueUpdate.t)
}.
End Update.

Module Delta.
Record t := mk {
  updates : option (list Update.t)
}.
End Delta.

(** A value update that [handlePositionData] passes over. *)
Definition passed_over (v : ValueUpdate.t) : Prop :=
  ValueUpdate.path v <> "navigation.position"
  \/ match ValueUpdate.value v with
     | None => True
     | Some p =>
         PositionValue.latitude p = None \/ PositionValue.longitude p = None
     end.

Section WithRuntime.
Context {rt : Runtime}.

(** The body of the inner [forEach] of [handlePositionData]. *)
Definition handlePositionValue (st : PluginState.t) (update : Update.t)
    (valueUpdate : ValueUpdate.t) (now : Z) : PluginState.t :=
  if String.eqb (ValueUpdate.path valueUpdate) "navigation.position" then
    match ValueUpdate.value valueUpdate with
    | Some position =>
        match PositionValue.latitude position,
              PositionValue.longitude position with
        | Some latitude, Some longitude =>
            PluginState.mk
              (PluginState.latestObservations st)
              (PluginState.latestForecastData st)
              (PluginState.stationLocation st)
              (Some (Position.mk latitude longitude
                       (if ToBoolean (Update.timestamp update)
                        then Date_of (Update.timestamp update)
                        else Some now)))
        | _, _ => st
        end
    | None => st
    end
  else st.

Definition handlePositionUpdate (st : PluginState.t) (update : Update.t)
    (now : Z) : PluginState.t :=
  match Update.values update with
  | None => st
  | Some values =>
      fold_left (fun s v => handlePositionValue s update v now) values st
  end.

Definition handlePositionData (st : PluginState.t) (delta : Delta.t)
    (now : Z) : PluginState.t :=
  match Delta.updates delta with
  | None => st
  | Some updates =>
      fold_left (fun s u => handlePositionUpdate s u now) updates st
  end.

End WithRuntime.

(** The station location [plugin.start] takes from the options:
    [options.stationLatitude || 0], and the same for the longitude; the
    location is set when both are [!== 0], which on numbers is
    [JS.truthy]. *)
Definition start_stationLocation (st : PluginState.t)
    (stationLatitude stationLongitude : option R) (now : Z)
  : PluginState.t :=
  let latitude :=
    match stationLatitude with Some x => JS.or x 0 | None => 0 end in
  let longitude :=
    match stationLongitude with Some x => JS.or x 0 | None => 0 end in
  if JS.truthy latitude && JS.truthy longitude then
    PluginState.mk
      (PluginState.latestObservations st)
      (PluginState.latestForecastData st)
      (Some (Position.mk latitude longitude (Some now)))
      (PluginState.currentVesselPosition st)
  else st.

End Ingest.
(** * Properties *)

(** ** Angle normalisation *)

Section Normalisation.
Import WindCalculations.

Lemma nat_above (r : R) : exists n : nat, r <= INR n.
Proof.
  destruct (archimed r) as [Hup _].
  destruct (Z_le_gt_dec 0 (up r)) as [Hz | Hz].
  - exists (Z.to_nat (up r)).
    rewrite INR_IZR_INZ, Z2Nat.id by assumption. lra.
  - exists O. simpl.
    assert (IZR (up r) <= IZR 0) by (apply IZR_le; lia). lra.
Qed.

Lemma while_above_spec (n : nat) :
  forall a, a <= PI + 2 * PI * INR n ->
    exists a', while_above (S n) a = Some a' /\ a' <= PI /\
               (a <= PI -> a' = a) /\ (PI < a -> - PI < a').
Proof.
  pose proof PI_RGT_0 as Hpi.
  induction n as [| n IH]; intros a Ha.
  - simpl in Ha. exists a. simpl.
    destruct (Rgt_dec a PI); [lra |]. repeat split; trivial; lra.
  - rewrite S_INR in Ha.
    change (while_above (S (S n)) a)
      with (if Rgt_dec a PI then while_above (S n) (a - 2 * PI) else Some a).
    destruct (Rgt_dec a PI) as [Hgt | Hle].
    + destruct (IH (a - 2 * PI)) as (a' & Hw & Hb & Hsame & Hlow); [lra |].
      exists a'. repeat split; trivial; lra.
    + exists a. repeat split; trivial; lra.
Qed.

Lemma while_below_spec (n : nat) :
  forall a, - PI - 2 * PI * INR n <= a ->
    exists a', while_below (S n) a = Some a' /\ - PI <= a' /\
               (- PI <= a -> a' = a) /\ (a < - PI -> a' < PI).
Proof.
  pose proof PI_RGT_0 as Hpi.
  induction n as [| n IH]; intros a Ha.
  - simpl in Ha. exists a. simpl.
    destruct (Rlt_dec a (- PI)); [lra |]. repeat split; trivial; lra.
  - rewrite S_INR in Ha.
    change (while_below (S (S n)) a)
      with (if Rlt_dec a (- PI) then while_below (S n) (a + 2 * PI)
            else Some a).
    destruct (Rlt_dec a (- PI)) as [Hlt | Hge].
    + destruct (IH (a + 2 * PI)) as (a' & Hw & Hb & Hsame & Hup); [lra |].
      exists a'. repeat split; trivial; lra.
    + exists a. repeat split; trivial; lra.
Qed.

Lemma while_above_mono (n m : nat) (a r : R) :
  while_above n a = Some r -> (n <= m)%nat -> while_above m a = Some r.
Proof.
  revert m a. induction n as [| n IH]; intros m a H Hle; [discriminate |].
  destruct m as [| m]; [lia |]. simpl in *.
  destruct (Rgt_dec a PI); [apply IH; [assumption | lia] | assumption].
Qed.

Lemma while_below_mono (n m : nat) (a r : R) :
  while_below n a = Some r -> (n <= m)%nat -> while_below m a = Some r.
Proof.
  revert m a. induction n as [| n IH]; intros m a H Hle; [discriminate |].
  destruct m as [| m]; [lia |]. simpl in *.
  destruct (Rlt_dec a (- PI)); [apply IH; [assumption | lia] | assumption].
Qed.

Lemma normalizeAngle_mono (n m : nat) (a r : R) :
  normalizeAngle n a = Some r -> (n <= m)%nat -> normalizeAngle m a = Some r.
Proof.
  unfold normalizeAngle. intros H Hle.
  destruct (while_above n a) as [b |] eqn:Ha; [| discriminate].
  rewrite (while_above_mono _ _ _ _ Ha Hle).
  now apply while_below_mono with n.
Qed.

(** Enough fuel always exists, and the result is in [[-PI, PI]]. *)
Lemma normalizeAngle_total (a : R) :
  exists fuel r, normalizeAngle fuel a = Some r /\ - PI <= r <= PI.
Proof.
  pose proof PI_RGT_0 as Hpi.
  destruct (nat_above ((a - PI) / (2 * PI))) as [n Hn].
  assert (Ha : a <= PI + 2 * PI * INR n).
  { apply Rmult_le_compat_l with (r := 2 * PI) in Hn; [| lra].
    replace (2 * PI * ((a - PI) / (2 * PI))) with (a - PI) in Hn
      by (field; lra).
    lra. }
  destruct (while_above_spec n a Ha) as (b & Hb & Hb1 & Hb2 & Hb3).
  destruct (nat_above ((- PI - b) / (2 * PI))) as [m Hm].
  assert (Hb' : - PI - 2 * PI * INR m <= b).
  { apply Rmult_le_compat_l with (r := 2 * PI) in Hm; [| lra].
    replace (2 * PI * ((- PI - b) / (2 * PI))) with (- PI - b) in Hm
      by (field; lra).
    lra. }
  destruct (while_below_spec m b Hb') as (c & Hc & Hc1 & Hc2 & Hc3).
  exists (S (Nat.max n m)), c. split.
  - unfold normalizeAngle.
    rewrite (while_above_mono (S n) _ a b Hb) by lia.
    apply (while_below_mono (S m)); [assumption | lia].
  - split; [assumption |].
    destruct (Rle_dec (- PI) b) as [H1 | H1].
    + rewrite (Hc2 H1). assumption.
    + apply Rlt_le, Hc3. lra.
Qed.

Lemma normalizeAngle_range (fuel : nat) (a r : R) :
  normalizeAngle fuel a = Some r -> - PI <= r <= PI.
Proof.
  intros H. destruct (normalizeAngle_total a) as (f & r' & Hf & Hr).
  assert (r = r') as ->; [| assumption].
  apply (normalizeAngle_mono _ (Nat.max fuel f)) in H; [| lia].
  apply (normalizeAngle_mono _ (Nat.max fuel f)) in Hf; [| lia].
  congruence.
Qed.

End Normalisation.

(** ** Bearings *)

Section Bearings.
Import WindCalculations.

Lemma atan_nonpos (x : R) : x <= 0 -> atan x <= 0.
Proof.
  intros [H | ->]; [| rewrite atan_0; lra].
  apply Rlt_le. rewrite <- atan_0. now apply atan_increasing.
Qed.

Lemma atan_pos (x : R) : 0 < x -> 0 < atan x.
Proof. intros H. rewrite <- atan_0. now apply atan_increasing. Qed.

Lemma div_neg_nonneg (y x : R) : x < 0 -> 0 <= y -> y / x <= 0.
Proof.
  intros Hx Hy. unfold Rdiv.
  assert (/ x < 0) by now apply Rinv_lt_0_compat.
  nra.
Qed.

Lemma div_neg_neg (y x : R) : x < 0 -> y < 0 -> 0 < y / x.
Proof.
  intros Hx Hy. unfold Rdiv.
  assert (/ x < 0) by now apply Rinv_lt_0_compat.
  nra.
Qed.

(** [Math.atan2] lands in [(-PI, PI]]. *)
Lemma atan2_range (y x : R) : - PI < JS.atan2 y x <= PI.
Proof.
  pose proof PI_RGT_0 as Hpi. unfold JS.atan2.
  destruct (Rlt_dec 0 x) as [Hx | Hx].
  - pose proof (atan_bound (y / x)). lra.
  - destruct (Rlt_dec x 0) as [Hx' | Hx'].
    + pose proof (atan_bound (y / x)) as Hb.
      destruct (Rle_dec 0 y) as [Hy | Hy].
      * pose proof (atan_nonpos _ (div_neg_nonneg y x Hx' Hy)). lra.
      * assert (0 < atan (y / x)) by (apply atan_pos, div_neg_neg; lra).
        lra.
    + destruct (Rlt_dec 0 y); [lra |].
      destruct (Rlt_dec y 0); lra.
Qed.

Lemma toCompassBearing_range (r : R) :
  - PI < r <= PI -> 0 <= toCompassBearing r < 2 * PI.
Proof.
  intros Hr. unfold toCompassBearing. destruct (Rlt_dec r 0); lra.
Qed.

Lemma compass_atan2_range (y x : R) :
  0 <= toCompassBearing (JS.atan2 y x) < 2 * PI.
Proof. apply toCompassBearing_range, atan2_range. Qed.

End Bearings.

(** ** The derived-wind computation, field by field *)

Section Derived.
Import WindCalculations.

Variable w : WindCalculations.t.
Variable a : ApparentWindData.t.

Lemma calculateDerivedWindValues_fields (fuel : nat) (d : DerivedWindValues.t) :
  calculateDerivedWindValues fuel w a = Some d -> fields_of w a fuel d.
Proof.
  unfold calculateDerivedWindValues.
  fold (effectiveHeadingTrueRad w) (effectiveHeadingMagneticRad w)
    (effectiveSOG w).
  fold (Wx w a) (Wy w a) (WxMag w a) (WyMag w a).
  destruct (normalizeAngle fuel (JS.or _ _)) as [aa |] eqn:E1;
    [| discriminate].
  destruct (normalizeAngle fuel
              (toCompassBearing (JS.atan2 (Wy w a) (Wx w a)) - _))
    as [ag |] eqn:E2; [| discriminate].
  destruct (normalizeAngle fuel
              (toCompassBearing (JS.atan2 (WyMag w a) (WxMag w a)) - _))
    as [aw |] eqn:E3; [| discriminate].
  intros H. injection H as <-. constructor; simpl; auto.
Qed.

(** The computation returns: the three loops stop. *)
Lemma calculateDerivedWindValues_total :
  exists d, returns w a d.
Proof.
  destruct (normalizeAngle_total
              (JS.or (ApparentWindData.windAngleRelativeRad a)
                 (ApparentWindData.apparentTrueRad a
                  - effectiveHeadingTrueRad w))) as (f1 & r1 & H1 & _).
  destruct (normalizeAngle_total
              (toCompassBearing (JS.atan2 (Wy w a) (Wx w a))
               - effectiveHeadingTrueRad w))
    as (f2 & r2 & H2 & _).
  destruct (normalizeAngle_total
              (toCompassBearing (JS.atan2 (WyMag w a) (WxMag w a))
               - effectiveHeadingMagneticRad w)) as (f3 & r3 & H3 & _).
  set (f := Nat.max f1 (Nat.max f2 f3)).
  apply (normalizeAngle_mono _ f) in H1; [| lia].
  apply (normalizeAngle_mono _ f) in H2; [| lia].
  apply (normalizeAngle_mono _ f) in H3; [| lia].
  eexists. exists f. unfold calculateDerivedWindValues.
  fold (effectiveHeadingTrueRad w) (effectiveHeadingMagneticRad w)
    (effectiveSOG w).
  fold (Wx w a) (Wy w a) (WxMag w a) (WyMag w a).
  rewrite H1, H2, H3. reflexivity.
Qed.

Lemma returns_fields (d : DerivedWindValues.t) :
  returns w a d -> exists fuel, fields_of w a fuel d.
Proof.
  intros [fuel H]. exists fuel.
  now apply calculateDerivedWindValues_fields.
Qed.

End Derived.

(** ** Polar coordinates: [atan2] undoes [(s cos b, s sin b)] *)

Section Polar.
Import WindCalculations.

Lemma atan_ratio (s c : R) :
  0 < s -> - (PI / 2) < c < PI / 2 ->
  atan ((s * sin c) / (s * cos c)) = c.
Proof.
  intros Hs Hc.
  assert (0 < cos c) by (apply cos_gt_0; lra).
  replace ((s * sin c) / (s * cos c)) with (tan c)
    by (unfold tan; field; lra).
  now apply atan_tan.
Qed.

Lemma atan2_polar (s b : R) :
  0 < s -> - PI < b <= PI -> JS.atan2 (s * sin b) (s * cos b) = b.
Proof.
  intros Hs Hb. pose proof PI_RGT_0 as Hpi. unfold JS.atan2.
  destruct (Rlt_dec (- (PI / 2)) b) as [Hlo | Hlo].
  - destruct (Rlt_dec b (PI / 2)) as [Hhi | Hhi].
    + assert (0 < cos b) by (apply cos_gt_0; lra).
      destruct (Rlt_dec 0 (s * cos b)) as [_ | N]; [| nra].
      apply atan_ratio; lra.
    + destruct (Req_dec b (PI / 2)) as [-> | Hne].
      * rewrite cos_PI2, sin_PI2.
        destruct (Rlt_dec 0 (s * 0)); [lra |].
        destruct (Rlt_dec (s * 0) 0); [lra |].
        destruct (Rlt_dec 0 (s * 1)); lra.
      * assert (cos b < 0) by (apply cos_lt_0; lra).
        assert (0 <= sin b) by (apply sin_ge_0; lra).
        destruct (Rlt_dec 0 (s * cos b)); [nra |].
        destruct (Rlt_dec (s * cos b) 0); [| nra].
        destruct (Rle_dec 0 (s * sin b)); [| nra].
        assert (Esin : sin b = - sin (b - PI))
          by (rewrite <- neg_sin; f_equal; lra).
        assert (Ecos : cos b = - cos (b - PI))
          by (rewrite <- neg_cos; f_equal; lra).
        assert (0 < cos (b - PI)) by (apply cos_gt_0; lra).
        replace ((s * sin b) / (s * cos b))
          with ((s * sin (b - PI)) / (s * cos (b - PI)))
          by (rewrite Esin, Ecos; field; lra).
        rewrite atan_ratio; lra.
  - destruct (Req_dec b (- (PI / 2))) as [-> | Hne].
    + rewrite cos_neg, sin_neg, cos_PI2, sin_PI2.
      destruct (Rlt_dec 0 (s * 0)); [lra |].
      destruct (Rlt_dec (s * 0) 0); [lra |].
      destruct (Rlt_dec 0 (s * - (1))); [lra |].
      destruct (Rlt_dec (s * - (1)) 0); lra.
    + assert (Hc : 0 < cos (b + PI)) by (apply cos_gt_0; lra).
      assert (Hs' : 0 < sin (b + PI)) by (apply sin_gt_0; lra).
      rewrite neg_cos in Hc. rewrite neg_sin in Hs'.
      destruct (Rlt_dec 0 (s * cos b)); [nra |].
      destruct (Rlt_dec (s * cos b) 0); [| nra].
      destruct (Rle_dec 0 (s * sin b)); [nra |].
      replace ((s * sin b) / (s * cos b))
        with ((s * sin (b + PI)) / (s * cos (b + PI)))
        by (rewrite neg_sin, neg_cos; field; lra).
      rewrite atan_ratio; lra.
Qed.

(** As a compass bearing the direction of [(s cos b, s sin b)] is [b]
    itself, for [b] in [[0, 2 PI)]. *)
Lemma compass_polar (s b : R) :
  0 < s -> 0 <= b < 2 * PI ->
  toCompassBearing (JS.atan2 (s * sin b) (s * cos b)) = b.
Proof.
  intros Hs Hb. pose proof PI_RGT_0 as Hpi. unfold toCompassBearing.
  destruct (Rle_dec b PI) as [Hle | Hgt].
  - rewrite atan2_polar by lra. destruct (Rlt_dec b 0); lra.
  - assert (E : JS.atan2 (s * sin b) (s * cos b) = b - 2 * PI).
    { replace (sin b) with (sin (b - 2 * PI))
        by (rewrite sin_minus, sin_2PI, cos_2PI; ring).
      replace (cos b) with (cos (b - 2 * PI))
        by (rewrite cos_minus, sin_2PI, cos_2PI; ring).
      apply atan2_polar; lra. }
    rewrite E. destruct (Rlt_dec (b - 2 * PI) 0); lra.
Qed.

Lemma polar_norm (s b : R) :
  0 <= s ->
  sqrt ((s * cos b) * (s * cos b) + (s * sin b) * (s * sin b)) = s.
Proof.
  intros Hs. pose proof (sin2_cos2 b) as H. unfold Rsqr in H.
  replace ((s * cos b) * (s * cos b) + (s * sin b) * (s * sin b))
    with (s * s) by nra.
  now apply sqrt_square.
Qed.

End Polar.

(** ** Claims about the wind calculator *)

Section WindClaims.
Import WindCalculations.

(** Two runs of the computation agree, whatever fuel each was given. *)
Lemma returns_deterministic (w : WindCalculations.t)
    (a : ApparentWindData.t) (d d' : DerivedWindValues.t) :
  returns w a d -> returns w a d' -> d = d'.
Proof.
  intros [f Hf] [f' Hf'].
  assert (M : forall n m r, calculateDerivedWindValues n w a = Some r ->
              (n <= m)%nat -> calculateDerivedWindValues m w a = Some r).
  { intros n m r H Hle. unfold calculateDerivedWindValues in *.
    destruct (normalizeAngle n (JS.or _ _)) as [x1 |] eqn:E1;
      [| discriminate].
    rewrite (normalizeAngle_mono _ m _ _ E1 Hle).
    match type of H with
    | match normalizeAngle n ?e with _ => _ end = _ =>
        destruct (normalizeAngle n e) as [x2 |] eqn:E2; [| discriminate];
        rewrite (normalizeAngle_mono _ m _ _ E2 Hle)
    end.
    match type of H with
    | match normalizeAngle n ?e with _ => _ end = _ =>
        destruct (normalizeAngle n e) as [x3 |] eqn:E3; [| discriminate];
        rewrite (normalizeAngle_mono _ m _ _ E3 Hle)
    end.
    exact H. }
  apply (M _ (Nat.max f f')) in Hf; [| lia].
  apply (M _ (Nat.max f f')) in Hf'; [| lia].
  congruence.
Qed.

(** C10.  The computation returns, and in the record it returns the three
    angles relative to the vessel ([angleApparent], [angleTrueGround],
    [angleTrueWater]) lie in [[-PI, PI]] and the two compass bearings
    ([directionTrue], [directionMagnetic]) lie in [[0, 2 PI)]. *)
Theorem derived_angles_in_range (w : WindCalculations.t)
    (a : ApparentWindData.t) :
  (exists d, returns w a d) /\
  (forall d, returns w a d ->
     - PI <= DerivedWindValues.angleApparent d <= PI /\
     - PI <= DerivedWindValues.angleTrueGround d <= PI /\
     - PI <= DerivedWindValues.angleTrueWater d <= PI /\
     0 <= DerivedWindValues.directionTrue d < 2 * PI /\
     0 <= DerivedWindValues.directionMagnetic d < 2 * PI).
Proof.
  split; [apply calculateDerivedWindValues_total |].
  intros d Hd. destruct (returns_fields w a d Hd) as [fuel F].
  destruct F as [_ F1 F2 F3 F4 F5 _ _ _ _].
  repeat split;
    try (eapply normalizeAngle_range; eassumption);
    try (rewrite F4; apply compass_atan2_range);
    try (rewrite F5; apply compass_atan2_range).
Qed.

(** C5.  The computation returns, and in the record it returns the wind
    chill is non-null exactly when the air temperature is at most 10 C and
    the true wind speed times 3.6 (km/h) is strictly above 4.8; it is then
    the wind-chill polynomial plus 273.15.  At 10 C and 4.8 km/h it is
    null; at 9.9 C and 5 km/h it is not. *)
Theorem wind_chill_guard (w : WindCalculations.t) (a : ApparentWindData.t) :
  (exists d, returns w a d) /\
  (forall d, returns w a d ->
     let T := airTemp w in
     let V := DerivedWindValues.speedTrue d * 3.6 in
     (DerivedWindValues.windChill d <> None <-> T <= 10 /\ V > 4.8) /\
     (T <= 10 -> V > 4.8 ->
      DerivedWindValues.windChill d =
        Some (13.12 + 0.6215 * T - 11.37 * Rpower V 0.16
              + 0.3965 * T * Rpower V 0.16 + 273.15)) /\
     (T = 10 -> V = 4.8 -> DerivedWindValues.windChill d = None) /\
     (T = 9.9 -> V = 5 -> DerivedWindValues.windChill d <> None)).
Proof.
  split; [apply calculateDerivedWindValues_total |].
  intros d Hd T V. destruct (returns_fields w a d Hd) as [fuel F].
  rewrite (f_windChill _ _ _ _ F). fold T V. unfold windChillK, JS.pow.
  destruct (Rle_dec T 10) as [HT | HT];
    destruct (Rgt_dec V 4.8) as [HV | HV];
    repeat split; intros; try discriminate; try lra; try tauto;
    try reflexivity.
Qed.

(** What the feels-like block selects: the wind chill when it was computed
    and the air temperature is at most 10, else the heat index when it was
    computed and the air temperature is at least 27, else the stored air
    temperature unchanged. *)
Lemma feelsLike_selects (w : WindCalculations.t) (a : ApparentWindData.t)
    (d : DerivedWindValues.t) :
  returns w a d ->
  match DerivedWindValues.windChill d, DerivedWindValues.heatIndex d with
  | Some wc, _ => DerivedWindValues.feelsLike d = wc
  | None, Some hi =>
      DerivedWindValues.feelsLike d
      = if Rge_dec (airTemp w) 27 then hi else airTemp w
  | None, None => DerivedWindValues.feelsLike d = airTemp w
  end.
Proof.
  intros Hd. destruct (returns_fields w a d Hd) as [fuel F].
  rewrite (f_feelsLike _ _ _ _ F).
  pose proof (f_windChill _ _ _ _ F) as Hwc. unfold feelsLikeK.
  destruct (DerivedWindValues.windChill d) as [wc |];
    destruct (DerivedWindValues.heatIndex d) as [hi |]; trivial;
    unfold windChillK in Hwc;
    destruct (Rle_dec (airTemp w) 10); trivial; discriminate.
Qed.

(** C1.  At 20 C neither wind chill nor heat index is computed and the
    feels-like value is the stored 20 itself, not 20 C expressed in
    Kelvin (293.15). *)
Theorem feelsLike_fallback_not_kelvin :
  exists d, returns mild_day bow_wind d /\
    DerivedWindValues.windChill d = None /\
    DerivedWindValues.heatIndex d = None /\
    DerivedWindValues.feelsLike d = 20 /\
    DerivedWindValues.feelsLike d <> 20 + 273.15.
Proof.
  destruct (calculateDerivedWindValues_total mild_day bow_wind) as [d Hd].
  exists d. split; [assumption |].
  destruct (returns_fields _ _ d Hd) as [fuel F].
  pose proof (f_windChill _ _ _ _ F) as Hwc.
  pose proof (f_heatIndex _ _ _ _ F) as Hhi.
  pose proof (f_feelsLike _ _ _ _ F) as Hfl.
  unfold windChillK in Hwc. simpl in Hwc.
  destruct (Rle_dec 20 10); [lra |].
  unfold heatIndexK in Hhi. simpl in Hhi.
  destruct (Rge_dec (20 * 9 / 5 + 32) 80); [lra |].
  rewrite Hwc, Hhi in Hfl. unfold feelsLikeK in Hfl. simpl in Hfl.
  rewrite Hfl. repeat split; trivial. lra.
Qed.

(** An override is kept when it is non-zero and the stored air temperature
    is used when there is none. *)
Lemma airTemperature_override (w : WindCalculations.t) (s dir : R)
    (o : option R) :
  ApparentWindData.airTemperature
    (calculateApparentWind w (WindInput.mk s dir o))
  = match o with
    | Some v => if Req_dec_T v 0 then airTemp w else v
    | None => airTemp w
    end.
Proof.
  unfold calculateApparentWind, airTemperature_or, JS.or, JS.truthy. simpl.
  destruct o as [v |]; trivial. destruct (Req_dec_T v 0); trivial.
Qed.

(** With equal headings the two absolute bearings of the apparent wind
    coincide. *)
Lemma apparent_bearings_coincide (w : WindCalculations.t)
    (windData : WindInput.t) :
  headingTrue w = headingMagnetic w ->
  ApparentWindData.apparentTrueRad (calculateApparentWind w windData)
  = ApparentWindData.apparentMagneticRad (calculateApparentWind w windData).
Proof.
  intros H. unfold calculateApparentWind. simpl. now rewrite H.
Qed.

(** C8.  With 15 C stored and an override of 0 C the apparent-wind record
    carries the stored 15, not the override. *)
Theorem zero_override_falls_back :
  WindInput.airTemperature sample_at_0C = Some 0 /\
  airTemp at_15C = 15 /\
  ApparentWindData.airTemperature (calculateApparentWind at_15C sample_at_0C)
  = 15 /\
  15 <> 0.
Proof.
  split; [reflexivity |]. split; [reflexivity |]. split; [| lra].
  unfold sample_at_0C. rewrite airTemperature_override.
  destruct (Req_dec_T 0 0) as [_ | N]; [reflexivity | contradiction].
Qed.

(** The remainder of a number in [[0, 360)] by 360 is the number itself. *)
Lemma rem_360_small (x : R) : 0 <= x < 360 -> JS.rem x 360 = x.
Proof.
  intros Hx. unfold JS.rem, JS.trunc.
  assert (Hq : 0 <= x / 360 < 1) by lra.
  destruct (Rle_dec 0 (x / 360)) as [_ | N]; [| lra].
  rewrite <- (Int_part_spec (x / 360) 0) by lra. ring.
Qed.

(** The apparent wind of the calm: bearing PI/2 in both frames. *)
Lemma calm_bearing :
  ApparentWindData.windSpeed calm = 0 /\
  ApparentWindData.apparentTrueRad calm = PI / 2 /\
  ApparentWindData.apparentMagneticRad calm = PI / 2.
Proof.
  pose proof PI_RGT_0 as Hpi.
  unfold calm, calculateApparentWind, radToDeg, degToRad. simpl.
  replace (0 * 180 / PI + 90) with 90 by (field; lra).
  rewrite rem_360_small by lra.
  repeat split; field.
Qed.

(** C6 as stated fails in a calm: the true wind bearing is [atan2 (0, 0)],
    that is 0, while the apparent wind's absolute bearing is PI/2. *)
Lemma calm_true_wind_bearing :
  effectiveSOG init = 0 /\
  exists d, returns init calm d /\
    DerivedWindValues.directionTrue d = 0 /\
    ApparentWindData.apparentTrueRad calm = PI / 2 /\
    DerivedWindValues.directionTrue d
    <> ApparentWindData.apparentTrueRad calm.
Proof.
  split; [reflexivity |].
  destruct (calculateDerivedWindValues_total init calm) as [d Hd].
  exists d. split; [assumption |].
  destruct (returns_fields _ _ d Hd) as [fuel F].
  pose proof (f_directionTrue _ _ _ _ F) as E.
  destruct calm_bearing as (Cs & Ct & _).
  unfold Wx, Wy in E. rewrite Cs, Ct in E.
  replace (0 * sin (PI / 2) + effectiveSOG init
                              * sin (effectiveHeadingTrueRad init))
    with 0 in E by (unfold effectiveSOG; simpl; ring).
  replace (0 * cos (PI / 2) + effectiveSOG init
                              * cos (effectiveHeadingTrueRad init))
    with 0 in E by (unfold effectiveSOG; simpl; ring).
  unfold JS.atan2, toCompassBearing in E.
  destruct (Rlt_dec 0 0); [lra |].
  destruct (Rlt_dec 0 0); [lra |].
  repeat split; trivial. rewrite E, Ct.
  pose proof PI_RGT_0. lra.
Qed.

(** With the vessel at rest the true wind speed is the apparent speed. *)
Lemma speed_at_rest (w : WindCalculations.t) (a : ApparentWindData.t)
    (d : DerivedWindValues.t) :
  effectiveSOG w = 0 -> 0 <= ApparentWindData.windSpeed a ->
  returns w a d ->
  DerivedWindValues.speedTrue d = ApparentWindData.windSpeed a.
Proof.
  intros Hsog Hs Hd. destruct (returns_fields w a d Hd) as [fuel F].
  rewrite (f_speedTrue _ _ _ _ F). unfold Wx, Wy. rewrite Hsog.
  rewrite !Rmult_0_l, !Rplus_0_r. now apply polar_norm.
Qed.

(** The boundary cases of C5: no wind chill at 10 C with 4.8 km/h of
    wind, a wind chill at 9.9 C with 5 km/h. *)
Lemma wind_chill_guard_boundary :
  (exists d, returns at_10C wind_4_8_kmh d /\
             DerivedWindValues.speedTrue d * 3.6 = 4.8 /\
             DerivedWindValues.windChill d = None) /\
  (exists d, returns at_9_9C wind_5_kmh d /\
             DerivedWindValues.speedTrue d * 3.6 = 5 /\
             DerivedWindValues.windChill d <> None).
Proof.
  split.
  - destruct (wind_chill_guard at_10C wind_4_8_kmh) as [[d Hd] Hall].
    assert (V : DerivedWindValues.speedTrue d * 3.6 = 4.8).
    { rewrite (speed_at_rest at_10C wind_4_8_kmh d Logic.eq_refl);
        unfold wind_4_8_kmh; cbn [ApparentWindData.windSpeed];
        first [assumption | lra | field]. }
    exists d. repeat split; trivial.
    destruct (Hall d Hd) as (_ & _ & Hnull & _). now apply Hnull.
  - destruct (wind_chill_guard at_9_9C wind_5_kmh) as [[d Hd] Hall].
    assert (V : DerivedWindValues.speedTrue d * 3.6 = 5).
    { rewrite (speed_at_rest at_9_9C wind_5_kmh d Logic.eq_refl);
        unfold wind_5_kmh; cbn [ApparentWindData.windSpeed];
        first [assumption | lra | field]. }
    exists d. split; [assumption |]. split; [assumption |].
    destruct (Hall d Hd) as (_ & _ & _ & Hsome). now apply Hsome.
Defined.

(** C6, amended.  With the vessel at rest, a positive apparent wind speed
    and apparent bearings in [[0, 2 PI)], the true wind speed is the
    apparent speed and the true and magnetic wind bearings are the apparent
    wind's absolute bearings; when moreover the two headings and the two
    apparent bearings coincide, the ground and water frames give the same
    bearing and the same angle. *)
Theorem true_wind_at_rest (w : WindCalculations.t) (a : ApparentWindData.t) :
  effectiveSOG w = 0 ->
  0 < ApparentWindData.windSpeed a ->
  0 <= ApparentWindData.apparentTrueRad a < 2 * PI ->
  0 <= ApparentWindData.apparentMagneticRad a < 2 * PI ->
  (exists d, returns w a d) /\
  (forall d, returns w a d ->
     DerivedWindValues.speedTrue d = ApparentWindData.windSpeed a /\
     DerivedWindValues.directionTrue d
     = ApparentWindData.apparentTrueRad a /\
     DerivedWindValues.directionMagnetic d
     = ApparentWindData.apparentMagneticRad a /\
     (effectiveHeadingTrueRad w = effectiveHeadingMagneticRad w ->
      ApparentWindData.apparentTrueRad a
      = ApparentWindData.apparentMagneticRad a ->
      DerivedWindValues.directionMagnetic d
      = DerivedWindValues.directionTrue d /\
      DerivedWindValues.angleTrueWater d
      = DerivedWindValues.angleTrueGround d)).
Proof.
  intros Hsog Hs Hb Hm.
  split; [apply calculateDerivedWindValues_total |].
  intros d Hd. destruct (returns_fields w a d Hd) as [fuel F].
  destruct F as [_ _ F2 F3 F4 F5 F6 _ _ _].
  unfold Wx, Wy in F4, F6. unfold WxMag, WyMag in F5.
  rewrite Hsog in F4, F5, F6.
  rewrite !Rmult_0_l, !Rplus_0_r in F4, F5, F6.
  rewrite compass_polar in F4 by assumption.
  rewrite compass_polar in F5 by assumption.
  rewrite polar_norm in F6 by lra.
  repeat split; trivial.
  - congruence.
  - rewrite F4 in F2. rewrite F5 in F3. congruence.
Qed.

Lemma true_wind_at_rest_witness :
  let a := ApparentWindData.mk 5 0 0 0 0 0 0 20 in
  effectiveSOG mild_day = 0 /\
  0 < ApparentWindData.windSpeed a /\
  (exists d, returns mild_day a d) /\
  (forall d, returns mild_day a d ->
     DerivedWindValues.speedTrue d = 5 /\
     DerivedWindValues.directionTrue d = 0).
Proof.
  intros a0. pose proof PI_RGT_0 as Hpi.
  assert (H1 : effectiveSOG mild_day = 0) by reflexivity.
  assert (H2 : 0 < ApparentWindData.windSpeed a0) by (simpl; lra).
  assert (H3 : 0 <= ApparentWindData.apparentTrueRad a0 < 2 * PI)
    by (simpl; lra).
  assert (H4 : 0 <= ApparentWindData.apparentMagneticRad a0 < 2 * PI)
    by (simpl; lra).
  destruct (true_wind_at_rest mild_day a0 H1 H2 H3 H4) as [Hex Hall].
  repeat split; trivial;
    destruct (Hall d H) as (E1 & E2 & _); assumption.
Defined.

End WindClaims.

(** ** Truncation and the haversine distance *)

Section Distance.
Import JS Plugin.

Lemma Int_part_IZR (z : Z) : Int_part (IZR z) = z.
Proof. symmetry. apply Int_part_spec. lra. Qed.

Lemma trunc_IZR (z : Z) : trunc (IZR z) = z.
Proof.
  unfold trunc. destruct (Rle_dec 0 (IZR z)) as [H | H].
  - apply Int_part_IZR.
  - rewrite <- opp_IZR, Int_part_IZR. lia.
Qed.

Lemma atan2_0_1 : atan2 0 1 = 0.
Proof.
  unfold atan2. destruct (Rlt_dec 0 1); [| lra].
  replace (0 / 1) with 0 by field. apply atan_0.
Qed.

(** Two positions with the same coordinates are at distance 0. *)
Lemma calculateDistance_same (p q : Position.t) :
  Position.latitude p = Position.latitude q ->
  Position.longitude p = Position.longitude q ->
  calculateDistance p q = 0.
Proof.
  intros Hlat Hlon. unfold calculateDistance. rewrite Hlat, Hlon.
  replace ((Position.latitude q - Position.latitude q) * PI / 180)
    with 0 by field.
  replace ((Position.longitude q - Position.longitude q) * PI / 180)
    with 0 by field.
  replace (0 / 2) with 0 by field. rewrite sin_0.
  replace (0 * 0 + _ * 0 * 0) with 0 by ring.
  rewrite Rminus_0_r, sqrt_0, sqrt_1, atan2_0_1. ring.
Qed.

(** Along the equator the haversine distance is the arc length: [d]
    metres east of the origin is at distance [d], up to half the
    circumference. *)
Lemma calculateDistance_equator (d : R) :
  0 <= d <= 6371000 * PI ->
  calculateDistance (Samples.east_of_origin d) Samples.origin = d.
Proof.
  intros Hd. pose proof PI_RGT_0 as Hpi.
  unfold calculateDistance, Samples.east_of_origin, Samples.origin. simpl.
  set (h := (0 - d * 180 / (6371000 * PI)) * PI / 180 / 2).
  assert (Hh : h = - (d / (2 * 6371000))) by (unfold h; field; lra).
  replace ((0 - 0) * PI / 180 / 2) with 0 by field.
  replace (0 * PI / 180) with 0 by field.
  rewrite sin_0, cos_0, Hh, sin_neg.
  set (k := d / (2 * 6371000)).
  assert (Hk : 0 <= k <= PI / 2).
  { unfold k. split.
    - apply Rmult_le_pos; [lra |]. apply Rlt_le, Rinv_0_lt_compat. lra.
    - apply Rmult_le_reg_r with (2 * 6371000); [lra |].
      replace (d / (2 * 6371000) * (2 * 6371000)) with d by (field; lra).
      lra. }
  assert (Hs : 0 <= sin k) by (apply sin_ge_0; lra).
  assert (Hc : 0 <= cos k) by (apply cos_ge_0; lra).
  replace (0 * 0 + 1 * 1 * - sin k * - sin k) with (sin k * sin k) by ring.
  replace (1 - sin k * sin k) with (cos k * cos k)
    by (pose proof (sin2_cos2 k) as E; unfold Rsqr in E; lra).
  rewrite !sqrt_square by assumption.
  replace (sin k) with (1 * sin k) by ring.
  replace (cos k) with (1 * cos k) by ring.
  rewrite atan2_polar by lra.
  unfold k. field.
Qed.

(** The quantity under the square roots is the haversine of the central
    angle, and lies in [[0, 1]] for latitudes between -90 and 90. *)
Lemma haversine_unit (phi1 phi2 dlambda : R) :
  - (PI / 2) <= phi1 <= PI / 2 -> - (PI / 2) <= phi2 <= PI / 2 ->
  0 <= hav (phi2 - phi1) + cos phi1 * cos phi2 * hav dlambda <= 1.
Proof.
  intros H1 H2. unfold hav.
  assert (C1 : 0 <= cos phi1) by (apply cos_ge_0; lra).
  assert (C2 : 0 <= cos phi2) by (apply cos_ge_0; lra).
  pose proof (sin2_cos2 (dlambda / 2)) as Hs. unfold Rsqr in Hs.
  pose proof (cos_2a_sin ((phi2 - phi1) / 2)) as Hd.
  replace (2 * ((phi2 - phi1) / 2)) with (phi2 - phi1) in Hd by field.
  rewrite cos_minus in Hd.
  pose proof (COS_bound (phi1 + phi2)) as Hb. rewrite cos_plus in Hb.
  set (u := sin ((phi2 - phi1) / 2)) in *.
  set (v := sin (dlambda / 2)) in *.
  set (v' := cos (dlambda / 2)) in *.
  assert (Hv : 0 <= v * v <= 1) by nra.
  assert (Hc : 0 <= cos phi1 * cos phi2) by nra.
  split; nra.
Qed.

(** The code computes the haversine distance of the specification. *)
Lemma calculateDistance_haversine (p q : Position.t) :
  -90 <= Position.latitude p <= 90 -> -90 <= Position.latitude q <= 90 ->
  calculateDistance p q = haversine_distance p q.
Proof.
  intros Hp Hq. pose proof PI_RGT_0 as Hpi.
  unfold calculateDistance, haversine_distance.
  set (phi1 := Position.latitude p * PI / 180).
  set (phi2 := Position.latitude q * PI / 180).
  replace ((Position.latitude q - Position.latitude p) * PI / 180)
    with (phi2 - phi1) by (unfold phi1, phi2; field).
  replace ((Position.longitude q - Position.longitude p) * PI / 180)
    with (Position.longitude q * PI / 180 - Position.longitude p * PI / 180)
    by field.
  set (dl := Position.longitude q * PI / 180 - Position.longitude p * PI / 180).
  assert (B1 : - (PI / 2) <= phi1 <= PI / 2) by (unfold phi1; split; nra).
  assert (B2 : - (PI / 2) <= phi2 <= PI / 2) by (unfold phi2; split; nra).
  pose proof (haversine_unit phi1 phi2 dl B1 B2) as Ha. unfold hav in *.
  replace (sin ((phi2 - phi1) / 2) * sin ((phi2 - phi1) / 2)
           + cos phi1 * cos phi2 * sin (dl / 2) * sin (dl / 2))
    with (sin ((phi2 - phi1) / 2) * sin ((phi2 - phi1) / 2)
          + cos phi1 * cos phi2 * (sin (dl / 2) * sin (dl / 2))) by ring.
  set (a := sin ((phi2 - phi1) / 2) * sin ((phi2 - phi1) / 2)
            + cos phi1 * cos phi2 * (sin (dl / 2) * sin (dl / 2))) in *.
  assert (Hx : 0 <= sqrt a <= 1).
  { split; [apply sqrt_pos |]. rewrite <- sqrt_1. apply sqrt_le_1_alt. lra. }
  assert (Hsin : sin (asin (sqrt a)) = sqrt a) by (apply sin_asin; lra).
  assert (Hcos : cos (asin (sqrt a)) = sqrt (1 - a)).
  { rewrite cos_asin by lra. unfold Rsqr. now rewrite sqrt_sqrt by lra. }
  pose proof (asin_bound (sqrt a)) as Hb.
  replace (JS.atan2 (sqrt a) (sqrt (1 - a))) with (asin (sqrt a)); [ring |].
  symmetry. rewrite <- Hsin at 1. rewrite <- Hcos.
  replace (sin (asin (sqrt a))) with (1 * sin (asin (sqrt a))) by ring.
  replace (cos (asin (sqrt a))) with (1 * cos (asin (sqrt a))) by ring.
  apply atan2_polar; lra.
Qed.

End Distance.

(** ** Claims about the unit converter *)

Section ConverterClaims.
Import JS Plugin.
Context {rt : Runtime}.

Lemma one_of_In (key : string) (labels : list string) :
  In key labels -> one_of key labels = true.
Proof.
  intros H. unfold one_of. apply existsb_exists.
  exists key. split; [assumption | apply String.eqb_refl].
Qed.

(** The unit label is read off the key alone. *)
Lemma units_of_key (f : string) (v v' : value) :
  nullish v = false -> nullish v' = false ->
  ConvertedValue.units (convertToSignalKUnits f v)
  = ConvertedValue.units (convertToSignalKUnits f v').
Proof.
  intros Hv Hv'. unfold convertToSignalKUnits. rewrite Hv, Hv'.
  repeat match goal with
         | |- context [if one_of ?k ?l then _ else _] =>
             destruct (one_of k l); [reflexivity |]
         end.
  reflexivity.
Qed.

(** C7.  For a field name [f] whose camel-case form is one of the
    temperature labels, [convertToSignalKUnits f 0] is 273.15 with unit K;
    for a pressure label, 1013.25 becomes 101325 with unit Pa; for
    [windDirection], 180 becomes a number within 1e-9 of PI with unit rad.
    The unit depends on the field name only, and the function has no
    argument besides the field name and its value. *)
Theorem convert_round_trip (f : string) :
  (In (snakeToCamel f) temperatureKeys ->
   convertToSignalKUnits f (num 0)
   = ConvertedValue.mk (num 273.15) (Some "K"%string)) /\
  (In (snakeToCamel f) pressureKeys ->
   convertToSignalKUnits f (num 1013.25)
   = ConvertedValue.mk (num 101325) (Some "Pa"%string)) /\
  (In (snakeToCamel f) directionKeys ->
   exists x, convertToSignalKUnits f (num 180)
             = ConvertedValue.mk (num x) (Some "rad"%string)
             /\ Rabs (x - PI) <= 1 / 1000000000) /\
  (forall v v', nullish v = false -> nullish v' = false ->
     ConvertedValue.units (convertToSignalKUnits f v)
     = ConvertedValue.units (convertToSignalKUnits f v')).
Proof.
  pose proof PI_RGT_0 as Hpi.
  split; [| split; [| split]].
  - intros H. unfold convertToSignalKUnits.
    rewrite (one_of_In _ _ H). cbn [nullish num].
    unfold plus, num. cbn [stringy orb ToNumber lift2].
    do 3 f_equal. lra.
  - intros H. unfold convertToSignalKUnits. cbn [nullish num].
    assert (N : one_of (snakeToCamel f) temperatureKeys = false).
    { cbn [pressureKeys In] in H.
      destruct H as [<- | [<- | []]]; reflexivity. }
    rewrite N, (one_of_In _ _ H).
    unfold times, num. cbn [ToNumber lift2].
    do 3 f_equal. lra.
  - intros H. unfold convertToSignalKUnits. cbn [nullish num].
    assert (N : one_of (snakeToCamel f) temperatureKeys = false
                /\ one_of (snakeToCamel f) pressureKeys = false).
    { cbn [directionKeys In] in H.
      destruct H as [<- | []]; split; reflexivity. }
    destruct N as [N1 N2]. rewrite N1, N2, (one_of_In _ _ H).
    unfold times, num. cbn [ToNumber lift2].
    exists (180 * (PI / 180)). split; [reflexivity |].
    replace (180 * (PI / 180) - PI) with 0 by field.
    rewrite Rabs_R0. lra.
  - apply units_of_key.
Qed.

(** The snake-case and the camel-case name of a field select the same
    rule. *)
Example convert_air_temperature :
  convertToSignalKUnits "air_temperature" (num 0)
  = convertToSignalKUnits "airTemperature" (num 0).
Proof. reflexivity. Qed.

End ConverterClaims.

(** The three rules at the snake-case names the station data uses. *)
Lemma convert_round_trip_witness :
  Plugin.convertToSignalKUnits (rt := Samples.bareRuntime) "air_temperature"
                        (JS.num 0)
  = ConvertedValue.mk (JS.num 273.15) (Some "K"%string) /\
  Plugin.convertToSignalKUnits (rt := Samples.bareRuntime) "station_pressure"
                        (JS.num 1013.25)
  = ConvertedValue.mk (JS.num 101325) (Some "Pa"%string) /\
  exists x,
    Plugin.convertToSignalKUnits (rt := Samples.bareRuntime) "wind_direction"
                          (JS.num 180)
    = ConvertedValue.mk (JS.num x) (Some "rad"%string)
    /\ Rabs (x - PI) <= 1 / 1000000000.
Proof.
  split; [| split].
  - destruct (convert_round_trip (rt := Samples.bareRuntime)
                "air_temperature") as (H & _).
    apply H. left. reflexivity.
  - destruct (convert_round_trip (rt := Samples.bareRuntime)
                "station_pressure") as (_ & H & _).
    apply H. left. reflexivity.
  - destruct (convert_round_trip (rt := Samples.bareRuntime)
                "wind_direction") as (_ & _ & H & _).
    apply H. left. reflexivity.
Defined.

(** ** Claims about the weather provider *)

Section ProviderClaims.
Import JS Plugin.

(** C9.  Two [getObservations] calls on the same cache, with the same
    options and at the same instant, return the same thing whatever the
    two requested positions are. *)
Theorem observations_ignore_position {rt : Runtime} (p1 p2 : Position.t)
    (options : option WeatherReqParams.t) (st : PluginState.t) (now : Z) :
  getObservations p1 options st now = getObservations p2 options st now.
Proof. reflexivity. Qed.

(** Without a cached Tempest record there is no warning. *)
Lemma no_tempest_no_warning {rt : Runtime} (pos : Position.t)
    (st : PluginState.t) (now : Z) :
  Map_get (PluginState.latestObservations st) "tempest" = None ->
  getWarnings pos st now = Some [].
Proof. intros H. unfold getWarnings. now rewrite H. Qed.

(** The record of a processed Tempest observation is in the cache under
    "tempest", with the epoch and the strike count of the array and the
    strike distance in metres. *)
Lemma cached_tempest_record {rt : Runtime} (st st' : PluginState.t)
    (obs : list R) (now : Z) :
  processTempestObservation st obs now = Some st' ->
  exists data,
    Map_get (PluginState.latestObservations st') "tempest" = Some data
    /\ get data "timeEpoch" = element obs 0
    /\ get data "lightningStrikeCount" = element obs 15
    /\ get data "lightningStrikeAvgDistance"
       = times (element obs 14) (num 1000).
Proof.
  unfold processTempestObservation, tempestWeatherApiData,
    tempestObservationData.
  destruct (toISOString _) as [utcDate |]; [| discriminate].
  intros H. injection H as <-. eexists. split.
  - unfold cacheObservationData. cbn [PluginState.latestObservations].
    generalize (PluginState.latestObservations st). intros m.
    induction m as [| [k x] m IH]; cbn [Map_set Map_get].
    + reflexivity.
    + destruct (String.eqb k "tempest") eqn:E; cbn [Map_get]; rewrite E;
        [reflexivity | exact IH].
  - repeat split; reflexivity.
Qed.

(** C3.  For a cached Tempest record with epoch [t] and strike count [c],
    and [lastStrikeTime] the instant [t] seconds after the epoch:
    [getWarnings] returns exactly one warning, from [lastStrikeTime] to
    [lastStrikeTime] + 30 minutes, whose text carries the strike count and
    the rounded average distance, when [c > 0] and [now] is before
    [lastStrikeTime] + 30 minutes; otherwise it returns the empty list. *)
Theorem lightning_warning_window {rt : Runtime} (pos : Position.t)
    (st : PluginState.t) (now : Z) (data : value) (t c : R) :
  Map_get (PluginState.latestObservations st) "tempest" = Some data ->
  get data "timeEpoch" = num t ->
  get data "lightningStrikeCount" = num c ->
  let lastStrikeTime := trunc (t * 1000) in
  let warningEndTime := (lastStrikeTime + 30 * 60 * 1000)%Z in
  (0 < c /\ (now < warningEndTime)%Z ->
   getWarnings pos st now
   = Some [WeatherWarning.mk
             (Iso lastStrikeTime) (Iso warningEndTime)
             ("Lightning activity detected. " ++ NumberToString c
              ++ " strikes recorded. Last strike at average distance of "
              ++ ToString (Math_round (get data "lightningStrikeAvgDistance"))
              ++ "m.")
             "WeatherFlow Station" "lightning"]) /\
  (~ (0 < c /\ (now < warningEndTime)%Z) ->
   getWarnings pos st now = Some []).
Proof.
  intros Hmap Ht Hc lastStrikeTime warningEndTime.
  assert (Hobj : ToBoolean data = true).
  { destruct data; try discriminate Ht. reflexivity. }
  unfold getWarnings, lightning_details. rewrite Hmap, Hobj, Ht, Hc.
  unfold gt, times, num.
  cbn [ToNumber lift2 Date_of option_map toISOString date_lt andb ToString].
  fold lastStrikeTime. fold warningEndTime.
  destruct (Rgt_dec c 0) as [Hpos | Hneg].
  - destruct (Z.ltb_spec now warningEndTime) as [Hlt | Hge].
    + split; [reflexivity |]. intros N. exfalso. apply N. split; [lra | lia].
    + split; [| reflexivity]. intros [_ Hlt]. lia.
  - split; [| reflexivity]. intros [Hpos _]. lra.
Qed.

(** A strike at T = 1700000000 s: a warning at T + 29 min 59 s, none at
    T + 30 min 1 s. *)
Lemma lightning_warning_window_witness :
  (exists w,
     getWarnings (rt := Samples.bareRuntime) Samples.origin
                 Samples.after_strikes 1700001799000 = Some [w]
     /\ WeatherWarning.startTime w = Iso 1700000000000
     /\ WeatherWarning.endTime w = Iso 1700001800000) /\
  getWarnings (rt := Samples.bareRuntime) Samples.origin
              Samples.after_strikes 1700001801000 = Some [].
Proof.
  assert (T : trunc (1700000000 * 1000) = 1700000000000%Z).
  { rewrite <- mult_IZR. apply trunc_IZR. }
  assert (S : exists st, processTempestObservation (rt := Samples.bareRuntime)
                           PluginState.init Samples.strikes 1700000000500
                         = Some st /\ Samples.after_strikes = st).
  { unfold Samples.after_strikes, processTempestObservation,
      tempestWeatherApiData, tempestObservationData.
    change (element Samples.strikes 0) with (num 1700000000).
    unfold times, num. cbn [ToNumber lift2 Date_of toISOString option_map].
    eexists. split; reflexivity. }
  destruct S as (st & Hst & ->).
  destruct (cached_tempest_record _ _ _ _ Hst)
    as (data & Hmap & Ht & Hc & _).
  change (element Samples.strikes 0) with (num 1700000000) in Ht.
  change (element Samples.strikes 15) with (num 3) in Hc.
  split.
  - destruct (lightning_warning_window (rt := Samples.bareRuntime)
                Samples.origin st 1700001799000 data 1700000000 3
                Hmap Ht Hc) as [Hyes _].
    rewrite T in Hyes. eexists. split; [apply Hyes |].
    + split; [lra | lia].
    + split; reflexivity.
  - destruct (lightning_warning_window (rt := Samples.bareRuntime)
                Samples.origin st 1700001801000 data 1700000000 3
                Hmap Ht Hc) as [_ Hno].
    rewrite T in Hno. apply Hno. intros [_ H]. lia.
Defined.

(** *** Forecasts *)

(** When every entry converts, the loop returns the converted entries and
    nothing was thrown. *)
Lemma forecasts_of_all_convert {rt : Runtime} (ty : WeatherForecastType.t)
    (entries : list value) (ws acc : list WeatherData.t) :
  Forall2 (fun e w => convertForecastToWeatherAPI e ty = Some w) entries ws ->
  forecasts_of entries ty acc = ((acc ++ ws)%list, false).
Proof.
  intros H. revert acc.
  induction H as [| e w entries ws He _ IH]; intros acc; simpl.
  - now rewrite app_nil_r.
  - rewrite He, IH, <- app_assoc. reflexivity.
Qed.

Lemma forecasts_from_cache_all_convert {rt : Runtime}
    (ty : WeatherForecastType.t) (options : option WeatherReqParams.t)
    (st : PluginState.t) (data : ForecastData.t) (ws : list WeatherData.t) :
  PluginState.latestForecastData st = Some data ->
  Forall2 (fun e w => convertForecastToWeatherAPI e ty = Some w)
          (selected_entries data ty) ws ->
  forecasts_from_cache ty options st
  = match given_startDate options with
    | Some startDate =>
        filter (fun f => time_ge (Date_of (WeatherData.date f))
                                 (Date_of startDate)) ws
    | None =>
        match exceeds_maxCount options ws with
        | Some n => slice0 ws n
        | None => ws
        end
    end.
Proof.
  intros Hdata Hall. unfold forecasts_from_cache. rewrite Hdata.
  now rewrite (forecasts_of_all_convert ty _ ws [] Hall).
Qed.

(** With a start date, and every entry converting, what is returned is at
    or after the start date. *)
Lemma forecasts_not_before_startDate {rt : Runtime} (pos : Position.t)
    (ty : WeatherForecastType.t) (options : option WeatherReqParams.t)
    (st : PluginState.t) (now : Z) (data : ForecastData.t)
    (ws : list WeatherData.t) (startDate : value) :
  PluginState.latestForecastData st = Some data ->
  Forall2 (fun e w => convertForecastToWeatherAPI e ty = Some w)
          (selected_entries data ty) ws ->
  given_startDate options = Some startDate ->
  forall f, In f (getForecasts pos ty options st now) ->
    time_ge (Date_of (WeatherData.date f)) (Date_of startDate) = true.
Proof.
  intros Hdata Hall Hstart f. unfold getForecasts.
  destruct (Rgt_dec _ _); [intros [] |].
  rewrite (forecasts_from_cache_all_convert ty options st data ws Hdata Hall).
  rewrite Hstart. intros Hin. now apply filter_In in Hin.
Qed.

(** Truncation to a positive [maxCount]. *)
Lemma exceeds_maxCount_bound {A : Type}
    (options : option WeatherReqParams.t) (arr : list A) (n : Z) :
  (0 < n)%Z ->
  (exists o, options = Some o /\ WeatherReqParams.maxCount o = Some n) ->
  (List.length
     (match exceeds_maxCount options arr with
      | Some m => slice0 arr m
      | None => arr
      end) <= Z.to_nat n)%nat.
Proof.
  intros Hn (o & -> & Hmax). unfold exceeds_maxCount. rewrite Hmax.
  destruct (n =? 0)%Z eqn:E0; [apply Z.eqb_eq in E0; lia |].
  cbn [negb andb].
  destruct (Z.ltb_spec n (Z.of_nat (List.length arr))) as [Hlt | Hge].
  - unfold slice0. destruct (Z.leb_spec 0 n); [| lia].
    rewrite length_firstn. lia.
  - lia.
Qed.

(** Without a start date the forecasts are cut to a positive [maxCount]. *)
Lemma forecasts_at_most_maxCount {rt : Runtime} (pos : Position.t)
    (ty : WeatherForecastType.t) (o : WeatherReqParams.t)
    (st : PluginState.t) (now : Z) (data : ForecastData.t)
    (ws : list WeatherData.t) (n : Z) :
  PluginState.latestForecastData st = Some data ->
  Forall2 (fun e w => convertForecastToWeatherAPI e ty = Some w)
          (selected_entries data ty) ws ->
  WeatherReqParams.startDate o = None ->
  WeatherReqParams.maxCount o = Some n -> (0 < n)%Z ->
  (List.length (getForecasts pos ty (Some o) st now) <= Z.to_nat n)%nat.
Proof.
  intros Hdata Hall Hstart Hmax Hn. unfold getForecasts.
  destruct (Rgt_dec _ _); [simpl; lia |].
  rewrite (forecasts_from_cache_all_convert ty (Some o) st data ws
             Hdata Hall).
  unfold given_startDate. rewrite Hstart.
  apply exceeds_maxCount_bound; [assumption |]. now exists o.
Qed.

(** The observations are cut to a positive [maxCount]. *)
Lemma observations_at_most_maxCount {rt : Runtime} (pos : Position.t)
    (o : WeatherReqParams.t) (st : PluginState.t) (now : Z)
    (l : list WeatherData.t) (n : Z) :
  WeatherReqParams.maxCount o = Some n -> (0 < n)%Z ->
  getObservations pos (Some o) st now = Some l ->
  (List.length l <= Z.to_nat n)%nat.
Proof.
  intros Hmax Hn. unfold getObservations.
  destruct (observations_of _ _) as [obs |]; [| discriminate].
  pose proof (exceeds_maxCount_bound (Some o) obs n Hn
                (ex_intro _ o (conj Logic.eq_refl Hmax))) as B.
  destruct (exceeds_maxCount (Some o) obs); intros H;
    injection H as <-; exact B.
Qed.

(** An hourly entry with a [time] and no [datetime] converts, and its date
    is that instant. *)
Lemma hourly_entry_converts {rt : Runtime} (z : Z) :
  exists w,
    convertForecastToWeatherAPI (Obj [("time"%string, num (IZR z))])
                                WeatherForecastType.point = Some w
    /\ WeatherData.date w = Iso (z * 1000).
Proof.
  eexists. split; [reflexivity |].
  cbv [WeatherData.date]. now rewrite <- mult_IZR, trunc_IZR.
Qed.

(** An entry without [time] and [datetime] makes the conversion throw: the
    entries converted before it are returned as they are, start date or
    not. *)
Lemma thrown_entry_skips_filter {rt : Runtime} :
  exists w1,
    forecasts_from_cache WeatherForecastType.point
      (Some (WeatherReqParams.mk None (Some (Iso 5000000))))
      (cacheForecastData PluginState.init
         (ForecastData.mk None
            (Some (ForecastData.mkForecast
                     (Some [Obj [("time"%string, num 1000)]; Obj []])
                     None))))
    = [w1]
    /\ WeatherData.date w1 = Iso 1000000.
Proof.
  destruct (hourly_entry_converts 1000) as (w1 & E1 & D1).
  exists w1. split; [| assumption].
  unfold forecasts_from_cache.
  cbn [cacheForecastData PluginState.latestForecastData selected_entries
       ForecastData.forecast ForecastData.hourly firstn forecasts_of].
  rewrite E1. reflexivity.
Qed.

(** C2.  With the bundle of two hourly entries cached, a request at the
    station with a start date at the epoch and [maxCount = 1] gets both
    entries: two, more than [maxCount]. *)
Theorem startDate_skips_maxCount :
  WeatherReqParams.maxCount Samples.from_epoch_max_one = Some 1%Z /\
  exists w1 w2,
    getForecasts (rt := Samples.bareRuntime) Samples.origin
                 WeatherForecastType.point (Some Samples.from_epoch_max_one)
                 Samples.with_two_hours 0
    = [w1; w2]
    /\ WeatherData.date w1 = Iso 1000000
    /\ WeatherData.date w2 = Iso 2000000.
Proof.
  split; [reflexivity |].
  destruct (hourly_entry_converts (rt := Samples.bareRuntime) 1000)
    as (w1 & E1 & D1).
  destruct (hourly_entry_converts (rt := Samples.bareRuntime) 2000)
    as (w2 & E2 & D2).
  exists w1, w2. split; [| split; assumption].
  unfold getForecasts.
  rewrite calculateDistance_same by reflexivity.
  destruct (Rgt_dec 0 100000); [lra |].
  rewrite (forecasts_from_cache_all_convert _ _ _ Samples.two_hours [w1; w2]);
    [| reflexivity | repeat constructor; assumption].
  change (given_startDate (Some Samples.from_epoch_max_one))
    with (Some (Iso 0)).
  cbv [filter]. rewrite D1, D2. reflexivity.
Qed.

(** C4 as stated fails on a plugin that has fetched no forecast yet: a
    request at the station itself, at distance 0, gets the empty list. *)
Lemma no_bundle_no_forecast :
  calculateDistance Samples.origin
                    (getStationLocation PluginState.init 0) = 0
  /\ ~ 0 > 100000
  /\ getForecasts (rt := Samples.bareRuntime) Samples.origin
                  WeatherForecastType.point None PluginState.init 0 = [].
Proof.
  assert (D : calculateDistance Samples.origin
                (getStationLocation PluginState.init 0) = 0)
    by (apply calculateDistance_same; reflexivity).
  split; [assumption |]. split; [lra |].
  unfold getForecasts. rewrite D.
  destruct (Rgt_dec 0 100000); reflexivity.
Qed.

(** C4, amended.  The distance is taken between the requested position and
    the vessel position if known, else the configured location, else
    (0, 0); for latitudes between -90 and 90 it is the haversine distance
    on a sphere of radius 6371000 m.  Beyond 100000 m the result is empty
    whatever is cached; up to 100000 m, 100000 m included, the result is
    what the cache gives (possibly empty), and with no options it is the
    list of the converted entries of the requested kind. *)
Theorem forecast_distance_gate {rt : Runtime} (pos : Position.t)
    (ty : WeatherForecastType.t) (options : option WeatherReqParams.t)
    (st : PluginState.t) (now : Z) :
  let station :=
    match PluginState.currentVesselPosition st with
    | Some vessel => vessel
    | None =>
        match PluginState.stationLocation st with
        | Some configured => configured
        | None => Position.mk 0 0 (Some now)
        end
    end in
  let distance := calculateDistance pos station in
  (-90 <= Position.latitude pos <= 90 ->
   -90 <= Position.latitude station <= 90 ->
   distance = haversine_distance pos station) /\
  (distance > 100000 -> getForecasts pos ty options st now = []) /\
  (distance <= 100000 ->
   getForecasts pos ty options st now = forecasts_from_cache ty options st) /\
  (distance <= 100000 ->
   forall data ws,
     PluginState.latestForecastData st = Some data ->
     Forall2 (fun e w => convertForecastToWeatherAPI e ty = Some w)
             (selected_entries data ty) ws ->
     getForecasts pos ty None st now = ws).
Proof.
  intros station distance.
  assert (E : getStationLocation st now = station) by reflexivity.
  unfold getForecasts. rewrite E. fold distance.
  split; [| split; [| split]].
  - intros Hp Hs. now apply calculateDistance_haversine.
  - intros H. destruct (Rgt_dec distance 100000); [reflexivity | lra].
  - intros H. destruct (Rgt_dec distance 100000); [lra | reflexivity].
  - intros H data ws Hdata Hall.
    destruct (Rgt_dec distance 100000); [lra |].
    now rewrite (forecasts_from_cache_all_convert ty None st data ws
                   Hdata Hall).
Qed.

(** The gate at its edge: with the bundle of two hourly entries cached and
    the station at the origin, a request 100000.001 m to the east gets
    nothing, and one 99999.999 m to the east gets the two entries. *)
Lemma forecast_distance_gate_edge :
  getForecasts (rt := Samples.bareRuntime)
               (Samples.east_of_origin 100000.001)
               WeatherForecastType.point None Samples.with_two_hours 0 = []
  /\ exists w1 w2,
       getForecasts (rt := Samples.bareRuntime)
                    (Samples.east_of_origin 99999.999)
                    WeatherForecastType.point None Samples.with_two_hours 0
       = [w1; w2].
Proof.
  pose proof PI_RGT_0 as Hpi.
  assert (S0 : forall d, 0 <= d <= 6371000 * PI ->
            calculateDistance (Samples.east_of_origin d)
                              (Position.mk 0 0 (Some 0%Z)) = d).
  { intros d Hd. exact (calculateDistance_equator d Hd). }
  pose proof PI2_1 as Hpi2.
  destruct (forecast_distance_gate (rt := Samples.bareRuntime)
              (Samples.east_of_origin 100000.001) WeatherForecastType.point
              None Samples.with_two_hours 0) as (_ & Far & _ & _).
  destruct (forecast_distance_gate (rt := Samples.bareRuntime)
              (Samples.east_of_origin 99999.999) WeatherForecastType.point
              None Samples.with_two_hours 0) as (_ & _ & _ & Near).
  cbv [PluginState.currentVesselPosition PluginState.stationLocation
       Samples.with_two_hours cacheForecastData PluginState.init]
    in Far, Near.
  rewrite S0 in Far, Near by lra.
  split.
  - apply Far. lra.
  - destruct (hourly_entry_converts (rt := Samples.bareRuntime) 1000)
      as (w1 & E1 & _).
    destruct (hourly_entry_converts (rt := Samples.bareRuntime) 2000)
      as (w2 & E2 & _).
    exists w1, w2.
    apply Near with (data := Samples.two_hours).
    + lra.
    + reflexivity.
    + repeat constructor; assumption.
Defined.

End ProviderClaims.

(** * Further properties of the wind calculator *)

Section WindExtras.
Import WindCalculations.

Lemma while_above_shift (n : nat) :
  forall a r, while_above n a = Some r ->
    exists k : Z, r = a + 2 * PI * IZR k.
Proof.
  induction n as [| n IH]; intros a r H; [discriminate |].
  simpl in H. destruct (Rgt_dec a PI).
  - destruct (IH _ _ H) as [k ->]. exists (k - 1)%Z.
    rewrite minus_IZR. ring.
  - injection H as <-. exists 0%Z. ring.
Qed.

Lemma while_below_shift (n : nat) :
  forall a r, while_below n a = Some r ->
    exists k : Z, r = a + 2 * PI * IZR k.
Proof.
  induction n as [| n IH]; intros a r H; [discriminate |].
  simpl in H. destruct (Rlt_dec a (- PI)).
  - destruct (IH _ _ H) as [k ->]. exists (k + 1)%Z.
    rewrite plus_IZR. ring.
  - injection H as <-. exists 0%Z. ring.
Qed.

Lemma normalizeAngle_shift (fuel : nat) (a r : R) :
  normalizeAngle fuel a = Some r -> exists k : Z, r = a + 2 * PI * IZR k.
Proof.
  unfold normalizeAngle.
  destruct (while_above fuel a) as [b |] eqn:E; [| discriminate].
  intros H. destruct (while_above_shift _ _ _ E) as [k ->].
  destruct (while_below_shift _ _ _ H) as [j ->].
  exists (k + j)%Z. rewrite plus_IZR. ring.
Qed.

(** A multiple of 2 PI inside [[-PI, PI]] is 0. *)
Lemma small_multiple (k : Z) :
  - PI <= 2 * PI * IZR k <= PI -> k = 0%Z.
Proof.
  intros H. pose proof PI_RGT_0 as Hpi.
  assert (H1 : -1 < IZR k < 1) by (split; nra).
  destruct H1 as [Hl Hu].
  apply lt_IZR in Hl. apply lt_IZR in Hu. lia.
Qed.

Lemma normalizeAngle_fixed (fuel : nat) (a r : R) :
  - PI <= a <= PI -> normalizeAngle fuel a = Some r -> r = a.
Proof.
  intros Ha. unfold normalizeAngle.
  destruct fuel as [| n]; [discriminate |]. simpl.
  destruct (Rgt_dec a PI); [lra |].
  destruct (Rlt_dec a (- PI)); [lra |]. congruence.
Qed.

(** X1.  [normalizeAngle] returns for every angle; what it returns lies in
    [[-PI, PI]] and differs from the angle by a whole number of turns; an
    angle already in [[-PI, PI]] comes back unchanged. *)
Theorem normalizeAngle_turns (a : R) :
  exists fuel r,
    normalizeAngle fuel a = Some r /\
    - PI <= r <= PI /\
    (exists k : Z, r = a + 2 * PI * IZR k) /\
    (- PI <= a <= PI -> r = a).
Proof.
  destruct (normalizeAngle_total a) as (fuel & r & H & Hr).
  exists fuel, r. split; [assumption |]. split; [assumption |].
  destruct (normalizeAngle_shift _ _ _ H) as [k Hk].
  split; [now exists k |].
  intros Ha. now apply (normalizeAngle_fixed fuel).
Qed.

(** *** The polar form of [atan2] *)

Lemma hypot_split (x y : R) :
  x <> 0 ->
  sqrt (x * x + y * y) = Rabs x * sqrt (1 + (y / x)²).
Proof.
  intros Hx.
  replace (x * x + y * y) with (x * x * (1 + (y / x)²))
    by (unfold Rsqr; field; assumption).
  rewrite sqrt_mult; [| nra | unfold Rsqr; nra].
  f_equal. apply sqrt_Rsqr_abs.
Qed.

Lemma root_pos (z : R) : 0 < sqrt (1 + z²).
Proof. apply sqrt_lt_R0. unfold Rsqr. nra. Qed.

(** The cosine and sine of [atan2 (y, x)], scaled by the length of
    [(x, y)], are [x] and [y]. *)
Lemma atan2_polar_form (x y : R) :
  sqrt (x * x + y * y) * cos (JS.atan2 y x) = x /\
  sqrt (x * x + y * y) * sin (JS.atan2 y x) = y.
Proof.
  unfold JS.atan2.
  destruct (Rlt_dec 0 x) as [Hx | Hx].
  - rewrite hypot_split by lra. rewrite Rabs_pos_eq by lra.
    rewrite cos_atan, sin_atan. pose proof (root_pos (y / x)).
    split; field; lra.
  - destruct (Rlt_dec x 0) as [Hx' | Hx'].
    + rewrite hypot_split by lra. rewrite Rabs_left by lra.
      pose proof (root_pos (y / x)).
      destruct (Rle_dec 0 y).
      * rewrite neg_cos, neg_sin, cos_atan, sin_atan. split; field; lra.
      * unfold Rminus. rewrite cos_plus, sin_plus, cos_neg, sin_neg,
          cos_PI, sin_PI, cos_atan, sin_atan.
        split; field; lra.
    + assert (x = 0) by lra. subst x.
      replace (0 * 0 + y * y) with (y * y) by ring.
      destruct (Rlt_dec 0 y) as [Hy | Hy].
      * rewrite sqrt_square by lra. rewrite cos_PI2, sin_PI2. lra.
      * destruct (Rlt_dec y 0) as [Hy' | Hy'].
        -- replace (y * y) with ((- y) * (- y)) by ring.
           rewrite sqrt_square by lra.
           rewrite cos_neg, sin_neg, cos_PI2, sin_PI2. lra.
        -- assert (y = 0) by lra. subst y.
           rewrite Rmult_0_l, sqrt_0. lra.
Qed.

Lemma toCompassBearing_direction (r : R) :
  cos (toCompassBearing r) = cos r /\ sin (toCompassBearing r) = sin r.
Proof.
  unfold toCompassBearing. destruct (Rlt_dec r 0); [| tauto].
  rewrite cos_plus, sin_plus, cos_2PI, sin_2PI. split; ring.
Qed.

(** X2.  The true wind speed and bearing that are published are the polar
    form of the vector sum of the apparent wind and the vessel's velocity:
    speed times the cosine and sine of the bearing give back the two
    components of the sum, and the speed is not negative. *)
Theorem true_wind_is_polar_form (w : WindCalculations.t)
    (a : ApparentWindData.t) :
  (exists d, returns w a d) /\
  (forall d, returns w a d ->
     DerivedWindValues.speedTrue d * cos (DerivedWindValues.directionTrue d)
     = Wx w a /\
     DerivedWindValues.speedTrue d * sin (DerivedWindValues.directionTrue d)
     = Wy w a /\
     0 <= DerivedWindValues.speedTrue d).
Proof.
  split; [apply calculateDerivedWindValues_total |].
  intros d Hd. destruct (returns_fields w a d Hd) as [fuel F].
  rewrite (f_speedTrue _ _ _ _ F), (f_directionTrue _ _ _ _ F).
  destruct (toCompassBearing_direction (JS.atan2 (Wy w a) (Wx w a)))
    as [-> ->].
  destruct (atan2_polar_form (Wx w a) (Wy w a)) as [Hc Hs].
  repeat split; trivial. apply sqrt_pos.
Qed.

(** X3.  The true wind speed lies between the difference and the sum of
    the apparent wind speed and the effective speed over ground. *)
Theorem true_wind_speed_triangle (w : WindCalculations.t)
    (a : ApparentWindData.t) :
  (exists d, returns w a d) /\
  (forall d, returns w a d ->
     Rabs (Rabs (ApparentWindData.windSpeed a) - Rabs (effectiveSOG w))
     <= DerivedWindValues.speedTrue d
     <= Rabs (ApparentWindData.windSpeed a) + Rabs (effectiveSOG w)).
Proof.
  split; [apply calculateDerivedWindValues_total |].
  intros d Hd. destruct (returns_fields w a d Hd) as [fuel F].
  rewrite (f_speedTrue _ _ _ _ F). unfold Wx, Wy.
  set (s := ApparentWindData.windSpeed a).
  set (v := effectiveSOG w).
  set (b := ApparentWindData.apparentTrueRad a).
  set (h := effectiveHeadingTrueRad w).
  pose proof (sin2_cos2 b) as Hb. pose proof (sin2_cos2 h) as Hh.
  unfold Rsqr in Hb, Hh.
  pose proof (COS_bound (b - h)) as Hc. rewrite cos_minus in Hc.
  set (c := cos b * cos h + sin b * sin h) in *.
  assert (E : (s * cos b + v * cos h) * (s * cos b + v * cos h)
              + (s * sin b + v * sin h) * (s * sin b + v * sin h)
              = s * s + v * v + 2 * s * v * c) by (unfold c; nra).
  rewrite E.
  assert (Hs : 0 <= Rabs s) by apply Rabs_pos.
  assert (Hv : 0 <= Rabs v) by apply Rabs_pos.
  assert (Hss : Rabs s * Rabs s = s * s)
    by (unfold Rabs; destruct (Rcase_abs s); ring).
  assert (Hvv : Rabs v * Rabs v = v * v)
    by (unfold Rabs; destruct (Rcase_abs v); ring).
  assert (Hsv : - (Rabs s * Rabs v) <= s * v * c <= Rabs s * Rabs v).
  { rewrite <- Rabs_mult. generalize (s * v). intros p.
    unfold Rabs. destruct (Rcase_abs p); split; nra. }
  split.
  - rewrite <- sqrt_Rsqr_abs. apply sqrt_le_1_alt. unfold Rsqr. nra.
  - rewrite <- (sqrt_square (Rabs s + Rabs v)) by lra.
    apply sqrt_le_1_alt. nra.
Qed.

(** X4.  The heat index is non-null exactly when the air temperature in
    Fahrenheit is at least 80 and the humidity at least 40; it is then the
    regression polynomial, brought back to Celsius, plus 273.15.  At 26.6 C
    it is null whatever the humidity; at 26.7 C it is non-null with
    humidity 40 and null with humidity 39. *)
Theorem heat_index_guard (w : WindCalculations.t) (a : ApparentWindData.t) :
  (exists d, returns w a d) /\
  (forall d, returns w a d ->
     let T := airTemp w * 9 / 5 + 32 in
     let H := humidity w in
     (DerivedWindValues.heatIndex d <> None <-> T >= 80 /\ H >= 40) /\
     (T >= 80 -> H >= 40 ->
      DerivedWindValues.heatIndex d =
        Some ((- 42.379 + 2.04901523 * T + 10.14333127 * H
               - 0.22475541 * T * H - 0.00683783 * T * T
               - 0.05481717 * H * H + 0.00122874 * T * T * H
               + 0.00085282 * T * H * H - 0.00000199 * T * T * H * H
               - 32) * 5 / 9 + 273.15)) /\
     (airTemp w = 26.6 -> DerivedWindValues.heatIndex d = None) /\
     (airTemp w = 26.7 -> H = 40 -> DerivedWindValues.heatIndex d <> None) /\
     (airTemp w = 26.7 -> H = 39 -> DerivedWindValues.heatIndex d = None)).
Proof.
  split; [apply calculateDerivedWindValues_total |].
  intros d Hd T H. destruct (returns_fields w a d Hd) as [fuel F].
  rewrite (f_heatIndex _ _ _ _ F). unfold heatIndexK. fold T H.
  destruct (Rge_dec T 80) as [HT | HT];
    destruct (Rge_dec H 40) as [HH | HH];
    repeat split; intros; try discriminate; try tauto; try reflexivity;
    unfold T in *; try lra.
Qed.

(** X5.  The feels-like temperature by band: with an air temperature of at
    most 10 and more than 4.8 km/h of true wind it is the published wind
    chill; with an air temperature of at least 27 and a humidity of at
    least 40 it is the published heat index; in every other case it is the
    stored air temperature itself, also between 26.67 and 27 where a heat
    index is published. *)
Theorem feelsLike_by_band (w : WindCalculations.t) (a : ApparentWindData.t) :
  (exists d, returns w a d) /\
  (forall d, returns w a d ->
     let T := airTemp w in
     let V := DerivedWindValues.speedTrue d * 3.6 in
     let H := humidity w in
     (T <= 10 -> V > 4.8 ->
      DerivedWindValues.windChill d = Some (DerivedWindValues.feelsLike d)) /\
     (T >= 27 -> H >= 40 ->
      DerivedWindValues.heatIndex d = Some (DerivedWindValues.feelsLike d)) /\
     (~ (T <= 10 /\ V > 4.8) -> ~ (T >= 27 /\ H >= 40) ->
      DerivedWindValues.feelsLike d = T) /\
     (T * 9 / 5 + 32 >= 80 -> T < 27 -> H >= 40 ->
      DerivedWindValues.heatIndex d <> None /\
      DerivedWindValues.feelsLike d = T)).
Proof.
  split; [apply calculateDerivedWindValues_total |].
  intros d Hd T V H. destruct (returns_fields w a d Hd) as [fuel F].
  rewrite (f_feelsLike _ _ _ _ F), (f_windChill _ _ _ _ F),
    (f_heatIndex _ _ _ _ F).
  fold T V H. unfold feelsLikeK, windChillK, heatIndexK.
  destruct (Rle_dec T 10) as [H10 | H10];
    destruct (Rgt_dec V 4.8) as [HV | HV];
    destruct (Rge_dec (T * 9 / 5 + 32) 80) as [H80 | H80];
    destruct (Rge_dec H 40) as [H40 | H40];
    destruct (Rge_dec T 27) as [H27 | H27];
    repeat split; intros; try reflexivity; try discriminate; try lra;
    tauto.
Qed.

(** X6.  A navigation update on a path the calculator does not know is
    ignored; two updates on the same path leave the later value; updates
    on two different paths can be swapped. *)
Theorem updateNavigationData_order (w : WindCalculations.t)
    (p q : string) (x y : R) :
  (~ In p ["navigation.headingTrue"; "navigation.headingMagnetic";
           "navigation.courseOverGroundMagnetic";
           "navigation.speedOverGround";
           "environment.outside.tempest.observations.airTemperature";
           "environment.outside.tempest.observations.relativeHumidity"]%string
   -> updateNavigationData w p x = w) /\
  updateNavigationData (updateNavigationData w p x) p y
  = updateNavigationData w p y /\
  (p <> q ->
   updateNavigationData (updateNavigationData w p x) q y
   = updateNavigationData (updateNavigationData w q y) p x).
Proof.
  destruct w as [hT hM cog sog at_ hum anc ab].
  unfold updateNavigationData.
  cbn [headingTrue headingMagnetic courseOverGroundMagnetic speedOverGround
       airTemp humidity anchorSet anchorApparentBearing].
  split; [| split].
  - intros N. cbn [In] in N.
    repeat match goal with
           | |- context [String.eqb p ?l] =>
               destruct (String.eqb_spec p l);
               [exfalso; apply N; subst p; auto 10 |]
           end.
    reflexivity.
  - repeat match goal with
           | |- context [String.eqb p ?l] =>
               destruct (String.eqb_spec p l);
               [subst p; reflexivity |]
           end.
    reflexivity.
  - intros Hpq.
    repeat match goal with
           | |- context [String.eqb p ?l] =>
               destruct (String.eqb_spec p l)
           end;
    repeat match goal with
           | |- context [String.eqb q ?l] =>
               destruct (String.eqb_spec q l)
           end;
    subst; try congruence; try reflexivity.
Qed.

(** *** The remainder by 360 *)

Lemma rem_360_spec (x : R) :
  (exists k : Z, JS.rem x 360 = x - 360 * IZR k) /\
  (0 <= x -> 0 <= JS.rem x 360 < 360) /\
  (x <= 0 -> - 360 < JS.rem x 360 <= 0).
Proof.
  unfold JS.rem, JS.trunc.
  destruct (Rle_dec 0 (x / 360)) as [Hq | Hq].
  - destruct (base_Int_part (x / 360)) as [B1 B2].
    split; [eexists; reflexivity |]. split; intros Hx.
    + split; lra.
    + assert (E : x / 360 = 0) by lra.
      rewrite E. rewrite (Int_part_IZR 0).
      split; lra.
  - destruct (base_Int_part (- (x / 360))) as [B1 B2].
    rewrite opp_IZR.
    split; [exists (- Int_part (- (x / 360)))%Z; now rewrite opp_IZR |].
    split; intros Hx; [lra |]. split; lra.
Qed.

(** X7.  The absolute bearings of the apparent wind are the heading plus
    the vane angle, in degrees, less a whole number of turns; they lie
    strictly between -360 and 360, are not negative when the sum is not,
    and are not positive when the sum is negative.  The radian fields are
    the degree fields converted. *)
Theorem apparent_bearing_range (w : WindCalculations.t)
    (windData : WindInput.t) :
  let a := calculateApparentWind w windData in
  let sumTrue := radToDeg (headingTrue w) + WindInput.windDirection windData in
  let sumMagnetic :=
    radToDeg (headingMagnetic w) + WindInput.windDirection windData in
  (exists k : Z, ApparentWindData.apparentTrueDeg a = sumTrue - 360 * IZR k) /\
  (exists k : Z,
     ApparentWindData.apparentMagneticDeg a = sumMagnetic - 360 * IZR k) /\
  - 360 < ApparentWindData.apparentTrueDeg a < 360 /\
  - 360 < ApparentWindData.apparentMagneticDeg a < 360 /\
  (0 <= sumTrue -> 0 <= ApparentWindData.apparentTrueDeg a) /\
  (sumTrue < 0 -> ApparentWindData.apparentTrueDeg a <= 0) /\
  ApparentWindData.apparentTrueRad a
  = degToRad (ApparentWindData.apparentTrueDeg a) /\
  ApparentWindData.apparentMagneticRad a
  = degToRad (ApparentWindData.apparentMagneticDeg a).
Proof.
  intros a sumTrue sumMagnetic.
  unfold a, calculateApparentWind.
  cbn [ApparentWindData.apparentTrueDeg ApparentWindData.apparentMagneticDeg
       ApparentWindData.apparentTrueRad ApparentWindData.apparentMagneticRad].
  fold sumTrue sumMagnetic.
  destruct (rem_360_spec sumTrue) as (K1 & P1 & N1).
  destruct (rem_360_spec sumMagnetic) as (K2 & P2 & N2).
  repeat split; trivial;
    try (destruct (Rle_dec 0 sumTrue); lra);
    try (destruct (Rle_dec 0 sumMagnetic); lra).
Qed.

Lemma degToRad_radToDeg (r : R) : degToRad (radToDeg r) = r.
Proof. unfold degToRad, radToDeg. field. apply PI_neq0. Qed.

(** X8.  When no anchor is set and the vane angle is between -180 and 180
    degrees, the apparent wind angle that is published is the vane angle
    in radians, whatever the heading; for a vane angle of 0, where the code
    falls back on the difference between the apparent bearing and the
    heading, it is 0 all the same. *)
Theorem angleApparent_is_vane_angle (w : WindCalculations.t)
    (windData : WindInput.t) :
  anchorSet w = false ->
  - 180 <= WindInput.windDirection windData <= 180 ->
  (exists d, returns w (calculateApparentWind w windData) d) /\
  (forall d, returns w (calculateApparentWind w windData) d ->
     DerivedWindValues.angleApparent d
     = degToRad (WindInput.windDirection windData)).
Proof.
  intros Hanchor Hdir. pose proof PI_RGT_0 as Hpi.
  split; [apply calculateDerivedWindValues_total |].
  intros d Hd. destruct (returns_fields _ _ d Hd) as [fuel F].
  pose proof (f_angleApparent _ _ _ _ F) as E.
  set (dir := WindInput.windDirection windData) in *.
  assert (Hrange : - PI <= degToRad dir <= PI)
    by (unfold degToRad; split; nra).
  unfold JS.or, JS.truthy in E.
  change (ApparentWindData.windAngleRelativeRad
            (calculateApparentWind w windData))
    with (degToRad dir) in E.
  destruct (Req_dec_T (degToRad dir) 0) as [Hzero | Hnz].
  - rewrite Hzero.
    destruct (normalizeAngle_shift _ _ _ E) as [j Hj].
    pose proof (normalizeAngle_range _ _ _ E) as Hr.
    change (ApparentWindData.apparentTrueRad
              (calculateApparentWind w windData))
      with (degToRad (JS.rem (radToDeg (headingTrue w) + dir) 360)) in Hj.
    destruct (rem_360_spec (radToDeg (headingTrue w) + dir))
      as ([k Hk] & _).
    rewrite Hk in Hj. unfold effectiveHeadingTrueRad in Hj.
    rewrite Hanchor in Hj.
    assert (Hd0 : dir = 0) by (unfold degToRad in Hzero; nra).
    assert (Hj' : DerivedWindValues.angleApparent d
                  = 2 * PI * IZR (j - k)).
    { rewrite Hj, minus_IZR, Hd0. unfold degToRad, radToDeg. field. lra. }
    rewrite Hj' in Hr. apply small_multiple in Hr.
    rewrite Hj', Hr. ring.
  - now apply (normalizeAngle_fixed fuel).
Qed.

Lemma angleApparent_is_vane_angle_witness :
  exists d, returns mild_day bow_wind d /\
            DerivedWindValues.angleApparent d = degToRad 0.
Proof.
  destruct (angleApparent_is_vane_angle mild_day (WindInput.mk 5 0 None))
    as [[d Hd] Hall].
  - reflexivity.
  - simpl. lra.
  - exists d. split; [exact Hd |]. exact (Hall d Hd).
Defined.

(** X9.  [createWindDeltas] publishes the seven wind values, then the wind
    chill and the heat index when they are not null, then the feels-like
    temperature: between eight and ten values, never a null one, each in
    a delta of its own on vessels.self that carries the source and the
    timestamp of the derived values. *)
Theorem createWindDeltas_entries (d : DerivedWindValues.t)
    (timestamp : JS.value) (source : string) :
  SignalKDelta.entries (WindDeltas.createWindDeltas d timestamp source)
  = (map (fun '(path, x) => (path, JS.num x)) (WindDeltas.windPaths d)
     ++ match DerivedWindValues.windChill d with
        | Some x =>
            [("environment.outside.tempest.observations.windChill"%string,
              JS.num x)]
        | None => []
        end
     ++ match DerivedWindValues.heatIndex d with
        | Some x =>
            [("environment.outside.tempest.observations.heatIndex"%string,
              JS.num x)]
        | None => []
        end
     ++ [("environment.outside.tempest.observations.feelsLike"%string,
          JS.num (DerivedWindValues.feelsLike d))])%list
  /\ (8 <= List.length (WindDeltas.createWindDeltas d timestamp source)
      <= 10)%nat
  /\ Forall (fun delta =>
               SignalKDelta.context delta = "vessels.self"%string /\
               exists path value,
                 SignalKDelta.updates delta
                 = [SignalKUpdate.mk (Some source) timestamp
                      [SignalKValue.mk path value] None])
            (WindDeltas.createWindDeltas d timestamp source).
Proof.
  unfold WindDeltas.createWindDeltas, WindDeltas.windPaths,
    WindDeltas.tempestPaths, SignalKDelta.single.
  destruct (DerivedWindValues.windChill d),
    (DerivedWindValues.heatIndex d); cbn -[JS.num];
    (split; [reflexivity |]); (split; [lia |]);
    repeat constructor; do 2 eexists; reflexivity.
Qed.

(** X26.  The wind chill and the heat index are never both computed: the
    first needs an air temperature of at most 10, the second one of about
    26.7 at least.  So the deltas made from the derived values are eight
    when both are null, and nine otherwise. *)
Theorem wind_deltas_eight_or_nine (w : WindCalculations.t)
    (a : ApparentWindData.t) :
  (exists d, returns w a d) /\
  (forall d timestamp source, returns w a d ->
     (DerivedWindValues.windChill d = None
      \/ DerivedWindValues.heatIndex d = None)
     /\ (List.length (WindDeltas.createWindDeltas d timestamp source)
         = if match DerivedWindValues.windChill d,
                    DerivedWindValues.heatIndex d with
              | None, None => true
              | _, _ => false
              end
           then 8 else 9)%nat).
Proof.
  split; [apply calculateDerivedWindValues_total |].
  intros d timestamp source Hd.
  destruct (returns_fields w a d Hd) as [fuel F].
  pose proof (f_windChill _ _ _ _ F) as Ec.
  pose proof (f_heatIndex _ _ _ _ F) as Eh.
  assert (N : DerivedWindValues.windChill d = None
              \/ DerivedWindValues.heatIndex d = None).
  { rewrite Ec, Eh. unfold windChillK, heatIndexK.
    destruct (Rle_dec (airTemp w) 10);
      destruct (Rge_dec (airTemp w * 9 / 5 + 32) 80);
      try lra; cbn [andb];
      repeat match goal with
             | |- context [if ?c then _ else _] => destruct c
             end; auto. }
  split; [exact N |].
  unfold WindDeltas.createWindDeltas, WindDeltas.windPaths,
    WindDeltas.tempestPaths.
  destruct (DerivedWindValues.windChill d),
    (DerivedWindValues.heatIndex d); [destruct N; discriminate | | |];
    reflexivity.
Qed.

End WindExtras.

(** ** Source labels *)

Section SourceLabels.
Import JS SourceName.
Local Open Scope string_scope.

Lemma dash_char (c : ascii) : is_dash c = true -> c = "-"%char.
Proof. unfold is_dash. intros H. now apply Ascii.eqb_eq in H. Qed.

Lemma dash_not_plain (c : ascii) : is_dash c = true -> plain c = false.
Proof. intros H. apply dash_char in H. subst c. reflexivity. Qed.

Lemma plain_lower (c : ascii) : plain c = true -> lower c = c.
Proof.
  destruct c as [[] [] [] [] [] [] [] []]; vm_compute;
    intros H; first [reflexivity | discriminate H].
Qed.

Lemma dash_others_plain (s : string) :
  only_plain_or_dash (dash_others s) = true.
Proof.
  induction s as [| c s IH]; [reflexivity |].
  cbn [dash_others only_plain_or_dash]. rewrite IH.
  destruct (plain c) eqn:E; [now rewrite E | reflexivity].
Qed.

Lemma squeeze_head (s : string) :
  no_leading_dash (squeeze s) = no_leading_dash s.
Proof.
  induction s as [| c s IH]; [reflexivity |].
  cbn [squeeze]. destruct (is_dash c) eqn:Ec.
  - destruct s as [| c' s']; [cbn; now rewrite Ec |].
    destruct (is_dash c') eqn:Ec'.
    + rewrite IH. cbn. now rewrite Ec, Ec'.
    + cbn [no_leading_dash]. reflexivity.
  - reflexivity.
Qed.

Lemma squeeze_plain (s : string) :
  only_plain_or_dash s = true -> only_plain_or_dash (squeeze s) = true.
Proof.
  induction s as [| c s IH]; [reflexivity |].
  cbn [only_plain_or_dash]. intros H.
  apply andb_true_iff in H as [Hc Hs]. specialize (IH Hs).
  cbn [squeeze]. destruct (is_dash c) eqn:Ec.
  - destruct s as [| c' s'];
      [cbn [only_plain_or_dash]; now rewrite Ec, orb_true_r |].
    destruct (is_dash c'); [exact IH |].
    cbn [only_plain_or_dash] in *. now rewrite Ec, orb_true_r, IH.
  - cbn [only_plain_or_dash] in *. now rewrite Ec, Hc, IH.
Qed.

Lemma no_double_dash_cons (c : ascii) (s : string) :
  no_double_dash (String c s)
  = negb (is_dash c && negb (no_leading_dash s)) && no_double_dash s.
Proof.
  destruct s as [| c' s']; cbn.
  - now rewrite andb_false_r.
  - now rewrite negb_involutive.
Qed.

Lemma squeeze_no_double (s : string) : no_double_dash (squeeze s) = true.
Proof.
  induction s as [| c s IH]; [reflexivity |].
  cbn [squeeze]. destruct (is_dash c) eqn:Ec.
  - destruct s as [| c' s']; [reflexivity |].
    destruct (is_dash c') eqn:Ec'; [exact IH |].
    rewrite no_double_dash_cons, IH, squeeze_head. cbn [no_leading_dash].
    rewrite Ec'. now rewrite andb_false_r.
  - rewrite no_double_dash_cons, IH, Ec. reflexivity.
Qed.

Lemma strip_leading_keeps (s : string) :
  only_plain_or_dash s = true -> no_double_dash s = true ->
  only_plain_or_dash (strip_leading s) = true
  /\ no_double_dash (strip_leading s) = true
  /\ no_leading_dash (strip_leading s) = true.
Proof.
  induction s as [| c s IH]; [now repeat split |].
  intros Hp Hd. cbn [strip_leading]. destruct (is_dash c) eqn:Ec.
  - apply IH.
    + cbn [only_plain_or_dash] in Hp. now apply andb_true_iff in Hp.
    + rewrite no_double_dash_cons in Hd. now apply andb_true_iff in Hd.
  - repeat split; trivial. cbn. now rewrite Ec.
Qed.

(** What [strip_trailing] returns is empty or starts as its argument. *)
Lemma strip_trailing_head (s : string) :
  strip_trailing s = EmptyString
  \/ exists c r r', s = String c r /\ strip_trailing s = String c r'.
Proof.
  destruct s as [| c s]; [now left |].
  cbn [strip_trailing]. destruct (strip_trailing s) as [| c' t].
  - destruct (is_dash c); [now left | right; eauto].
  - right; eauto.
Qed.

Lemma strip_trailing_leading (s : string) :
  no_leading_dash s = true -> no_leading_dash (strip_trailing s) = true.
Proof.
  intros H. destruct (strip_trailing_head s) as [-> | (c & r & r' & -> & ->)];
    [reflexivity | exact H].
Qed.

Lemma strip_trailing_keeps (s : string) :
  only_plain_or_dash s = true -> no_double_dash s = true ->
  only_plain_or_dash (strip_trailing s) = true
  /\ no_double_dash (strip_trailing s) = true
  /\ no_trailing_dash (strip_trailing s) = true.
Proof.
  induction s as [| c s IH]; [now repeat split |].
  intros Hp Hd. cbn [only_plain_or_dash] in Hp.
  apply andb_true_iff in Hp as [Hc Hs].
  rewrite no_double_dash_cons in Hd. apply andb_true_iff in Hd as [Hcd Hds].
  destruct (IH Hs Hds) as (I1 & I2 & I3).
  cbn [strip_trailing].
  destruct (strip_trailing_head s) as [E | (c' & r & r' & -> & E)];
    rewrite E in *.
  - destruct (is_dash c) eqn:Ec; [now repeat split |].
    split; [| split].
    + cbn [only_plain_or_dash]. now rewrite Ec, Hc.
    + reflexivity.
    + cbn [no_trailing_dash]. now rewrite Ec.
  - repeat split.
    + change ((plain c || is_dash c)
              && only_plain_or_dash (String c' r') = true).
      now rewrite Hc, I1.
    + rewrite no_double_dash_cons, I2.
      cbn [no_leading_dash] in *. now rewrite Hcd.
    + exact I3.
Qed.

Lemma formatSourceName_props (name : string) :
  only_plain_or_dash (formatSourceName name) = true
  /\ no_double_dash (formatSourceName name) = true
  /\ no_leading_dash (formatSourceName name) = true
  /\ no_trailing_dash (formatSourceName name) = true.
Proof.
  unfold formatSourceName.
  set (s := dash_others (toLowerCase name)).
  pose proof (dash_others_plain (toLowerCase name)) as P0. fold s in P0.
  pose proof (squeeze_plain s P0) as P1.
  pose proof (squeeze_no_double s) as D1.
  destruct (strip_leading_keeps _ P1 D1) as (P2 & D2 & L2).
  destruct (strip_trailing_keeps _ P2 D2) as (P3 & D3 & T3).
  repeat split; trivial. now apply strip_trailing_leading.
Qed.

(** On a name that is already in the form, each step is the identity. *)
Lemma toLowerCase_fixed (s : string) :
  only_plain_or_dash s = true -> toLowerCase s = s.
Proof.
  induction s as [| c s IH]; [reflexivity |].
  cbn [only_plain_or_dash toLowerCase]. intros H.
  apply andb_true_iff in H as [Hc Hs]. rewrite (IH Hs). f_equal.
  apply orb_true_iff in Hc as [Hc | Hc]; [now apply plain_lower |].
  apply dash_char in Hc. now subst c.
Qed.

Lemma dash_others_fixed (s : string) :
  only_plain_or_dash s = true -> dash_others s = s.
Proof.
  induction s as [| c s IH]; [reflexivity |].
  cbn [only_plain_or_dash dash_others]. intros H.
  apply andb_true_iff in H as [Hc Hs]. rewrite (IH Hs). f_equal.
  destruct (plain c) eqn:E; [reflexivity |].
  cbn in Hc. apply dash_char in Hc. now subst c.
Qed.

Lemma squeeze_fixed (s : string) : no_double_dash s = true -> squeeze s = s.
Proof.
  induction s as [| c s IH]; [reflexivity |].
  intros H. pose proof H as H'. rewrite no_double_dash_cons in H'.
  apply andb_true_iff in H' as [Hc Hs]. cbn [squeeze]. rewrite (IH Hs).
  destruct (is_dash c) eqn:Ec; [| reflexivity].
  destruct s as [| c' s']; [reflexivity |].
  cbn [no_leading_dash] in Hc. rewrite negb_involutive in Hc.
  cbn [andb] in Hc. destruct (is_dash c'); [discriminate | reflexivity].
Qed.

Lemma strip_leading_fixed (s : string) :
  no_leading_dash s = true -> strip_leading s = s.
Proof.
  destruct s as [| c s]; [reflexivity |]. cbn. intros H.
  destruct (is_dash c); [discriminate | reflexivity].
Qed.

Lemma strip_trailing_fixed (s : string) :
  no_trailing_dash s = true -> strip_trailing s = s.
Proof.
  induction s as [| c s IH]; [reflexivity |].
  destruct s as [| c' s'].
  - cbn. intros H. destruct (is_dash c); [discriminate | reflexivity].
  - intros H. change (no_trailing_dash (String c' s') = true) in H.
    change (strip_trailing (String c (String c' s')))
      with (match strip_trailing (String c' s') with
            | EmptyString =>
                if is_dash c then EmptyString else String c EmptyString
            | r => String c r
            end).
    now rewrite (IH H).
Qed.

Lemma formatSourceName_fixed (name : string) :
  well_formed name = true -> formatSourceName name = name.
Proof.
  unfold well_formed. intros H.
  apply andb_true_iff in H as [H Ht]. apply andb_true_iff in H as [H Hl].
  apply andb_true_iff in H as [Hp Hd].
  unfold formatSourceName.
  now rewrite toLowerCase_fixed, dash_others_fixed, squeeze_fixed,
    strip_leading_fixed, strip_trailing_fixed.
Qed.

(** X10.  What [formatSourceName] returns has only lower-case letters,
    digits and dashes, with no dash at either end and no two dashes in a
    row; a name already of that form is returned as it is, so formatting
    twice changes nothing more. *)
Theorem formatSourceName_normal_form (name : string) :
  well_formed (formatSourceName name) = true
  /\ (well_formed name = true -> formatSourceName name = name)
  /\ formatSourceName (formatSourceName name) = formatSourceName name.
Proof.
  assert (W : forall n, well_formed (formatSourceName n) = true).
  { intros n. destruct (formatSourceName_props n) as (P & D & L & T).
    unfold well_formed. now rewrite P, D, L, T. }
  split; [apply W |]. split; [apply formatSourceName_fixed |].
  apply formatSourceName_fixed, W.
Qed.

Lemma all_dash_squeeze (s : string) :
  no_alnum s = true -> s <> EmptyString ->
  squeeze (dash_others (toLowerCase s)) = "-".
Proof.
  induction s as [| c s IH]; [congruence |].
  cbn [no_alnum]. intros H _. apply andb_true_iff in H as [Hc Hs].
  apply negb_true_iff in Hc.
  cbn [toLowerCase dash_others]. rewrite Hc.
  destruct s as [| c' s']; [reflexivity |].
  specialize (IH Hs ltac:(discriminate)).
  cbn [no_alnum] in Hs. apply andb_true_iff in Hs as [Hc' _].
  apply negb_true_iff in Hc'.
  cbn [toLowerCase dash_others] in *. rewrite Hc' in *.
  change (squeeze (String "-" (String "-" ?r)))
    with (squeeze (String "-" r)).
  exact IH.
Qed.

(** X11.  The source label is the formatted prefix, then "-weatherflow-",
    then the suffix.  With no name, or a name of white space only, the
    plugin's copy uses the prefix "signalk" and the class's copy
    "zennora"; with any other name the two copies agree; and a name that
    has no letter and no digit leaves an empty prefix, so that the label
    starts with a dash. *)
Theorem getVesselBasedSource_prefix (name : option string)
    (suffix : string) :
  (match name with Some n => blank n = true | None => True end ->
   getVesselBasedSource name suffix = "signalk-weatherflow-" ++ suffix
   /\ getVesselBasedSource_class name suffix
      = "zennora-weatherflow-" ++ suffix)
  /\ (forall n, name = Some n -> blank n = false ->
      getVesselBasedSource name suffix
      = formatSourceName n ++ "-weatherflow-" ++ suffix
      /\ getVesselBasedSource_class name suffix
         = getVesselBasedSource name suffix)
  /\ (forall n, name = Some n -> blank n = false -> no_alnum n = true ->
      getVesselBasedSource name suffix = "-weatherflow-" ++ suffix).
Proof.
  unfold getVesselBasedSource, getVesselBasedSource_class, prefix_or.
  split; [| split].
  - destruct name as [n |]; [intros -> |]; now split.
  - intros n -> ->. now split.
  - intros n -> Hb Hn. rewrite Hb. cbn [negb].
    unfold formatSourceName. rewrite all_dash_squeeze; trivial.
    intros ->. discriminate Hb.
Qed.

End SourceLabels.

(** ** The two camel-case converters *)

Section CamelCase.
Import JS Plugin Ingest.
Local Open Scope string_scope.

Lemma string_ind2 (P : string -> Prop) :
  P "" -> (forall c, P (String c "")) ->
  (forall c c' s, P s -> P (String c' s) -> P (String c (String c' s))) ->
  forall s, P s.
Proof.
  intros H0 H1 H2 s.
  enough (H : P s /\ forall c, P (String c s)) by apply H.
  induction s as [| c' s [IH IH']].
  - split; [exact H0 | exact H1].
  - split; [apply IH' |]. intros c. apply H2; [exact IH | apply IH'].
Qed.

Lemma toCamelCase_cons2 (c c' : ascii) (r : string) :
  toCamelCase (String c (String c' r))
  = if Ascii.eqb c "_" then
      if is_lower c' then String (upper c') (toCamelCase r)
      else String c (toCamelCase (String c' r))
    else String c (toCamelCase (String c' r)).
Proof. reflexivity. Qed.

Lemma snakeToCamel_cons2 (c c' : ascii) (r : string) :
  snakeToCamel (String c (String c' r))
  = if Ascii.eqb c "_" then
      if is_lower c' || is_digit c' then String (upper c') (snakeToCamel r)
      else String c (snakeToCamel (String c' r))
    else String c (snakeToCamel (String c' r)).
Proof. reflexivity. Qed.

Lemma snakeToCamel_cons (c : ascii) (t : string) :
  (Ascii.eqb c "_" && starts_alnum t) = false ->
  snakeToCamel (String c t) = String c (snakeToCamel t).
Proof.
  destruct t as [| c' r].
  - intros _. cbn. now destruct (Ascii.eqb c "_").
  - rewrite snakeToCamel_cons2. cbn [starts_alnum].
    destruct (Ascii.eqb c "_"); [| reflexivity].
    cbn [andb]. now intros ->.
Qed.

Lemma upper_lower_char (c : ascii) :
  is_lower c = true ->
  Ascii.eqb (upper c) "_" = false
  /\ (is_lower (upper c) || is_digit (upper c)) = false.
Proof.
  destruct c as [[] [] [] [] [] [] [] []]; vm_compute;
    intros H; first [discriminate H | now split].
Qed.

Lemma digit_char (c : ascii) :
  is_digit c = true -> Ascii.eqb c "_" = false /\ is_lower c = false.
Proof.
  destruct c as [[] [] [] [] [] [] [] []]; vm_compute;
    intros H; first [discriminate H | now split].
Qed.

Lemma underscore_char :
  (is_lower "_" || is_digit "_") = false.
Proof. reflexivity. Qed.

(** After [toCamelCase], a string whose first character is neither a
    lower-case letter nor a digit still starts with such a character. *)
Lemma toCamelCase_head (c : ascii) (r : string) :
  (is_lower c || is_digit c) = false ->
  starts_alnum (toCamelCase (String c r)) = false.
Proof.
  intros Hc. destruct r as [| c' r'].
  - cbn [toCamelCase]. destruct (Ascii.eqb c "_"); exact Hc.
  - rewrite toCamelCase_cons2.
    destruct (Ascii.eqb c "_"); [| exact Hc].
    destruct (is_lower c') eqn:El; [| exact Hc].
    cbn [starts_alnum]. now apply upper_lower_char.
Qed.

Lemma underscore_digit_tail (c : ascii) (s : string) :
  underscore_digit (String c s) = false -> underscore_digit s = false.
Proof.
  destruct s as [| c' s']; [reflexivity |].
  change (underscore_digit (String c (String c' s')))
    with ((Ascii.eqb c "_" && is_digit c')
          || underscore_digit (String c' s')).
  intros H. now apply orb_false_iff in H.
Qed.

(** X12.  The two camel-case converters of the plugin: a name without an
    underscore is left as it is by both; they agree on every name in
    which no underscore is followed by a digit; and on every name,
    [snakeToCamel] after [toCamelCase] gives what [snakeToCamel] alone
    gives. *)
Theorem camel_case_converters (s : string) :
  (has_underscore s = false -> snakeToCamel s = s /\ toCamelCase s = s)
  /\ (underscore_digit s = false -> toCamelCase s = snakeToCamel s)
  /\ snakeToCamel (toCamelCase s) = snakeToCamel s.
Proof.
  split; [| split].
  - induction s as [| c s IH]; [now split |].
    cbn [has_underscore]. intros H. apply orb_false_iff in H as [Hc Hs].
    destruct (IH Hs) as [I1 I2].
    cbn [snakeToCamel toCamelCase]. now rewrite Hc, I1, I2.
  - induction s as [| c | c c' r IHr IHc] using string_ind2.
    + reflexivity.
    + reflexivity.
    + intros H. pose proof (underscore_digit_tail _ _ H) as H'.
      pose proof (underscore_digit_tail _ _ H') as H''.
      change (underscore_digit (String c (String c' r)))
        with ((Ascii.eqb c "_" && is_digit c')
              || underscore_digit (String c' r)) in H.
      apply orb_false_iff in H as [Hd _].
      rewrite toCamelCase_cons2, snakeToCamel_cons2, (IHr H''), (IHc H').
      destruct (Ascii.eqb c "_"); [| reflexivity].
      cbn [andb] in Hd. rewrite Hd, orb_false_r. reflexivity.
  - induction s as [| c | c c' r IHr IHc] using string_ind2.
    + reflexivity.
    + cbn. now destruct (Ascii.eqb c "_") eqn:E; cbn; rewrite E.
    + rewrite toCamelCase_cons2, (snakeToCamel_cons2 c c' r).
      destruct (Ascii.eqb c "_") eqn:Ec.
      * apply Ascii.eqb_eq in Ec. subst c.
        destruct (is_lower c') eqn:El.
        -- destruct (upper_lower_char c' El) as [U _].
           rewrite snakeToCamel_cons by (now rewrite U).
           cbn [orb]. now rewrite IHr.
        -- cbn [orb]. destruct (is_digit c') eqn:Ed.
           ++ destruct (digit_char c' Ed) as [U _].
              change (toCamelCase (String c' r))
                with (if Ascii.eqb c' "_" then
                        match r with
                        | String letter rest' =>
                            if is_lower letter
                            then String (upper letter) (toCamelCase rest')
                            else String c' (toCamelCase r)
                        | EmptyString => String c' EmptyString
                        end
                      else String c' (toCamelCase r)).
              rewrite U, snakeToCamel_cons2. cbn [Ascii.eqb Bool.eqb].
              rewrite El, Ed. cbn [orb]. now rewrite IHr.
           ++ rewrite snakeToCamel_cons.
              ** now rewrite IHc.
              ** rewrite toCamelCase_head; [reflexivity |].
                 now rewrite El, Ed.
      * rewrite snakeToCamel_cons by (now rewrite Ec). now rewrite IHc.
Qed.

End CamelCase.

(** ** The unit converter and the cache *)

Section ConverterAndCache.
Import JS Plugin Ingest.
Local Open Scope string_scope.

Lemma one_of_app (key : string) (l1 l2 : list string) :
  one_of key (l1 ++ l2) = one_of key l1 || one_of key l2.
Proof. unfold one_of. apply existsb_app. Qed.

(** X13.  What [convertToSignalKUnits] lets through: a [null] or
    [undefined] value comes back as it is, without a unit, whatever the
    field; any other value gets a unit exactly when the camel-case field
    name is one of the labelled ones; and outside the groups that are
    scaled (temperatures, pressures, the direction, distances, the report
    interval, rain and humidity) the value is not touched. *)
Theorem convertToSignalKUnits_passthrough {rt : Runtime} (key : string)
    (value : JS.value) :
  (nullish value = true ->
   convertToSignalKUnits key value = ConvertedValue.mk value None)
  /\ (nullish value = false ->
      (ConvertedValue.units (convertToSignalKUnits key value) = None
       <-> one_of (snakeToCamel key) labelledKeys = false))
  /\ (one_of (snakeToCamel key) scaledKeys = false ->
      ConvertedValue.value (convertToSignalKUnits key value) = value).
Proof.
  unfold convertToSignalKUnits, labelledKeys, scaledKeys.
  rewrite !one_of_app.
  destruct (nullish value);
    (split; [try discriminate; try reflexivity | split]);
    try discriminate; try reflexivity; intros H; revert H;
    repeat match goal with
           | |- context [one_of ?k ?l] => destruct (one_of k l)
           end;
    cbn [orb ConvertedValue.units ConvertedValue.value];
    try discriminate; try reflexivity;
    try (intros _; split; intros H; first [discriminate H | reflexivity]).
Qed.

Lemma Map_get_set_same (m : list (string * JS.value)) (k : string)
    (v : JS.value) :
  Map_get (Map_set m k v) k = Some v.
Proof.
  induction m as [| [k' x] m IH]; cbn [Map_set Map_get].
  - now rewrite String.eqb_refl.
  - destruct (String.eqb k' k) eqn:E; cbn [Map_get]; rewrite E;
      [reflexivity | exact IH].
Qed.

Lemma Map_get_set_other (m : list (string * JS.value)) (k k' : string)
    (v : JS.value) :
  k' <> k -> Map_get (Map_set m k v) k' = Map_get m k'.
Proof.
  intros N. induction m as [| [k0 x] m IH]; cbn [Map_set Map_get].
  - destruct (String.eqb_spec k k'); [congruence | reflexivity].
  - destruct (String.eqb_spec k0 k) as [-> | N0]; cbn [Map_get].
    + destruct (String.eqb_spec k k'); [congruence | reflexivity].
    + now rewrite IH.
Qed.

Lemma Map_set_keys (m : list (string * JS.value)) (k : string)
    (v : JS.value) :
  map fst (Map_set m k v)
  = if existsb (String.eqb k) (map fst m) then map fst m
    else (map fst m ++ [k])%list.
Proof.
  induction m as [| [k0 x] m IH]; [reflexivity |].
  cbn [Map_set map fst existsb].
  rewrite (String.eqb_sym k k0).
  destruct (String.eqb_spec k0 k) as [-> | N0]; [reflexivity |].
  cbn [map fst orb]. rewrite IH.
  now destruct (existsb (String.eqb k) (map fst m)).
Qed.

Lemma lookup_assign_same (fields : list (string * JS.value)) (k : string)
    (v : JS.value) :
  lookup (assign fields k v) k = v.
Proof.
  induction fields as [| [k' x] m IH]; cbn [assign lookup].
  - now rewrite String.eqb_refl.
  - destruct (String.eqb k' k) eqn:E; cbn [lookup]; rewrite E;
      [reflexivity | exact IH].
Qed.

Lemma lookup_assign_other (fields : list (string * JS.value))
    (k k' : string) (v : JS.value) :
  k' <> k -> lookup (assign fields k v) k' = lookup fields k'.
Proof.
  intros N. induction fields as [| [k0 x] m IH]; cbn [assign lookup].
  - destruct (String.eqb_spec k k'); [congruence | reflexivity].
  - destruct (String.eqb_spec k0 k) as [-> | N0]; cbn [lookup].
    + destruct (String.eqb_spec k k'); [congruence | reflexivity].
    + now rewrite IH.
Qed.

(** X14.  [cacheObservationData] keeps one record per kind: the record of
    the kind that is cached is replaced by the data, stamped with the
    time of caching under [timestamp] and otherwise field for field as
    given; the records of the other kinds are not touched; no kind comes
    to appear twice, and the cache grows by one record at most.  The
    forecast bundle and the two positions stay as they are. *)
Theorem cacheObservationData_map (st : PluginState.t) (type : string)
    (data : JS.value) (now : Z) :
  let st' := cacheObservationData st type data now in
  (exists record,
     Map_get (PluginState.latestObservations st') type = Some record
     /\ get record "timestamp" = Iso now
     /\ forall k, k <> "timestamp" -> get record k = get data k)
  /\ (forall other, other <> type ->
        Map_get (PluginState.latestObservations st') other
        = Map_get (PluginState.latestObservations st) other)
  /\ (NoDup (map fst (PluginState.latestObservations st)) ->
      NoDup (map fst (PluginState.latestObservations st')))
  /\ (List.length (PluginState.latestObservations st)
      <= List.length (PluginState.latestObservations st')
      <= S (List.length (PluginState.latestObservations st)))%nat
  /\ PluginState.latestForecastData st' = PluginState.latestForecastData st
  /\ PluginState.stationLocation st' = PluginState.stationLocation st
  /\ PluginState.currentVesselPosition st'
     = PluginState.currentVesselPosition st.
Proof.
  intros st'. unfold st', cacheObservationData.
  cbn [PluginState.latestObservations PluginState.latestForecastData
       PluginState.stationLocation PluginState.currentVesselPosition].
  set (m := PluginState.latestObservations st).
  split; [| split; [| split; [| split]]].
  - eexists. split; [apply Map_get_set_same |].
    cbn [get]. split; [apply lookup_assign_same |].
    intros k Hk. rewrite lookup_assign_other by exact Hk.
    destruct data; reflexivity.
  - intros other N. now apply Map_get_set_other.
  - rewrite Map_set_keys. intros ND.
    destruct (existsb (String.eqb type) (map fst m)) eqn:E; [exact ND |].
    apply NoDup_app; [exact ND | repeat constructor; intros [] |].
    intros k Hk [<- | []].
    assert (existsb (String.eqb type) (map fst m) = true)
      by (apply existsb_exists; exists type; split;
          [exact Hk | apply String.eqb_refl]).
    congruence.
  - rewrite <- !(length_map fst), Map_set_keys.
    destruct (existsb (String.eqb type) (map fst m)).
    + lia.
    + rewrite length_app. cbn [List.length]. lia.
  - repeat split.
Qed.

End ConverterAndCache.

(** ** From an observation message to the cache and to the provider *)

Section ObservationPipeline.
Import JS Plugin Ingest.
Local Open Scope string_scope.

Lemma first_element_date {rt : Runtime} (x : R) (obs : list R) :
  toISOString (Date_of (times (element (x :: obs) 0) (num 1000)))
  = Some (Iso (trunc (x * 1000))).
Proof. reflexivity. Qed.

Lemma no_element_date {rt : Runtime} :
  toISOString (Date_of (times (element [] 0) (num 1000))) = None.
Proof. reflexivity. Qed.

(** X15.  The three observation handlers throw, and cache nothing, exactly
    when the array they are given is empty: the date of the observation is
    then invalid and [toISOString] raises a [RangeError].  With a first
    element, the record is cached. *)
Theorem observation_handlers_throw_on_empty {rt : Runtime}
    (st : PluginState.t) (obs : list R) (now : Z) :
  (processTempestObservation st obs now = None <-> obs = [])
  /\ (processRapidWind st obs now = None <-> obs = [])
  /\ (processAirObservation st obs now = None <-> obs = []).
Proof.
  unfold processTempestObservation, tempestWeatherApiData,
    tempestObservationData, processRapidWind, rapidWindData,
    processAirObservation, airObservationData.
  destruct obs as [| x obs].
  - rewrite no_element_date. repeat split; reflexivity.
  - rewrite first_element_date.
    repeat split; intros H; discriminate H.
Qed.

(** X16.  For an observation array of 22 numbers or more, every value that
    [processTempestObservation] publishes is the value it caches under the
    same field, on the path of that field, with one exception: the report
    interval is published in seconds and cached in minutes. *)
Theorem tempest_cache_matches_deltas {rt : Runtime}
    (st st' : PluginState.t) (obs : list R) (now : Z) (source : string)
    (deltas : list SignalKDelta.t) :
  (22 <= List.length obs)%nat ->
  processTempestObservation st obs now = Some st' ->
  tempestDeltas obs source = Some deltas ->
  exists observationData record,
    tempestObservationData obs = Some observationData
    /\ Map_get (PluginState.latestObservations st') "tempest" = Some record
    /\ SignalKDelta.entries deltas
       = map (fun '(key, _) =>
                ("environment.outside.tempest.observations." ++ key,
                 if String.eqb key "reportInterval"
                 then times (get record key) (num 60)
                 else get record key))
             (filter (fun '(key, _) => negb (String.eqb key "utcDate"))
                     observationData).
Proof.
  intros Hlen Hst Hdeltas.
  do 22 (destruct obs as [| ? obs]; [cbn [List.length] in Hlen; lia |]).
  clear Hlen.
  unfold processTempestObservation, tempestWeatherApiData in Hst.
  unfold tempestDeltas in Hdeltas.
  unfold tempestObservationData in *.
  rewrite first_element_date in *.
  injection Hst as <-. injection Hdeltas as <-.
  eexists. eexists. split; [reflexivity |]. split.
  - unfold cacheObservationData. cbn [PluginState.latestObservations].
    apply Map_get_set_same.
  - cbv -[Rplus Rmult Rdiv Rminus Ropp Rinv IZR PI trunc].
    repeat (match goal with
            | |- @eq R _ _ => fail 1
            | |- _ => idtac
            end; f_equal);
      try reflexivity; field.
Qed.

(** X17.  A Tempest observation processed on an empty cache is what
    [getObservations] then returns, as one record: dated at the
    observation's own time, with the temperature in kelvins, the pressure
    in pascals, the humidity as a ratio, the rain in metres and the wind
    direction in radians. *)
Theorem tempest_observation_served {rt : Runtime}
    (st st' : PluginState.t) (obs : list R) (now now' : Z)
    (pos : Position.t) :
  PluginState.latestObservations st = [] ->
  processTempestObservation st obs now = Some st' ->
  exists w t,
    getObservations pos None st' now' = Some [w]
    /\ Date_of (times (element obs 0) (num 1000)) = Some t
    /\ WeatherData.date w = Iso t
    /\ WeatherData.type w = "observation"
    /\ WeatherData.description w = Str "WeatherFlow tempest observation"
    /\ WeatherData.outside w
       = Some (Obj [
           ("temperature", plus (element obs 7) (num 273.15));
           ("pressure", times (element obs 6) (num 100));
           ("relativeHumidity", divide (element obs 8) (num 100));
           ("uvIndex", element obs 10);
           ("precipitationVolume", divide (element obs 12) (num 1000));
           ("precipitationType",
            Str (mapPrecipitationType (element obs 13)));
           ("solarRadiation", element obs 11);
           ("illuminance", element obs 9)])
    /\ WeatherData.wind w
       = Some (Obj [
           ("speedTrue", element obs 2);
           ("directionTrue",
            divide (times (element obs 4) (num PI)) (num 180));
           ("gust", element obs 3);
           ("averageSpeed", element obs 2)])
    /\ WeatherData.sun w = None.
Proof.
  intros Hempty Hst.
  destruct obs as [| x obs]; [discriminate Hst |].
  unfold processTempestObservation, tempestWeatherApiData,
    tempestObservationData in Hst.
  rewrite first_element_date in Hst. injection Hst as <-.
  unfold getObservations, cacheObservationData.
  cbn [PluginState.latestObservations]. rewrite Hempty.
  eexists. exists (trunc (x * 1000)).
  split; [reflexivity |]. repeat split.
Qed.

(** X27.  A rapid-wind message and an Air observation processed on an
    empty cache are what [getObservations] then returns: the first as a
    record with a wind part only, the direction in radians; the second as
    a record with an outside part only, the temperature in kelvins, the
    pressure in pascals and the humidity as a ratio. *)
Theorem rapid_wind_and_air_served {rt : Runtime} (st : PluginState.t)
    (ob : list R) (now now' : Z) (pos : Position.t) :
  PluginState.latestObservations st = [] ->
  (forall st', processRapidWind st ob now = Some st' ->
     exists w,
       getObservations pos None st' now' = Some [w]
       /\ WeatherData.description w
          = Str "WeatherFlow rapidWind observation"
       /\ WeatherData.outside w = None
       /\ WeatherData.wind w
          = Some (Obj [
              ("speedTrue", element ob 1);
              ("directionTrue",
               divide (times (element ob 2) (num PI)) (num 180))]))
  /\ (forall st', processAirObservation st ob now = Some st' ->
        exists w,
          getObservations pos None st' now' = Some [w]
          /\ WeatherData.description w = Str "WeatherFlow air observation"
          /\ WeatherData.outside w
             = Some (Obj [
                 ("temperature", plus (element ob 2) (num 273.15));
                 ("pressure", times (element ob 1) (num 100));
                 ("relativeHumidity", divide (element ob 3) (num 100))])
          /\ WeatherData.wind w = None).
Proof.
  intros Hempty.
  destruct ob as [| x ob]; [split; intros st' H; discriminate H |].
  unfold processRapidWind, rapidWindData, processAirObservation,
    airObservationData.
  rewrite first_element_date.
  split; intros st' H; injection H as <-;
    unfold getObservations, cacheObservationData;
    cbn [PluginState.latestObservations]; rewrite Hempty;
    eexists; (split; [reflexivity |]); repeat split.
Qed.

End ObservationPipeline.

Lemma tempest_cache_matches_deltas_witness :
  exists st' deltas record,
    Plugin.processTempestObservation (rt := Samples.bareRuntime)
      PluginState.init Samples.strikes 1700000000500 = Some st'
    /\ Ingest.tempestDeltas (rt := Samples.bareRuntime) Samples.strikes
         "signalk-weatherflow-udp" = Some deltas
    /\ Plugin.Map_get (PluginState.latestObservations st') "tempest"
       = Some record
    /\ In ("environment.outside.tempest.observations.airTemperature"%string,
           JS.get record "airTemperature")
          (SignalKDelta.entries deltas).
Proof.
  assert (S : exists st,
             Plugin.processTempestObservation (rt := Samples.bareRuntime)
               PluginState.init Samples.strikes 1700000000500 = Some st)
    by (eexists; reflexivity).
  assert (D : exists deltas,
             Ingest.tempestDeltas (rt := Samples.bareRuntime) Samples.strikes
               "signalk-weatherflow-udp" = Some deltas)
    by (eexists; reflexivity).
  destruct S as [st' Hst]. destruct D as [deltas Hd].
  destruct (tempest_cache_matches_deltas (rt := Samples.bareRuntime)
              PluginState.init st' Samples.strikes 1700000000500
              "signalk-weatherflow-udp" deltas)
    as (data & record & Hdata & Hrec & Hentries).
  - cbn [List.length Samples.strikes]. lia.
  - exact Hst.
  - exact Hd.
  - exists st', deltas, record. repeat split; trivial.
    rewrite Hentries.
    unfold Plugin.tempestObservationData in Hdata.
    change (Plugin.element Samples.strikes 0) with (JS.num 1700000000)
      in Hdata.
    cbn [JS.times JS.num JS.ToNumber JS.lift2 JS.Date_of JS.toISOString
         option_map] in Hdata.
    injection Hdata as <-.
    cbn [filter map String.eqb Ascii.eqb Bool.eqb negb].
    do 7 right. left. reflexivity.
Defined.

Lemma tempest_observation_served_witness :
  exists w,
    Plugin.getObservations (rt := Samples.bareRuntime) Samples.origin None
      Samples.after_strikes 1700000001000 = Some [w]
    /\ WeatherData.date w = JS.Iso 1700000000000.
Proof.
  assert (T : JS.trunc (1700000000 * 1000) = 1700000000000%Z).
  { rewrite <- mult_IZR. apply trunc_IZR. }
  assert (S : exists st,
             Plugin.processTempestObservation (rt := Samples.bareRuntime)
               PluginState.init Samples.strikes 1700000000500 = Some st
             /\ Samples.after_strikes = st).
  { unfold Samples.after_strikes, Plugin.processTempestObservation,
      Plugin.tempestWeatherApiData, Plugin.tempestObservationData.
    change (Plugin.element Samples.strikes 0) with (JS.num 1700000000).
    unfold JS.times, JS.num.
    cbn [JS.ToNumber JS.lift2 JS.Date_of JS.toISOString option_map].
    eexists. split; reflexivity. }
  destruct S as (st & Hst & ->).
  destruct (tempest_observation_served (rt := Samples.bareRuntime)
              PluginState.init st Samples.strikes 1700000000500
              1700000001000 Samples.origin Logic.eq_refl Hst)
    as (w & t & Hw & Ht & Hdate & _).
  exists w. split; [exact Hw |].
  rewrite Hdate. f_equal.
  change (Plugin.element Samples.strikes 0) with (JS.num 1700000000) in Ht.
  unfold JS.times, JS.num in Ht.
  cbn [JS.ToNumber JS.lift2 JS.Date_of] in Ht.
  rewrite T in Ht. now injection Ht as <-.
Defined.

(** ** More on the weather provider *)

Section ProviderExtras.
Import JS Plugin Ingest.
Local Open Scope string_scope.

Lemma forecasts_of_length {rt : Runtime} (ty : WeatherForecastType.t)
    (entries : list value) (acc : list WeatherData.t) :
  (List.length (fst (forecasts_of entries ty acc))
   <= List.length acc + List.length entries)%nat.
Proof.
  revert acc. induction entries as [| e entries IH]; intros acc;
    cbn [forecasts_of fst List.length]; [lia |].
  destruct (convertForecastToWeatherAPI e ty) as [w |];
    cbn [fst]; [| lia].
  specialize (IH (acc ++ [w])%list). rewrite length_app in IH.
  cbn [List.length] in IH. lia.
Qed.

Lemma selected_entries_length (data : ForecastData.t)
    (ty : WeatherForecastType.t) :
  (List.length (selected_entries data ty)
   <= match ty with
      | WeatherForecastType.point => 72
      | WeatherForecastType.daily => 10
      end)%nat.
Proof.
  unfold selected_entries.
  destruct (ForecastData.forecast data) as [f |];
    [| destruct ty; cbn; lia].
  destruct ty.
  - destruct (ForecastData.hourly f); [apply firstn_le_length | cbn; lia].
  - destruct (ForecastData.daily f); [apply firstn_le_length | cbn; lia].
Qed.

Lemma slice0_length {A : Type} (arr : list A) (n : Z) :
  (List.length (slice0 arr n) <= List.length arr)%nat.
Proof.
  unfold slice0. destruct (0 <=? n)%Z; rewrite length_firstn; lia.
Qed.

Lemma filter_shorter {A : Type} (f : A -> bool) (l : list A) :
  (List.length (filter f l) <= List.length l)%nat.
Proof.
  induction l as [| x l IH]; cbn [filter List.length]; [lia |].
  destruct (f x); cbn [List.length]; lia.
Qed.

(** X18.  Whatever is cached and whatever the options are, [getForecasts]
    returns at most 72 entries for a point forecast and at most 10 for a
    daily one. *)
Theorem getForecasts_bounded {rt : Runtime} (pos : Position.t)
    (ty : WeatherForecastType.t) (options : option WeatherReqParams.t)
    (st : PluginState.t) (now : Z) :
  (List.length (getForecasts pos ty options st now)
   <= match ty with
      | WeatherForecastType.point => 72
      | WeatherForecastType.daily => 10
      end)%nat.
Proof.
  unfold getForecasts. destruct (Rgt_dec _ _); [destruct ty; cbn; lia |].
  unfold forecasts_from_cache.
  destruct (PluginState.latestForecastData st) as [data |];
    [| destruct ty; cbn; lia].
  pose proof (forecasts_of_length ty (selected_entries data ty) []) as L.
  pose proof (selected_entries_length data ty) as S.
  destruct (forecasts_of (selected_entries data ty) ty [])
    as [forecasts thrown].
  cbn [fst List.length] in L.
  assert (B : (List.length forecasts
               <= match ty with
                  | WeatherForecastType.point => 72
                  | WeatherForecastType.daily => 10
                  end)%nat) by lia.
  destruct thrown; [exact B |].
  destruct (given_startDate options) as [startDate |].
  - eapply Nat.le_trans; [apply filter_shorter | exact B].
  - destruct (exceeds_maxCount options forecasts) as [count |];
      [| exact B].
    eapply Nat.le_trans; [apply slice0_length | exact B].
Qed.

(** X19.  Within the distance gate and with every selected entry
    converting, a request with a start date gets the converted entries
    dated at or after it, in their order and nothing else; a start date
    that [Date] cannot read gets the empty list. *)
Theorem forecasts_startDate_filter {rt : Runtime} (pos : Position.t)
    (ty : WeatherForecastType.t) (o : WeatherReqParams.t)
    (st : PluginState.t) (now : Z) (data : ForecastData.t)
    (ws : list WeatherData.t) (startDate : value) :
  PluginState.latestForecastData st = Some data ->
  Forall2 (fun e w => convertForecastToWeatherAPI e ty = Some w)
          (selected_entries data ty) ws ->
  WeatherReqParams.startDate o = Some startDate ->
  ToBoolean startDate = true ->
  calculateDistance pos (getStationLocation st now) <= 100000 ->
  getForecasts pos ty (Some o) st now
  = filter (fun f => time_ge (Date_of (WeatherData.date f))
                             (Date_of startDate)) ws
  /\ (Date_of startDate = None -> getForecasts pos ty (Some o) st now = []).
Proof.
  intros Hdata Hall Hstart Htruthy Hdist.
  assert (E : getForecasts pos ty (Some o) st now
              = filter (fun f => time_ge (Date_of (WeatherData.date f))
                                         (Date_of startDate)) ws).
  { unfold getForecasts. destruct (Rgt_dec _ _); [lra |].
    rewrite (forecasts_from_cache_all_convert ty (Some o) st data ws
               Hdata Hall).
    unfold given_startDate. now rewrite Hstart, Htruthy. }
  split; [exact E |]. intros Hinvalid. rewrite E, Hinvalid.
  clear. induction ws as [| w ws' IH]; [reflexivity |].
  cbn [filter]. destruct (Date_of (WeatherData.date w)); exact IH.
Qed.

Lemma observations_of_length {rt : Runtime}
    (entries : list (string * value)) (now : Z) (l : list WeatherData.t) :
  observations_of entries now = Some l ->
  (List.length l <= List.length entries)%nat.
Proof.
  revert l. induction entries as [| [type data] entries IH]; intros l;
    cbn [observations_of List.length].
  - intros H. injection H as <-. cbn. lia.
  - destruct (ToBoolean data && ToBoolean (get data "timestamp")).
    + destruct (convertObservationToWeatherAPI type data now) as [w |];
        [| discriminate].
      destruct (observations_of entries now) as [l' |]; [| discriminate].
      intros H. injection H as <-. specialize (IH l' Logic.eq_refl).
      cbn [List.length]. lia.
    + intros H. specialize (IH l H). lia.
Qed.

(** X20.  The options of [getObservations]: the start date is never read;
    a [maxCount] of 0 is no limit, as is an absent one; what is returned
    is never longer than the cache, nor than a positive [maxCount]; and a
    negative [maxCount] drops that many records from the end. *)
Theorem getObservations_options {rt : Runtime} (pos : Position.t)
    (st : PluginState.t) (now : Z) (maxCount : option Z)
    (startDate : option value) :
  getObservations pos (Some (WeatherReqParams.mk maxCount startDate)) st now
  = getObservations pos (Some (WeatherReqParams.mk maxCount None)) st now
  /\ getObservations pos (Some (WeatherReqParams.mk (Some 0%Z) startDate))
                     st now
     = getObservations pos None st now
  /\ getObservations pos (Some (WeatherReqParams.mk None startDate)) st now
     = getObservations pos None st now
  /\ (forall l,
        getObservations pos (Some (WeatherReqParams.mk maxCount startDate))
                        st now = Some l ->
        (List.length l <= List.length (PluginState.latestObservations st))%nat
        /\ forall n, maxCount = Some n -> (0 < n)%Z ->
                     (List.length l <= Z.to_nat n)%nat)
  /\ (forall all n,
        getObservations pos None st now = Some all -> (n < 0)%Z ->
        getObservations pos (Some (WeatherReqParams.mk (Some n) startDate))
                        st now
        = Some (firstn (List.length all - Z.to_nat (- n)) all)).
Proof.
  split; [reflexivity |]. split; [| split; [| split]].
  - unfold getObservations. now destruct (observations_of _ _).
  - unfold getObservations. now destruct (observations_of _ _).
  - intros l H. split.
    + unfold getObservations in H.
      destruct (observations_of _ _) as [obs |] eqn:E; [| discriminate].
      apply observations_of_length in E.
      destruct (exceeds_maxCount _ obs); injection H as <-; [| exact E].
      eapply Nat.le_trans; [apply slice0_length | exact E].
    + intros n -> Hn.
      now apply (observations_at_most_maxCount pos
                   (WeatherReqParams.mk (Some n) startDate) st now l n).
  - intros all n H Hn. unfold getObservations in *.
    destruct (observations_of _ _) as [obs |]; [| discriminate].
    cbn [exceeds_maxCount] in H. injection H as <-.
    unfold exceeds_maxCount. cbn [WeatherReqParams.maxCount].
    destruct (Z.eqb_spec n 0); [lia |].
    destruct (Z.ltb_spec n (Z.of_nat (List.length obs))); [| lia].
    cbn [negb andb]. unfold slice0.
    destruct (Z.leb_spec 0 n); [lia |].
    do 2 f_equal. lia.
Qed.

(** X21.  [getWarnings] never rejects and returns one warning at most; a
    warning it returns is a lightning warning of the WeatherFlow station
    that lasts thirty minutes and has not ended yet. *)
Theorem getWarnings_at_most_one {rt : Runtime} (pos : Position.t)
    (st : PluginState.t) (now : Z) :
  exists l,
    getWarnings pos st now = Some l
    /\ (List.length l <= 1)%nat
    /\ forall w, In w l ->
         WeatherWarning.type w = "lightning"
         /\ WeatherWarning.source w = "WeatherFlow Station"
         /\ exists t,
              WeatherWarning.startTime w = Iso t
              /\ WeatherWarning.endTime w = Iso (t + 30 * 60 * 1000)
              /\ (now < t + 30 * 60 * 1000)%Z.
Proof.
  unfold getWarnings.
  destruct (Map_get _ _) as [data |];
    [| exists []; split; [reflexivity | split; [cbn; lia | intros w []]]].
  destruct (ToBoolean data && gt (get data "lightningStrikeCount") 0);
    [| exists []; split; [reflexivity | split; [cbn; lia | intros w []]]].
  destruct (Date_of (times (get data "timeEpoch") (num 1000))) as [t |];
    cbn [option_map date_lt toISOString];
    [| exists []; split; [reflexivity | split; [cbn; lia | intros w []]]].
  destruct (Z.ltb_spec now (t + 30 * 60 * 1000)) as [Hlt | Hge];
    [| exists []; split; [reflexivity | split; [cbn; lia | intros w []]]].
  eexists. split; [reflexivity |]. split; [cbn; lia |].
  intros w [<- | []]. split; [reflexivity |]. split; [reflexivity |].
  exists t. now repeat split.
Qed.

(** X22.  The distance of two positions does not depend on their order;
    for latitudes between -90 and 90 it lies between 0 and half the
    circumference of the sphere, 6371000 PI metres. *)
Theorem calculateDistance_symmetric_bounded (p q : Position.t) :
  calculateDistance p q = calculateDistance q p
  /\ (-90 <= Position.latitude p <= 90 ->
      -90 <= Position.latitude q <= 90 ->
      0 <= calculateDistance p q <= 6371000 * PI).
Proof.
  pose proof PI_RGT_0 as Hpi. split.
  - unfold calculateDistance. cbv zeta.
    match goal with
    | |- _ * (2 * atan2 (sqrt ?A) _) = _ * (2 * atan2 (sqrt ?B) _) =>
        assert (E : A = B)
    end.
    { replace ((Position.latitude q - Position.latitude p) * PI / 180 / 2)
        with (- ((Position.latitude p - Position.latitude q)
                 * PI / 180 / 2)) by field.
      replace ((Position.longitude q - Position.longitude p) * PI / 180 / 2)
        with (- ((Position.longitude p - Position.longitude q)
                 * PI / 180 / 2)) by field.
      rewrite !sin_neg. ring. }
    now rewrite E.
  - intros Hp Hq. rewrite (calculateDistance_haversine p q Hp Hq).
    unfold haversine_distance.
    set (phi1 := Position.latitude p * PI / 180).
    set (phi2 := Position.latitude q * PI / 180).
    assert (B1 : - (PI / 2) <= phi1 <= PI / 2) by (unfold phi1; split; nra).
    assert (B2 : - (PI / 2) <= phi2 <= PI / 2) by (unfold phi2; split; nra).
    pose proof (haversine_unit phi1 phi2
                  (Position.longitude q * PI / 180
                   - Position.longitude p * PI / 180) B1 B2) as Ha.
    set (a := hav (phi2 - phi1) + _) in *.
    assert (Hx : 0 <= sqrt a <= 1).
    { split; [apply sqrt_pos |]. rewrite <- sqrt_1.
      apply sqrt_le_1_alt. lra. }
    pose proof (asin_bound (sqrt a)) as Hb.
    assert (Hsin : sin (asin (sqrt a)) = sqrt a) by (apply sin_asin; lra).
    assert (H0 : 0 <= asin (sqrt a)).
    { destruct (Rle_dec 0 (asin (sqrt a))) as [H | H]; [exact H |].
      assert (sin (asin (sqrt a)) < 0)
        by (apply sin_lt_0_var; lra).
      lra. }
    split; nra.
Qed.

Lemma handlePositionValue_keeps {rt : Runtime} (st : PluginState.t)
    (update : Update.t) (v : ValueUpdate.t) (now : Z) :
  let st' := handlePositionValue st update v now in
  PluginState.latestObservations st' = PluginState.latestObservations st
  /\ PluginState.latestForecastData st' = PluginState.latestForecastData st
  /\ PluginState.stationLocation st' = PluginState.stationLocation st.
Proof.
  unfold handlePositionValue.
  destruct (String.eqb _ _); [| now repeat split].
  destruct (ValueUpdate.value v) as [p |]; [| now repeat split].
  destruct (PositionValue.latitude p), (PositionValue.longitude p);
    now repeat split.
Qed.

Lemma handlePositionUpdate_keeps {rt : Runtime} (st : PluginState.t)
    (update : Update.t) (now : Z) :
  let st' := handlePositionUpdate st update now in
  PluginState.latestObservations st' = PluginState.latestObservations st
  /\ PluginState.latestForecastData st' = PluginState.latestForecastData st
  /\ PluginState.stationLocation st' = PluginState.stationLocation st.
Proof.
  unfold handlePositionUpdate.
  destruct (Update.values update) as [values |]; [| now repeat split].
  revert st. induction values as [| v values IH]; intros st;
    cbn [fold_left]; [now repeat split |].
  destruct (IH (handlePositionValue st update v now)) as (A & B & C).
  destruct (handlePositionValue_keeps st update v now) as (A' & B' & C').
  cbv zeta in *. repeat split; congruence.
Qed.

(** X23.  [handlePositionData] touches the vessel position only: the
    cache, the forecast bundle and the configured location stay.  A delta
    without updates, or whose values are on other paths or lack a
    coordinate, changes nothing.  After a delta with one position, the
    station location of the provider is that position, 0 coordinates
    included, whatever location is configured. *)
Theorem handlePositionData_effect {rt : Runtime} (st : PluginState.t)
    (delta : Delta.t) (now : Z) :
  let st' := handlePositionData st delta now in
  PluginState.latestObservations st' = PluginState.latestObservations st
  /\ PluginState.latestForecastData st' = PluginState.latestForecastData st
  /\ PluginState.stationLocation st' = PluginState.stationLocation st
  /\ (match Delta.updates delta with
      | None => True
      | Some updates =>
          Forall (fun u =>
                    match Update.values u with
                    | None => True
                    | Some values => Forall passed_over values
                    end) updates
      end -> st' = st)
  /\ (forall timestamp latitude longitude now',
        delta
        = Delta.mk
            (Some [Update.mk timestamp
                     (Some [ValueUpdate.mk "navigation.position"
                              (Some (PositionValue.mk (Some latitude)
                                                      (Some longitude)))])])
        ->
        getStationLocation st' now'
        = Position.mk latitude longitude
            (if ToBoolean timestamp then Date_of timestamp else Some now)).
Proof.
  intros st'. subst st'. unfold handlePositionData.
  assert (K : forall updates s,
            let s' := fold_left (fun s u => handlePositionUpdate s u now)
                                updates s in
            PluginState.latestObservations s'
            = PluginState.latestObservations s
            /\ PluginState.latestForecastData s'
               = PluginState.latestForecastData s
            /\ PluginState.stationLocation s'
               = PluginState.stationLocation s).
  { induction updates as [| u updates IH]; intros s; cbn [fold_left];
      [now repeat split |].
    destruct (IH (handlePositionUpdate s u now)) as (A & B & C).
    destruct (handlePositionUpdate_keeps s u now) as (A' & B' & C').
    cbv zeta in *. repeat split; congruence. }
  split; [| split; [| split; [| split]]].
  - destruct (Delta.updates delta); [apply K | reflexivity].
  - destruct (Delta.updates delta); [apply K | reflexivity].
  - destruct (Delta.updates delta); [apply K | reflexivity].
  - destruct (Delta.updates delta) as [updates |]; [| reflexivity].
    intros H. clear K. revert st.
    induction H as [| u updates Hu _ IH]; intros st; cbn [fold_left];
      [reflexivity |].
    enough (E : handlePositionUpdate st u now = st) by (rewrite E; apply IH).
    unfold handlePositionUpdate.
    destruct (Update.values u) as [values |]; [| reflexivity].
    clear IH. revert st.
    induction Hu as [| v values Hv _ IHv]; intros st; cbn [fold_left];
      [reflexivity |].
    enough (E : handlePositionValue st u v now = st)
      by (rewrite E; apply IHv).
    unfold handlePositionValue, passed_over in *.
    destruct (String.eqb_spec (ValueUpdate.path v) "navigation.position")
      as [Hp | Hp]; [| reflexivity].
    destruct Hv as [Hv | Hv]; [contradiction |].
    destruct (ValueUpdate.value v) as [p |]; [| reflexivity].
    destruct Hv as [-> | ->]; [reflexivity |].
    now destruct (PositionValue.latitude p).
  - intros timestamp latitude longitude now' ->. reflexivity.
Qed.

(** X24.  The station location of the options: a latitude or a longitude
    that is absent or 0 leaves the location as it was, so a station on the
    equator or on the prime meridian is not taken; any other pair is
    stored, and is the station location of the provider as long as no
    vessel position is known. *)
Theorem start_stationLocation_zero (st : PluginState.t)
    (stationLatitude stationLongitude : option R) (now : Z) :
  let st' :=
    start_stationLocation st stationLatitude stationLongitude now in
  (stationLatitude = None \/ stationLatitude = Some 0
   \/ stationLongitude = None \/ stationLongitude = Some 0 -> st' = st)
  /\ (forall x y,
        stationLatitude = Some x -> stationLongitude = Some y ->
        x <> 0 -> y <> 0 ->
        PluginState.stationLocation st' = Some (Position.mk x y (Some now))
        /\ (forall now',
              getStationLocation st' now'
              = match PluginState.currentVesselPosition st with
                | Some vessel => vessel
                | None => Position.mk x y (Some now)
                end)).
Proof.
  intros st'. subst st'. unfold start_stationLocation.
  assert (O : forall x, JS.or x 0 = x).
  { intros x. unfold JS.or, truthy. now destruct (Req_dec_T x 0). }
  assert (T0 : truthy 0 = false).
  { unfold truthy. destruct (Req_dec_T 0 0); [reflexivity | lra]. }
  assert (T1 : forall x, x <> 0 -> truthy x = true).
  { intros x Hx. unfold truthy.
    destruct (Req_dec_T x 0); [contradiction | reflexivity]. }
  split.
  - destruct stationLatitude as [x |], stationLongitude as [y |];
      rewrite ?O;
      intros [H | [H | [H | H]]]; try discriminate H;
      try (injection H as ->);
      rewrite ?T0, ?andb_false_r; reflexivity.
  - intros x y -> -> Hx Hy. rewrite !O, (T1 x Hx), (T1 y Hy).
    cbn [andb]. split; [reflexivity |].
    intros now'. unfold getStationLocation, getCurrentVesselPosition.
    cbn [PluginState.currentVesselPosition PluginState.stationLocation].
    now destruct (PluginState.currentVesselPosition st).
Qed.

Lemma ToBoolean_zero {rt : Runtime} : ToBoolean (num 0) = false.
Proof.
  cbn [ToBoolean num]. unfold truthy.
  destruct (Req_dec_T 0 0); [reflexivity | lra].
Qed.

(** X25.  How the forecast converter treats a value of 0.  An hourly air
    temperature of 0 degrees is converted, to 273.15 K.  A relative
    humidity of 0, a precipitation of 0, a wind direction of 0 (north),
    and the daily high and low temperatures of 0 degrees are dropped: the
    field comes out [undefined]. *)
Theorem forecast_zero_values {rt : Runtime} (forecast : value)
    (ty : WeatherForecastType.t) (w : WeatherData.t) :
  convertForecastToWeatherAPI forecast ty = Some w ->
  exists outside wind,
    WeatherData.outside w = Some outside
    /\ WeatherData.wind w = Some wind
    /\ (get forecast "wind_direction" = num 0 ->
        get wind "directionTrue" = Undefined)
    /\ (ty = WeatherForecastType.point ->
        (get forecast "air_temperature" = num 0 ->
         get outside "temperature" = num 273.15)
        /\ (get forecast "relative_humidity" = num 0 ->
            get outside "relativeHumidity" = Undefined)
        /\ (get forecast "precip" = num 0 ->
            get outside "precipitationVolume" = Undefined))
    /\ (ty = WeatherForecastType.daily ->
        (get forecast "air_temp_high" = num 0 ->
         get outside "maxTemperature" = Undefined)
        /\ (get forecast "air_temp_low" = num 0 ->
            get outside "minTemperature" = Undefined)).
Proof.
  unfold convertForecastToWeatherAPI.
  destruct (nullish forecast); [discriminate |].
  destruct (if ToBoolean (get forecast "datetime") then _ else _)
    as [date |]; [| discriminate].
  destruct ty; intros H; injection H as <-;
    cbn [WeatherData.outside WeatherData.wind];
    eexists; eexists; (split; [reflexivity |]); (split; [reflexivity |]);
    cbn [get lookup String.eqb Ascii.eqb Bool.eqb];
    repeat split; try discriminate;
    intros;
    repeat match goal with
           | E : get forecast _ = num 0 |- _ =>
               rewrite E; clear E
           end;
    rewrite ?ToBoolean_zero; try reflexivity.
  cbn [nullish num negb]. unfold plus, num.
  cbn [stringy orb ToNumber lift2]. do 2 f_equal. lra.
Qed.

Lemma lower_lower (c : ascii) : lower (lower c) = lower c.
Proof. destruct c as [[] [] [] [] [] [] [] []]; reflexivity. Qed.

Lemma toLowerCase_twice (s : string) :
  toLowerCase (toLowerCase s) = toLowerCase s.
Proof.
  induction s as [| c s IH]; [reflexivity |].
  cbn [toLowerCase]. now rewrite lower_lower, IH.
Qed.

(** X28.  The two mappings of the converters.  The precipitation kind is
    one of five texts; a text is matched without regard to case and never
    gives "mixed/ice"; a number never gives "thunderstorm".  The pressure
    tendency is one of three texts, "steady" for anything unknown. *)
Theorem precipitation_and_tendency_kinds (v : value) :
  In (mapPrecipitationType v)
     ["rain"; "snow"; "thunderstorm"; "mixed/ice"; "not available"]
  /\ (forall s, mapPrecipitationType (Str (toLowerCase s))
                = mapPrecipitationType (Str s))
  /\ (forall s, mapPrecipitationType (Str s) <> "mixed/ice")
  /\ (forall x, mapPrecipitationType (num x) <> "thunderstorm")
  /\ In (mapPressureTendency v) ["decreasing"; "increasing"; "steady"]
  /\ (mapPressureTendency v <> "steady" ->
      v = Str "falling" \/ v = Str "rising").
Proof.
  split; [| split; [| split; [| split; [| split]]]].
  - destruct v as [| | b | [x |] | s | ms | fields];
      cbn [mapPrecipitationType In]; try tauto.
    + repeat match goal with
             | |- context [if ?c then _ else _] => destruct c
             end; tauto.
    + repeat match goal with
             | |- context [if ?c then _ else _] => destruct c
             end; tauto.
  - intros s. cbn [mapPrecipitationType]. now rewrite toLowerCase_twice.
  - intros s. cbn [mapPrecipitationType].
    repeat match goal with
           | |- context [if ?c then _ else _] => destruct c
           end; discriminate.
  - intros x. cbn [mapPrecipitationType num].
    repeat match goal with
           | |- context [if ?c then _ else _] => destruct c
           end; discriminate.
  - destruct v as [| | b | n | s | ms | fields];
      cbn [mapPressureTendency In]; try tauto.
    repeat match goal with
           | |- context [if ?c then _ else _] => destruct c
           end; tauto.
  - destruct v as [| | b | n | s | ms | fields];
      cbn [mapPressureTendency]; try congruence.
    destruct (String.eqb_spec s "falling") as [-> | _]; [now left |].
    destruct (String.eqb_spec s "rising") as [-> | _]; [now right |].
    destruct (String.eqb s "steady"); congruence.
Qed.

End ProviderExtras.

Lemma forecasts_startDate_filter_witness :
  exists w2,
    Plugin.getForecasts (rt := Samples.bareRuntime) Samples.origin
      WeatherForecastType.point
      (Some (WeatherReqParams.mk None (Some (JS.Iso 1500000))))
      Samples.with_two_hours 0
    = [w2]
    /\ WeatherData.date w2 = JS.Iso 2000000.
Proof.
  destruct (hourly_entry_converts (rt := Samples.bareRuntime) 1000)
    as (w1 & E1 & D1).
  destruct (hourly_entry_converts (rt := Samples.bareRuntime) 2000)
    as (w2 & E2 & D2).
  exists w2. split; [| exact D2].
  destruct (forecasts_startDate_filter (rt := Samples.bareRuntime)
              Samples.origin WeatherForecastType.point
              (WeatherReqParams.mk None (Some (JS.Iso 1500000)))
              Samples.with_two_hours 0 Samples.two_hours [w1; w2]
              (JS.Iso 1500000)) as [E _].
  - reflexivity.
  - repeat constructor; assumption.
  - reflexivity.
  - reflexivity.
  - rewrite calculateDistance_same by reflexivity. lra.
  - rewrite E. cbv [filter]. rewrite D1, D2. reflexivity.
Defined.

Lemma forecast_zero_values_witness :
  exists w outside wind,
    Plugin.convertForecastToWeatherAPI (rt := Samples.bareRuntime)
      (JS.Obj [("time"%string, JS.num 1000);
               ("air_temperature"%string, JS.num 0);
               ("wind_direction"%string, JS.num 0)])
      WeatherForecastType.point = Some w
    /\ WeatherData.outside w = Some outside
    /\ WeatherData.wind w = Some wind
    /\ JS.get outside "temperature" = JS.num 273.15
    /\ JS.get wind "directionTrue" = JS.Undefined.
Proof.
  assert (C : exists w,
             Plugin.convertForecastToWeatherAPI (rt := Samples.bareRuntime)
               (JS.Obj [("time"%string, JS.num 1000);
                        ("air_temperature"%string, JS.num 0);
                        ("wind_direction"%string, JS.num 0)])
               WeatherForecastType.point = Some w)
    by (eexists; reflexivity).
  destruct C as [w Hw].
  destruct (forecast_zero_values (rt := Samples.bareRuntime) _ _ w Hw)
    as (outside & wind & Ho & Hwi & Hdir & Hpoint & _).
  destruct (Hpoint Logic.eq_refl) as (Htemp & _).
  exists w, outside, wind. repeat split; trivial.
  - apply Htemp. reflexivity.
  - apply Hdir. reflexivity.
Defined.

Lemma rapid_wind_and_air_served_witness :
  exists st' w,
    Ingest.processRapidWind (rt := Samples.bareRuntime) PluginState.init
      [1700000000; 5; 90] 1700000000500 = Some st'
    /\ Plugin.getObservations (rt := Samples.bareRuntime) Samples.origin
         None st' 1700000001000 = Some [w]
    /\ WeatherData.outside w = None.
Proof.
  assert (S : exists st,
             Ingest.processRapidWind (rt := Samples.bareRuntime)
               PluginState.init [1700000000; 5; 90] 1700000000500
             = Some st)
    by (eexists; reflexivity).
  destruct S as [st' Hst].
  destruct (rapid_wind_and_air_served (rt := Samples.bareRuntime)
              PluginState.init [1700000000; 5; 90] 1700000000500
              1700000001000 Samples.origin Logic.eq_refl) as [Hrapid _].
  destruct (Hrapid st' Hst) as (w & Hw & _ & Ho & _).
  exists st', w. repeat split; assumption.
Defined.
